(** * salvage-json-from-csv: the extractor and validator of [main.py]

    A shallow embedding of [extract_single_row], [extract_all_rows] and
    [validate_json_file], with the properties their specification states.

    - A Python [str] is a list of code points ([char := N]); [len] is
      [length], slicing [s[:1000]] is [firstn 1000 s], [+] is [++].
    - Python integers are [Z].
    - The functions run in a small monad [M] over a [world] made of the file
      system and the console; an exception leaves the world as it was when it
      was raised, which is what [try]/[except] observes.
    - [json.loads], [csv.reader] (with the sniffed dialect) and [pathlib] are
      library code: the program is written against the interface [Runtime].
      [JSON.loads] is a model of CPython's decoder, used where a statement is
      about a concrete document. *)

From Stdlib Require Import Ascii String.
From Stdlib Require Import List Bool Arith NArith ZArith Lia.
Import ListNotations.

(* ================================================================= *)
(** ** Text *)

Module Text.

Definition char := N.
Definition str := list char.

Definition ch (a : ascii) : char := N_of_ascii a.

(** A literal of the source, as a [str]. *)
Definition lit (s : string) : str := map ch (list_ascii_of_string s).

Definition DQUOTE : char := 34%N.
Definition BACKSLASH : char := 92%N.

Fixpoint str_eqb (a b : str) : bool :=
  match a, b with
  | [], [] => true
  | x :: a', y :: b' => N.eqb x y && str_eqb a' b'
  | _, _ => false
  end.

(** [c in s] for a one-character [c]. *)
Definition char_in (c : char) (s : str) : bool := existsb (N.eqb c) s.

(** [str.isspace] on one code point (CPython's [_PyUnicode_IsWhitespace]). *)
Definition isspace (c : char) : bool :=
  (((9 <=? c) && (c <=? 13)) || ((28 <=? c) && (c <=? 32))
   || (c =? 133) || (c =? 160) || (c =? 5760)
   || ((8192 <=? c) && (c <=? 8202))
   || (c =? 8232) || (c =? 8233) || (c =? 8239) || (c =? 8287)
   || (c =? 12288))%N.

Fixpoint lstrip (s : str) : str :=
  match s with
  | c :: t => if isspace c then lstrip t else s
  | [] => []
  end.

Definition rstrip (s : str) : str := rev (lstrip (rev s)).

(** [s.strip()] *)
Definition strip (s : str) : str := rstrip (lstrip s).

(** [s.startswith(c)] for a one-character prefix. *)
Definition startswith (s : str) (c : char) : bool :=
  match s with
  | x :: _ => N.eqb x c
  | [] => false
  end.

(** [s.count(c)] for a one-character [c]. *)
Definition count (s : str) (c : char) : Z := Z.of_nat (count_occ N.eq_dec s c).

Fixpoint uint_digits (u : Decimal.uint) : str :=
  match u with
  | Decimal.Nil => []
  | Decimal.D0 u' => 48%N :: uint_digits u'
  | Decimal.D1 u' => 49%N :: uint_digits u'
  | Decimal.D2 u' => 50%N :: uint_digits u'
  | Decimal.D3 u' => 51%N :: uint_digits u'
  | Decimal.D4 u' => 52%N :: uint_digits u'
  | Decimal.D5 u' => 53%N :: uint_digits u'
  | Decimal.D6 u' => 54%N :: uint_digits u'
  | Decimal.D7 u' => 55%N :: uint_digits u'
  | Decimal.D8 u' => 56%N :: uint_digits u'
  | Decimal.D9 u' => 57%N :: uint_digits u'
  end.

Definition zero_pad (width : nat) (digits : str) : str :=
  repeat 48%N (width - length digits) ++ digits.

(** [f"{n:03d}"]: the sign counts in the width. *)
Definition format_03d (n : Z) : str :=
  if (n <? 0)%Z
  then ch "-" :: zero_pad 2 (uint_digits (N.to_uint (Z.abs_N n)))
  else zero_pad 3 (uint_digits (N.to_uint (Z.abs_N n))).

End Text.

Import Text.

(** A parsed CSV record: its fields, in order. *)
Definition row := list str.

(** [max(row, key=len)] keeps the first item and replaces it only by an item
    whose key is strictly greater. *)
Fixpoint max_by_len (best : str) (rest : list str) : str :=
  match rest with
  | [] => best
  | f :: tl => if length best <? length f then max_by_len f tl
               else max_by_len best tl
  end.

(** [max(row, key=len) if row else ""] *)
Definition json_column_of (r : row) : str :=
  match r with
  | [] => []
  | f :: tl => max_by_len f tl
  end.

(* ================================================================= *)
(** ** Exceptions *)

Inductive json_error := Malformed | ExtraData.

Inductive exn :=
| JSONDecodeError (detail : json_error)
| RecursionError
| OSError (file : str)
| CsvError
| UnboundLocalError (name : string).

Inductive outcome (A : Type) :=
| Normal (a : A)
| Raised (e : exn).
Arguments Normal {A} a.
Arguments Raised {A} e.

(* ================================================================= *)
(** ** A model of CPython's JSON decoder

    Only whether a document decodes is modelled, not the decoded value.
    [scan_once], [parse_array] and [parse_object] follow the scanner of
    [_json.c]; they return the text left after the value.  Two limits of
    the interpreter are not modelled, the recursion limit and the number of
    digits of an integer: a text that meets one makes [json.loads] raise an
    exception that is not a decode error. *)

Module JSON.

Definition is_ws (c : char) : bool :=
  ((c =? 32) || (c =? 9) || (c =? 10) || (c =? 13))%N.

Definition is_digit (c : char) : bool := ((48 <=? c) && (c <=? 57))%N.

Definition is_hex (c : char) : bool :=
  (is_digit c || ((97 <=? c) && (c <=? 102)) || ((65 <=? c) && (c <=? 70)))%N.

(** The characters allowed after a backslash, [u] apart. *)
Definition is_escape (c : char) : bool := char_in c (DQUOTE :: lit "\/bfnrt").

Fixpoint skip_ws (s : str) : str :=
  match s with
  | c :: t => if is_ws c then skip_ws t else s
  | [] => []
  end.

Fixpoint skip_digits (s : str) : str :=
  match s with
  | c :: t => if is_digit c then skip_digits t else s
  | [] => []
  end.

(** [Some rest] when [s] is [p ++ rest]. *)
Fixpoint strip_prefix (p s : str) : option str :=
  match p, s with
  | [], _ => Some s
  | x :: p', y :: s' => if N.eqb x y then strip_prefix p' s' else None
  | _ :: _, [] => None
  end.

(** [scanstring], strict: [s] starts after the opening quote. *)
Fixpoint scanstring (s : str) : option str :=
  match s with
  | [] => None
  | c :: r =>
      if N.eqb c DQUOTE then Some r
      else if N.eqb c BACKSLASH then
        match r with
        | [] => None
        | e :: r' =>
            if N.eqb e (ch "u") then
              match r' with
              | h1 :: h2 :: h3 :: h4 :: r'' =>
                  if is_hex h1 && is_hex h2 && is_hex h3 && is_hex h4
                  then scanstring r'' else None
              | _ => None
              end
            else if is_escape e then scanstring r'
            else None
        end
      else if (c <? 32)%N then None
      else scanstring r
  end.

(** The integer part: an optional minus sign, then a single zero or a
    non-zero digit followed by digits. *)
Definition integer (s : str) : option str :=
  let s1 := match s with
            | c :: r => if N.eqb c (ch "-") then r else s
            | [] => s
            end in
  match s1 with
  | c :: r =>
      if ((49 <=? c) && (c <=? 57))%N then Some (skip_digits r)
      else if N.eqb c 48%N then Some r
      else None
  | [] => None
  end.

(** The optional fraction: a dot and at least one digit. *)
Definition fraction (r : str) : str :=
  match r with
  | p :: d :: r' => if N.eqb p (ch ".") && is_digit d then skip_digits r' else r
  | _ => r
  end.

(** The optional exponent: e or E, an optional sign, at least one digit;
    nothing is consumed when the digits are missing. *)
Definition exponent (r : str) : str :=
  match r with
  | e :: r1 =>
      if N.eqb e (ch "e") || N.eqb e (ch "E") then
        let r2 := match r1 with
                  | sg :: x => if N.eqb sg (ch "-") || N.eqb sg (ch "+")
                               then x else r1
                  | [] => r1
                  end in
        match r2 with
        | d :: r3 => if is_digit d then skip_digits r3 else r
        | [] => r
        end
      else r
  | [] => r
  end.

Definition match_number (s : str) : option str :=
  match integer s with
  | Some r => Some (exponent (fraction r))
  | None => None
  end.

Definition constants : list str :=
  [lit "null"; lit "true"; lit "false"; lit "NaN"; lit "Infinity";
   lit "-Infinity"].

Fixpoint match_constant (cs : list str) (s : str) : option str :=
  match cs with
  | [] => None
  | k :: cs' => match strip_prefix k s with
                | Some r => Some r
                | None => match_constant cs' s
                end
  end.

(** A value that is neither a string, an object nor an array. *)
Definition scan_atom (s : str) : option str :=
  match match_constant constants s with
  | Some r => Some r
  | None => match_number s
  end.

Fixpoint scan_once (fuel : nat) (s : str) {struct fuel} : option str :=
  match fuel with
  | O => None
  | S f =>
      match s with
      | [] => None
      | c :: r =>
          if N.eqb c DQUOTE then scanstring r
          else if N.eqb c (ch "{") then
            match skip_ws r with
            | d :: r1 => if N.eqb d (ch "}") then Some r1
                         else parse_object f (d :: r1)
            | [] => None
            end
          else if N.eqb c (ch "[") then
            match skip_ws r with
            | d :: r1 => if N.eqb d (ch "]") then Some r1
                         else parse_array f (d :: r1)
            | [] => None
            end
          else scan_atom s
      end
  end

(** The members of a non-empty object, from the first key on. *)
with parse_object (fuel : nat) (s : str) {struct fuel} : option str :=
  match fuel with
  | O => None
  | S f =>
      match s with
      | q :: r =>
          if N.eqb q DQUOTE then
            match scanstring r with
            | Some r1 =>
                match skip_ws r1 with
                | col :: r2 =>
                    if N.eqb col (ch ":") then
                      match scan_once f (skip_ws r2) with
                      | Some r3 =>
                          match skip_ws r3 with
                          | d :: r4 =>
                              if N.eqb d (ch "}") then Some r4
                              else if N.eqb d (ch ",")
                              then parse_object f (skip_ws r4)
                              else None
                          | [] => None
                          end
                      | None => None
                      end
                    else None
                | [] => None
                end
            | None => None
            end
          else None
      | [] => None
      end
  end

(** The elements of a non-empty array, from the first one on. *)
with parse_array (fuel : nat) (s : str) {struct fuel} : option str :=
  match fuel with
  | O => None
  | S f =>
      match scan_once f s with
      | Some r1 =>
          match skip_ws r1 with
          | d :: r2 =>
              if N.eqb d (ch "]") then Some r2
              else if N.eqb d (ch ",") then parse_array f (skip_ws r2)
              else None
          | [] => None
          end
      | None => None
      end
  end.

(** Every call consumes a character or is followed by one that does, so
    twice the length is fuel enough (see [loads_fuel]). *)
Definition fuel_for (s : str) : nat := 2 * length s + 2.

(** [json.loads(s)]: a value, then only whitespace. *)
Definition loads (s : str) : outcome unit :=
  match scan_once (fuel_for s) (skip_ws s) with
  | None => Raised (JSONDecodeError Malformed)
  | Some rest =>
      match skip_ws rest with
      | [] => Normal tt
      | _ :: _ => Raised (JSONDecodeError ExtraData)
      end
  end.

End JSON.

(* ================================================================= *)
(** ** The world: files and console *)

Definition path := str.

(** What [open] finds at a path.  A file holds text: encoding and decoding
    are not modelled.  [Locked] stands for anything that cannot be opened,
    for reading or for writing (a directory, a file the process has no
    rights on): [open] raises [OSError] there. *)
Inductive entry :=
| Absent
| Regular (content : str)
| Locked.

Definition filesystem := path -> entry.

(** The lines the program prints, one constructor per [print] of the three
    functions, with the values its f-string shows. *)
Inductive message :=
| MsgExtractingRow (row_number : Z)
| MsgRule
| MsgRowIsEmpty (row_number : Z)
| MsgNoDataFound (row_number : Z)
| MsgFoundData (chars : nat)
| MsgSaved (output_path : path)
| MsgStructureAppearsValid
| MsgMightNotBeJson
| MsgValidationFailed
| MsgFileOnlyHas (rows : Z) (row_number : Z)
| MsgErrorExtractingRow (e : exn)
| MsgExtractingAll
| MsgRowEmptySkipping (row_number : Z)
| MsgNoSignificantData (row_number : Z)
| MsgRowWritten (row_number : Z) (chars : nat) (name : str)
| MsgValidStructure
| MsgMayNotBeValid
| MsgExtracted (extracted_count : Z)
| MsgSkipped (skipped_count : Z)
| MsgErrorExtractingRows (e : exn)
| MsgValidating (json_file : path)
| MsgFileIsEmpty
| MsgBadStart (first_char : char)
| MsgBadEnd (last_char : char)
| MsgValidJson
| MsgParseError (e : json_error)
| MsgUnmatchedBraces (open_braces : Z)
| MsgUnmatchedBrackets (open_brackets : Z)
| MsgErrorReadingFile (e : exn).

Record world := World { files : filesystem; console : list message }.

(** A computation: it ends normally or by an exception, in a new world. *)
Definition M (A : Type) := world -> outcome A * world.

Definition ret {A} (a : A) : M A := fun w => (Normal a, w).

Definition bind {A B} (m : M A) (k : A -> M B) : M B :=
  fun w => match m w with
           | (Normal a, w') => k a w'
           | (Raised e, w') => (Raised e, w')
           end.

Definition raise {A} (e : exn) : M A := fun w => (Raised e, w).

(** [try: body except Exception as e: handler e] *)
Definition try_except {A} (body : M A) (handler : exn -> M A) : M A :=
  fun w => match body w with
           | (Normal a, w') => (Normal a, w')
           | (Raised e, w') => handler e w'
           end.

(** [try: body except json.JSONDecodeError as e: handler e]: any other
    exception goes on to the enclosing handler. *)
Definition try_except_decode {A} (body : M A) (handler : json_error -> M A)
  : M A :=
  fun w => match body w with
           | (Raised (JSONDecodeError d), w') => handler d w'
           | r => r
           end.

Declare Scope io_scope.
Delimit Scope io_scope with io.
Notation "x <- m ;; k" := (bind m (fun x => k))
  (at level 61, m at next level, right associativity) : io_scope.
Notation "m ;; k" := (bind m (fun _ => k))
  (at level 61, right associativity) : io_scope.
Local Open Scope io_scope.

Definition print (m : message) : M unit :=
  fun w => (Normal tt, World (files w) (console w ++ [m])).

Definition update (fs : filesystem) (p : path) (e : entry) : filesystem :=
  fun q => if str_eqb q p then e else fs q.

(** [with open(p, 'r') as f: f.read()] *)
Definition read_text (p : path) : M str :=
  fun w => match files w p with
           | Regular content => (Normal content, w)
           | _ => (Raised (OSError p), w)
           end.

(** [with open(p, 'w') as out: out.write(text)] *)
Definition write_text (p : path) (text : str) : M unit :=
  fun w => match files w p with
           | Locked => (Raised (OSError p), w)
           | _ => (Normal tt, World (update (files w) p (Regular text)) (console w))
           end.

(** The world after more lines were printed. *)
Definition log (w : world) (ms : list message) : world :=
  World (files w) (console w ++ ms).

(** A result the caller may raise on. *)
Definition lift {A} (r : outcome A) : M A := fun w => (r, w).

Definition when (b : bool) (m : M unit) : M unit := if b then m else ret tt.

(* ================================================================= *)
(** ** The libraries the program calls *)

(** What iterating a [csv.reader] does: it yields a record, stops, or
    raises. *)
Inductive reader :=
| Done
| Yield (r : row) (rest : reader)
| Raise (e : exn).

Class Runtime := {
  (** [json.loads]: returns, or raises *)
  json_loads : str -> outcome unit;
  (** the records of a file's text: dialect sniffing and [csv.reader].  The
      text is the one the file has when it is opened: the output files are
      taken to be other files than the input. *)
  csv_reader : str -> reader;
  (** [Path(p).parent] *)
  path_parent : path -> path;
  (** [Path(p).stem] *)
  path_stem : path -> str;
  (** [dir / name] *)
  path_join : path -> str -> path
}.

(** The number of records a reader yields. *)
Fixpoint records (rd : reader) : nat :=
  match rd with
  | Yield _ rest => S (records rest)
  | _ => 0
  end.

(** The exception that ends the iteration, if one does. *)
Fixpoint failure (rd : reader) : option exn :=
  match rd with
  | Done => None
  | Yield _ rest => failure rest
  | Raise e => Some e
  end.

(** The records, in order. *)
Fixpoint rows_of (rd : reader) : list row :=
  match rd with
  | Yield r rest => r :: rows_of rest
  | _ => []
  end.

(* ================================================================= *)
(** ** The program *)

Section Program.

Context {RT : Runtime}.

(** [s.strip().startswith('[') or s.strip().startswith('{')] *)
Definition looks_like_json (s : str) : bool :=
  startswith (strip s) (ch "[") || startswith (strip s) (ch "{").

(** The text handed to [json.loads] by the quick check: the first 1000
    characters and a closing character. *)
Definition test_sample (json_column : str) : str :=
  firstn 1000 json_column
  ++ (if startswith (strip json_column) (ch "[") then lit "]" else lit "}").

(** The quick validation of [extract_single_row]. *)
Definition quick_validation (json_column : str) : M unit :=
  try_except
    (if looks_like_json json_column
     then lift (json_loads (test_sample json_column));;
          print MsgStructureAppearsValid
     else print MsgMightNotBeJson)
    (fun _ => print MsgValidationFailed).

(** The body of the loop of [extract_single_row] at the target row. *)
Definition extract_target (output_path : path) (row_number : Z) (r : row)
  : M bool :=
  match r with
  | [] => print (MsgRowIsEmpty row_number);; ret false
  | _ :: _ =>
      let json_column := json_column_of r in
      match json_column with
      | [] => print (MsgNoDataFound row_number);; ret false
      | _ :: _ =>
          print (MsgFoundData (length json_column));;
          write_text output_path json_column;;
          print (MsgSaved output_path);;
          quick_validation json_column;;
          ret true
      end
  end.

(** [for current_row_num, row in enumerate(reader, 1)] and the two lines
    after it.  [current_row_num] is the variable as the loop leaves it:
    [None] while nothing was assigned to it; [next] is the number
    [enumerate] gives to the next record. *)
Fixpoint single_row_loop (output_path : path) (row_number : Z) (rd : reader)
    (current_row_num : option Z) (next : Z) : M bool :=
  match rd with
  | Yield r rest =>
      if (next =? row_number)%Z
      then extract_target output_path row_number r
      else single_row_loop output_path row_number rest (Some next) (next + 1)
  | Done =>
      match current_row_num with
      | Some n => print (MsgFileOnlyHas n row_number);; ret false
      | None => raise (UnboundLocalError "current_row_num")
      end
  | Raise e => raise e
  end.

(** What [extract_single_row] tries. *)
Definition single_row_attempt (file_path output_path : path) (row_number : Z)
  : M bool :=
  text <- read_text file_path;;
  single_row_loop output_path row_number (csv_reader text) None 1.

Definition extract_single_row (file_path output_path : path) (row_number : Z)
  : M bool :=
  print (MsgExtractingRow row_number);;
  print MsgRule;;
  try_except
    (single_row_attempt file_path output_path row_number)
    (fun e => print (MsgErrorExtractingRow e);; ret false).

(** [is_valid] of [extract_all_rows]. *)
Definition is_valid (json_column : str) : bool :=
  if looks_like_json json_column
  then match json_loads (test_sample json_column) with
       | Normal _ => true
       | Raised _ => false
       end
  else false.

(** [not json_column or len(json_column.strip()) < 2] *)
Definition insignificant (json_column : str) : bool :=
  match json_column with
  | [] => true
  | _ :: _ => length (strip json_column) <? 2
  end.

(** The rows [extract_all_rows] skips: no field, or a longest field that is
    empty or too short. *)
Definition skipped (r : row) : bool :=
  match r with
  | [] => true
  | _ :: _ => insignificant (json_column_of r)
  end.

(** [f"{base_name}_row_{row_number:03d}.json"] *)
Definition row_file_name (base_name : str) (row_number : Z) : str :=
  base_name ++ lit "_row_" ++ format_03d row_number ++ lit ".json".

(** The body of the loop of [extract_all_rows]; [counts] is
    [(extracted_count, skipped_count)]. *)
Definition all_rows_body (output_dir : path) (base_name : str)
    (row_number : Z) (r : row) (counts : Z * Z) : M (Z * Z) :=
  let (extracted_count, skipped_count) := counts in
  match r with
  | [] =>
      print (MsgRowEmptySkipping row_number);;
      ret (extracted_count, (skipped_count + 1)%Z)
  | _ :: _ =>
      let json_column := json_column_of r in
      if insignificant json_column then
        print (MsgNoSignificantData row_number);;
        ret (extracted_count, (skipped_count + 1)%Z)
      else
        let name := row_file_name base_name row_number in
        let output_file := path_join output_dir name in
        write_text output_file json_column;;
        print (MsgRowWritten row_number (length json_column) name);;
        print (if is_valid json_column then MsgValidStructure
               else MsgMayNotBeValid);;
        ret ((extracted_count + 1)%Z, skipped_count)
  end.

(** [for row_number, row in enumerate(reader, 1)] *)
Fixpoint all_rows_loop (output_dir : path) (base_name : str) (rd : reader)
    (row_number : Z) (counts : Z * Z) : M (Z * Z) :=
  match rd with
  | Yield r rest =>
      counts' <- all_rows_body output_dir base_name row_number r counts;;
      all_rows_loop output_dir base_name rest (row_number + 1) counts'
  | Done => ret counts
  | Raise e => raise e
  end.

(** What [extract_all_rows] tries, up to the end of the loop. *)
Definition all_rows_attempt (file_path output_prefix : path) : M (Z * Z) :=
  text <- read_text file_path;;
  all_rows_loop (path_parent output_prefix) (path_stem output_prefix)
    (csv_reader text) 1 (0%Z, 0%Z).

Definition extract_all_rows (file_path output_prefix : path) : M bool :=
  print MsgExtractingAll;;
  print MsgRule;;
  try_except
    (counts <- all_rows_attempt file_path output_prefix;;
     let (extracted_count, skipped_count) := counts in
     print MsgRule;;
     print (MsgExtracted extracted_count);;
     when (0 <? skipped_count)%Z (print (MsgSkipped skipped_count));;
     ret (0 <? extracted_count)%Z)
    (fun e => print (MsgErrorExtractingRows e);; ret false).

(** The parse of [validate_json_file] and what follows it. *)
Definition full_parse (content : str) : M bool :=
  try_except_decode
    (lift (json_loads content);;
     print MsgValidJson;;
     ret true)
    (fun e =>
       print (MsgParseError e);;
       let open_braces := (count content (ch "{") - count content (ch "}"))%Z in
       let open_brackets := (count content (ch "[") - count content (ch "]"))%Z in
       when (negb (open_braces =? 0)%Z) (print (MsgUnmatchedBraces open_braces));;
       when (negb (open_brackets =? 0)%Z)
         (print (MsgUnmatchedBrackets open_brackets));;
       ret false).

Definition validate_json_file (json_file : path) : M bool :=
  print (MsgValidating json_file);;
  try_except
    (content <- read_text json_file;;
     match strip content with
     | [] => print MsgFileIsEmpty;; ret false
     | first_char :: _ =>
         let last_char := last (strip content) first_char in
         if negb (char_in first_char (lit "[{")) then
           print (MsgBadStart first_char);; ret false
         else
           when (negb (char_in last_char (lit "]}")))
             (print (MsgBadEnd last_char));;
           full_parse content
     end)
    (fun e => print (MsgErrorReadingFile e);; ret false).

End Program.

(* ================================================================= *)
(** ** A concrete runtime, for the examples *)

(** The text before and after the last [c] of [s]. *)
Fixpoint split_last (c : char) (s : str) : option (str * str) :=
  match s with
  | [] => None
  | x :: t =>
      match split_last c t with
      | Some (a, b) => Some (x :: a, b)
      | None => if N.eqb x c then Some ([], t) else None
      end
  end.

(** A simplified [pathlib]: relative POSIX paths without [.] or [..]. *)
Definition posix_parent (p : path) : path :=
  match split_last (ch "/") p with
  | Some (d, _) => d
  | None => lit "."
  end.

Definition posix_stem (p : path) : str :=
  let name := match split_last (ch "/") p with
              | Some (_, n) => n
              | None => p
              end in
  match split_last (ch ".") name with
  | Some ((_ :: _) as s, _) => s
  | _ => name
  end.

Definition posix_join (d : path) (name : str) : path :=
  if str_eqb d (lit ".") then name else d ++ lit "/" ++ name.

(** CPython's decoder, with the records of every file given by [rd]. *)
Definition cpython (rd : str -> reader) : Runtime :=
  {| json_loads := JSON.loads;
     csv_reader := rd;
     path_parent := posix_parent;
     path_stem := posix_stem;
     path_join := posix_join |}.

(** A reader that yields the given records and stops. *)
Fixpoint reader_of (rows : list row) : reader :=
  match rows with
  | [] => Done
  | r :: rows' => Yield r (reader_of rows')
  end.

(** A file system with one input file. *)
Definition only_file (p : path) (text : str) : filesystem :=
  update (fun _ => Absent) p (Regular text).

Definition quoted (s : str) : str := DQUOTE :: s ++ [DQUOTE].

(** [f] is the field of [r] at index [i], no field of [r] is longer, and
    every field before it is strictly shorter. *)
Definition first_longest (r : row) (i : nat) (f : str) : Prop :=
  nth_error r i = Some f
  /\ (forall j g, nth_error r j = Some g -> length g <= length f)
  /\ (forall j g, j < i -> nth_error r j = Some g -> length g < length f).

(** A closing bracket or brace. *)
Definition closer (c : char) : Prop := c = ch "]" \/ c = ch "}".

(** ** Inputs of the examples *)

Definition in_csv : path := lit "in.csv".
Definition out_json : path := lit "out.json".

(** A world whose only file is the input, with nothing printed yet.  The
    records of the input are those of the runtime in use. *)
Definition start : world := World (only_file in_csv (lit "csv")) [].

(** Three fields, the last two of the same, greatest length. *)
Definition tie_row : row := [lit "7"; lit "[1,2]"; lit "[3,4]"].

(** One good record, then an error of the CSV reader. *)
Definition broken_reader : reader := Yield [lit "[1,2]"] (Raise CsvError).

(** A record with one field, made of two spaces. *)
Definition blank_row : row := [lit "  "].

(** Records of every kind: extracted, without field, too short. *)
Definition mixed_rows : list row := [tie_row; []; [lit " "]].

(** The text of an object that is not closed: an opening brace, the key
    [a] between double quotes, a colon, a space and the digit 1. *)
Definition unclosed_object : str := lit "{" ++ quoted (lit "a") ++ lit ": 1".

(** A world whose only file is [out_json], holding [content]. *)
Definition written (content : str) : world :=
  World (only_file out_json content) [].

(** The number of opening brackets a text begins with. *)
Fixpoint opening (s : str) : nat :=
  match s with
  | c :: t => if N.eqb c (ch "[") then S (opening t) else 0
  | [] => 0
  end.

(** [sys.getrecursionlimit()], unless it was changed. *)
Definition recursion_limit : nat := 1000.

(** CPython's decoder under the limit of the interpreter on nested calls.
    The scanner calls itself for every array it enters, so a text that
    begins with [recursion_limit] opening brackets or more is given up
    with [RecursionError] before its end is reached.  Nesting that begins
    further in the text is not counted: there the decoder is the one
    above, which has no limit. *)
Definition loads_limited (s : str) : outcome unit :=
  if recursion_limit <=? opening s then Raised RecursionError
  else JSON.loads s.

Definition cpython_limited (rd : str -> reader) : Runtime :=
  {| json_loads := loads_limited;
     csv_reader := rd;
     path_parent := posix_parent;
     path_stem := posix_stem;
     path_join := posix_join |}.

(** A hundred thousand opening brackets. *)
Definition deep_array : str := repeat (ch "[") (N.to_nat 100000).

(** ** Tactics *)

(** Arithmetic on lengths, whatever the name of the type of characters. *)
Ltac lens := unfold str, char in *; cbn [length] in *; lia.

(** Equations between texts, whatever the name of the type of characters. *)
Ltac texts := unfold str, char in *; congruence.

From Stdlib Require Import DecimalN.

(* ================================================================= *)
(** ** More of the extractors *)

Section Targets.

Context {RT : Runtime}.

(** The files the loop of [extract_all_rows] opens for writing: the one of
    each record it does not skip, in order. *)
Fixpoint targets (output_dir : path) (base_name : str) (rd : reader)
    (row_number : Z) : list path :=
  match rd with
  | Yield r rest =>
      if skipped r
      then targets output_dir base_name rest (row_number + 1)
      else path_join output_dir (row_file_name base_name row_number)
           :: targets output_dir base_name rest (row_number + 1)
  | _ => []
  end.

End Targets.

(** The number a text of decimal digits denotes; the text stops at the
    first character that is not a digit. *)
Fixpoint digits_uint (s : str) : Decimal.uint :=
  match s with
  | [] => Decimal.Nil
  | c :: t =>
      if N.eqb c 48 then Decimal.D0 (digits_uint t)
      else if N.eqb c 49 then Decimal.D1 (digits_uint t)
      else if N.eqb c 50 then Decimal.D2 (digits_uint t)
      else if N.eqb c 51 then Decimal.D3 (digits_uint t)
      else if N.eqb c 52 then Decimal.D4 (digits_uint t)
      else if N.eqb c 53 then Decimal.D5 (digits_uint t)
      else if N.eqb c 54 then Decimal.D6 (digits_uint t)
      else if N.eqb c 55 then Decimal.D7 (digits_uint t)
      else if N.eqb c 56 then Decimal.D8 (digits_uint t)
      else if N.eqb c 57 then Decimal.D9 (digits_uint t)
      else Decimal.Nil
  end.

Definition read_decimal (s : str) : N := N.of_uint (digits_uint s).

(* ================================================================= *)
(** ** The command: [analyze_csv_structure] and [main] *)

(** [f.readlines()], on a text whose line ends are already the newline
    character, as a text stream gives it: every line keeps its newline, and
    the last line may have none. *)
Fixpoint readlines (text : str) : list str :=
  match text with
  | [] => []
  | c :: t =>
      if N.eqb c 10 then [c] :: readlines t
      else match readlines t with
           | [] => [[c]]
           | l :: ls => (c :: l) :: ls
           end
  end.

(** [s[:k]]: a negative [k] counts from the end. *)
Definition slice_to (k : Z) (s : str) : str :=
  if (k <? 0)%Z then firstn (length s - Z.to_nat (- k)) s
  else firstn (Z.to_nat k) s.

(** The lines of the terminal: those of the three functions above, and one
    constructor per [print] of [analyze_csv_structure] and [main]. *)
Inductive line :=
| Said (m : message)
| LineAnalyzing
| LineDoubleRule
| LineTotalLines (lines : nat)
| LineChars (i : Z) (chars : nat)
| LinePreviewCut (text : str)
| LinePreview (text : str)
| LineMoreLines (more : Z)
| LineUsage
| LineUsageRow
| LineUsageAll
| LineBlank
| LineExamples
| LineExampleRow
| LineExampleAll
| LineNote
| LineNotFound (input_file : path)
| LineMustBePositive
| LineOutOfRange (row_number total_lines : Z)
| LineBlankDoubleRule
| LineComplete
| LineNextSteps
| LineStepView (output_path : path)
| LineStepValidate (output_path : path)
| LineStepFix (output_path : path)
| LineNotANumber (argument : str)
| LineNoRowNumber
| LineCreated (output_dir : path)
| LineToValidate
| LineLoopFor (output_pattern : path)
| LineLoopEcho
| LineLoopCheck
| LineLoopDone.

Record session := Session { disk : filesystem; terminal : list line }.

(** What [main] can see raised: an exception of the functions above, or
    the [ValueError] of [int]. *)
Inductive raised :=
| Lib (e : exn)
| ValueError (text : str).

(** How a part of the command ends: it returns, [sys.exit] is called, or
    an exception is left uncaught. *)
Inductive ending (A : Type) :=
| Returned (a : A)
| Exited (status : Z)
| Uncaught (e : raised).
Arguments Returned {A} a.
Arguments Exited {A} status.
Arguments Uncaught {A} e.

Definition P (A : Type) := session -> ending A * session.

Definition done {A} (a : A) : P A := fun s => (Returned a, s).

Definition and_then {A B} (m : P A) (k : A -> P B) : P B :=
  fun s => match m s with
           | (Returned a, s') => k a s'
           | (Exited status, s') => (Exited status, s')
           | (Uncaught e, s') => (Uncaught e, s')
           end.

(** [sys.exit(status)] *)
Definition sys_exit {A} (status : Z) : P A := fun s => (Exited status, s).

Definition say (l : line) : P unit :=
  fun s => (Returned tt, Session (disk s) (terminal s ++ [l])).

(** A call of one of the three functions above: it prints on the same
    terminal and works on the same files. *)
Definition call {A} (m : M A) : P A :=
  fun s =>
    let (r, w) := m (World (disk s) []) in
    (match r with
     | Normal a => Returned a
     | Raised e => Uncaught (Lib e)
     end,
     Session (files w) (terminal s ++ map Said (console w))).

(** [try: body except ValueError: handler]; [json.JSONDecodeError] is a
    [ValueError]. *)
Definition try_except_value_error {A} (body handler : P A) : P A :=
  fun s => match body s with
           | (Uncaught (ValueError _), s') => handler s'
           | (Uncaught (Lib (JSONDecodeError _)), s') => handler s'
           | r => r
           end.

(** [Path(p).exists()] *)
Definition path_exists (p : path) : P bool :=
  fun s => (Returned match disk s p with
                     | Absent => false
                     | _ => true
                     end, s).

(** The status the interpreter ends with. *)
Definition exit_status {A} (e : ending A) : Z :=
  match e with
  | Returned _ => 0
  | Exited status => status
  | Uncaught _ => 1
  end.

(** What else [main] calls. *)
Class Host := {
  (** [int(s)]: [None] when it raises [ValueError] *)
  int_of : str -> option Z;
  (** [Path(p).mkdir(parents=True, exist_ok=True)]: how it ends, and the
      file system it leaves.  It makes the missing parents first, so that
      one that raises may leave some of them made. *)
  mkdir_parents : filesystem -> path -> outcome unit * filesystem
}.

Section Command.

Context {RT : Runtime} {HT : Host}.

Declare Scope cmd_scope.
Delimit Scope cmd_scope with cmd.
Notation "x <- m ;; k" := (and_then m (fun x => k))
  (at level 61, m at next level, right associativity) : cmd_scope.
Notation "m ;; k" := (and_then m (fun _ => k))
  (at level 61, right associativity) : cmd_scope.
Local Open Scope cmd_scope.

(** [with open(file_path, 'r', ...) as f: lines = f.readlines()] *)
Definition read_lines (file_path : path) : P (list str) :=
  fun s => match disk s file_path with
           | Regular text => (Returned (readlines text), s)
           | _ => (Uncaught (Lib (OSError file_path)), s)
           end.

(** [for i, line in enumerate(..., 1)] of [analyze_csv_structure] *)
Fixpoint preview (show_chars : Z) (lines : list str) (i : Z) : P unit :=
  match lines with
  | [] => done tt
  | line :: rest =>
      say (LineChars i (length line));;
      (if (show_chars <? Z.of_nat (length line))%Z
       then say (LinePreviewCut (slice_to show_chars line))
       else say (LinePreview (strip line)));;
      preview show_chars rest (i + 1)
  end.

Definition analyze_csv_structure (file_path : path) (show_chars : Z) : P Z :=
  say LineAnalyzing;;
  say LineDoubleRule;;
  lines <- read_lines file_path;;
  say (LineTotalLines (length lines));;
  preview show_chars (firstn (Nat.min 10 (length lines)) lines) 1;;
  (if 10 <? length lines
   then say (LineMoreLines (Z.of_nat (length lines) - 10))
   else done tt);;
  done (Z.of_nat (length lines)).

(** [int(text)] *)
Definition int (text : str) : P Z :=
  fun s => match int_of text with
           | Some z => (Returned z, s)
           | None => (Uncaught (ValueError text), s)
           end.

(** [output_dir.mkdir(parents=True, exist_ok=True)] *)
Definition mkdir (output_dir : path) : P unit :=
  fun s => match mkdir_parents (disk s) output_dir with
           | (Normal _, fs) => (Returned tt, Session fs (terminal s))
           | (Raised e, fs) => (Uncaught (Lib e), Session fs (terminal s))
           end.

(** [if success: ... else: sys.exit(1)] after [extract_single_row] *)
Definition single_row_done (output_path : path) (success : bool) : P unit :=
  if success then
    say LineBlankDoubleRule;;
    say LineComplete;;
    call (validate_json_file output_path);;
    say LineNextSteps;;
    say (LineStepView output_path);;
    say (LineStepValidate output_path);;
    say (LineStepFix output_path)
  else sys_exit 1.

(** The branch of [main] for a row number, from the [try] on. *)
Definition row_mode (input_file output_path : path) (argument : str)
    (total_lines : Z) : P unit :=
  try_except_value_error
    (row_number <- int argument;;
     if (row_number <? 1)%Z then
       say LineMustBePositive;; sys_exit 1
     else if (total_lines <? row_number)%Z then
       say (LineOutOfRange row_number total_lines);; sys_exit 1
     else
       success <- call (extract_single_row input_file output_path row_number);;
       single_row_done output_path success)
    (say (LineNotANumber argument);; sys_exit 1).

(** [if success: ... else: sys.exit(1)] after [extract_all_rows] *)
Definition all_rows_done (output_path : path) (success : bool) : P unit :=
  if success then
    say LineBlankDoubleRule;;
    say LineComplete;;
    say LineToValidate;;
    let base_name := path_stem output_path in
    let output_pattern :=
      path_join (path_parent output_path) (base_name ++ lit "_row_*.json") in
    say (LineLoopFor output_pattern);;
    say LineLoopEcho;;
    say LineLoopCheck;;
    say LineLoopDone
  else sys_exit 1.

(** The branch of [main] without row number. *)
Definition all_mode (input_file output_path : path) : P unit :=
  say LineNoRowNumber;;
  let output_dir := path_parent output_path in
  dir_found <- path_exists output_dir;;
  (if negb dir_found
   then mkdir output_dir;; say (LineCreated output_dir)
   else done tt);;
  success <- call (extract_all_rows input_file output_path);;
  all_rows_done output_path success.

(** [main()], with [sys.argv] as argument. *)
Definition main (argv : list str) : P unit :=
  if length argv <? 3 then
    say LineUsage;; say LineUsageRow;; say LineUsageAll;; say LineBlank;;
    say LineExamples;; say LineExampleRow;; say LineExampleAll;;
    say LineBlank;; say LineNote;;
    sys_exit 1
  else
    let input_file := nth 1 argv [] in
    let output_path := nth 2 argv [] in
    found <- path_exists input_file;;
    if negb found then
      say (LineNotFound input_file);; sys_exit 1
    else
      total_lines <- analyze_csv_structure input_file 500;;
      say LineDoubleRule;;
      if 3 <? length argv
      then row_mode input_file output_path (nth 3 argv []) total_lines
      else all_mode input_file output_path.

End Command.

(** A host for the examples: [int] on an optional minus sign followed by
    decimal digits only, and a [mkdir] that always succeeds. *)
Definition all_digits (s : str) : bool :=
  match s with
  | [] => false
  | _ :: _ => forallb JSON.is_digit s
  end.

Definition decimal_int (s : str) : option Z :=
  match s with
  | c :: t =>
      if N.eqb c (ch "-")
      then if all_digits t then Some (- Z.of_N (read_decimal t))%Z else None
      else if all_digits s then Some (Z.of_N (read_decimal s)) else None
  | [] => None
  end.

Definition plain_host : Host :=
  {| int_of := decimal_int;
     mkdir_parents := fun fs p => (Normal tt, update fs p Locked) |}.

(** A host whose [mkdir] makes the parent of the directory when it is
    missing, and then raises when the name of the directory has more than
    255 characters, as the file systems of Linux do. *)
Definition name_of (p : path) : str :=
  match split_last (ch "/") p with
  | Some (_, name) => name
  | None => p
  end.

Definition mkdir_limited (fs : filesystem) (p : path)
  : outcome unit * filesystem :=
  let fs' := match fs (posix_parent p) with
             | Absent => update fs (posix_parent p) Locked
             | _ => fs
             end in
  if 255 <? length (name_of p) then (Raised (OSError p), fs')
  else (Normal tt, update fs' p Locked).

Definition limited_host : Host :=
  {| int_of := decimal_int; mkdir_parents := mkdir_limited |}.

(** The session of a command started on the files of [start]. *)
Definition boot (text : str) : session :=
  Session (only_file in_csv text) [].

Definition argv_of (args : list string) : list str := map lit args.

(** The session after more lines were printed. *)
Definition tell (s : session) (ls : list line) : session :=
  Session (disk s) (terminal s ++ ls).

(** The two lines [analyze_csv_structure] prints for each line it shows. *)
Fixpoint preview_output (show_chars : Z) (lines : list str) (i : Z)
  : list line :=
  match lines with
  | [] => []
  | line :: rest =>
      LineChars i (length line)
      :: (if (show_chars <? Z.of_nat (length line))%Z
          then LinePreviewCut (slice_to show_chars line)
          else LinePreview (strip line))
      :: preview_output show_chars rest (i + 1)
  end.

(** The lines of the three functions above, in a terminal. *)
Definition is_said (l : line) : bool :=
  match l with
  | Said _ => true
  | _ => false
  end.

(** The arguments and files on which [main] stops before any extraction:
    too few arguments, no input file, or a row number that is not an
    integer, is less than one or is more than the number of lines. *)
Definition rejected {HT : Host} (argv : list str) (s : session) : Prop :=
  length argv < 3
  \/ disk s (nth 1 argv []) = Absent
  \/ (3 < length argv
      /\ exists text,
          disk s (nth 1 argv []) = Regular text
          /\ match int_of (nth 3 argv []) with
             | None => True
             | Some n => (n < 1 \/ Z.of_nat (length (readlines text)) < n)%Z
             end).

(** A session whose input file cannot be opened. *)
Definition boot_locked : session :=
  Session (update (fun _ => Absent) in_csv Locked) [].

(** Two lines of text. *)
Definition two_lines : str := lit "a,b" ++ [10%N] ++ lit "c,d" ++ [10%N].

(** The arguments of the examples: the script, the input, the output and,
    for one row, its number. *)
Definition argv_row (number : string) : list str :=
  [lit "extract_json.py"; in_csv; out_json; lit number].

Definition argv_all : list str :=
  [lit "extract_json.py"; in_csv; lit "out/data"].

(** An output in a directory with a name of 300 characters, in [out]. *)
Definition long_name : str := repeat (ch "a") 300.

Definition argv_long : list str :=
  [lit "extract_json.py"; in_csv; lit "out/" ++ long_name ++ lit "/data"].

(** The runtime of the examples: the decoder above, and a reader that
    gives the records of [mixed_rows] for every text. *)
Definition mixed_runtime : Runtime := cpython (fun _ => reader_of mixed_rows).

(* ================================================================= *)
(** * Properties *)

(** ** Selection of the JSON column *)

Lemma max_by_len_first_longest (rest : list str) :
  forall best, exists i, first_longest (best :: rest) i (max_by_len best rest).
Proof.
  induction rest as [|f tl IH]; intros best; simpl.
  - exists 0. repeat split.
    + intros [|j] g Hg; simpl in Hg.
      * now inversion Hg.
      * now destruct j.
    + intros j g Hj; lia.
  - destruct (Nat.ltb_spec (length best) (length f)) as [Hlt|Hge].
    + destruct (IH f) as (i & Hi & Hmax & Hbefore).
      assert (Hf : length f <= length (max_by_len f tl))
        by (apply (Hmax 0); reflexivity).
      exists (S i). repeat split.
      * exact Hi.
      * intros [|j] g Hg; simpl in Hg.
        -- inversion Hg; subst; lia.
        -- eauto.
      * intros [|j] g Hj Hg; simpl in Hg.
        -- inversion Hg; subst; lia.
        -- apply (Hbefore j); [lia | exact Hg].
    + destruct (IH best) as (i & Hi & Hmax & Hbefore).
      assert (Hb : length best <= length (max_by_len best tl))
        by (apply (Hmax 0); reflexivity).
      destruct i as [|i].
      * exists 0. simpl in Hi. repeat split.
        -- exact Hi.
        -- intros [|[|j]] g Hg; simpl in Hg.
           ++ apply (Hmax 0); exact Hg.
           ++ inversion Hg; subst; lia.
           ++ apply (Hmax (S j)); exact Hg.
        -- intros j g Hj; lia.
      * exists (S (S i)). simpl in Hi. repeat split.
        -- exact Hi.
        -- intros [|[|j]] g Hg; simpl in Hg.
           ++ apply (Hmax 0); exact Hg.
           ++ inversion Hg; subst; lia.
           ++ apply (Hmax (S j)); exact Hg.
        -- intros [|[|j]] g Hj Hg; simpl in Hg.
           ++ apply (Hbefore 0); [lia | exact Hg].
           ++ inversion Hg; subst.
              assert (length best < length (max_by_len best tl))
                by (apply (Hbefore 0); [lia | reflexivity]).
              lia.
           ++ apply (Hbefore (S j)); [lia | exact Hg].
Qed.

(** The first longest field of a row is unique. *)
Lemma first_longest_unique (r : row) (i j : nat) (f g : str) :
  first_longest r i f -> first_longest r j g -> i = j /\ f = g.
Proof.
  intros (Hi & Hmax & Hbefore) (Hj & Hmax' & Hbefore').
  assert (i = j).
  { destruct (Nat.lt_trichotomy i j) as [H|[H|H]]; [|exact H|].
    - specialize (Hbefore' i f H Hi). specialize (Hmax j g Hj). lia.
    - specialize (Hbefore j g H Hj). specialize (Hmax' i f Hi). lia. }
  subst j. split; [reflexivity | congruence].
Qed.

(** ** Running the program *)

Lemma log_log (w : world) (a b : list message) :
  log (log w a) b = log w (a ++ b).
Proof. unfold log; simpl. now rewrite app_assoc. Qed.

Lemma print_run (m : message) (w : world) :
  print m w = (Normal tt, log w [m]).
Proof. reflexivity. Qed.

Lemma str_eqb_refl (a : str) : str_eqb a a = true.
Proof.
  induction a as [|x a IH]; simpl; [reflexivity|].
  now rewrite N.eqb_refl, IH.
Qed.

Lemma str_eqb_eq (a b : str) : str_eqb a b = true <-> a = b.
Proof.
  split; [|intros ->; apply str_eqb_refl].
  revert b; induction a as [|x a IH]; intros [|y b]; simpl; try discriminate.
  - reflexivity.
  - intros H. apply andb_prop in H as [Hx Hab].
    apply N.eqb_eq in Hx. apply IH in Hab. now subst.
Qed.

Lemma update_same (fs : filesystem) (p : path) (e : entry) :
  update fs p e p = e.
Proof. unfold update. now rewrite str_eqb_refl. Qed.

Lemma update_other (fs : filesystem) (p q : path) (e : entry) :
  q <> p -> update fs p e q = fs q.
Proof.
  intros Hq. unfold update.
  destruct (str_eqb q p) eqn:E; [|reflexivity].
  apply str_eqb_eq in E. contradiction.
Qed.

Section Runs.

Context {RT : Runtime}.

(** The line the quick validation of [extract_single_row] prints. *)
Lemma quick_validation_run (v : str) (w : world) :
  quick_validation v w =
  (Normal tt,
   log w [if looks_like_json v
          then match json_loads (test_sample v) with
               | Normal _ => MsgStructureAppearsValid
               | Raised _ => MsgValidationFailed
               end
          else MsgMightNotBeJson]).
Proof.
  unfold quick_validation, try_except, bind, lift.
  destruct (looks_like_json v); [|reflexivity].
  destruct (json_loads (test_sample v)); reflexivity.
Qed.

Lemma extract_target_no_data (output_path : path) (n : Z) (r : row) (w : world) :
  r <> [] -> json_column_of r = [] ->
  extract_target output_path n r w = (Normal false, log w [MsgNoDataFound n]).
Proof.
  intros Hr Hjc. unfold extract_target.
  destruct r as [|f tl]; [contradiction|].
  rewrite Hjc. reflexivity.
Qed.

Lemma extract_target_writes (output_path : path) (n : Z) (r : row) (w : world) :
  r <> [] -> json_column_of r <> [] -> files w output_path <> Locked ->
  extract_target output_path n r w =
  (Normal true,
   World (update (files w) output_path (Regular (json_column_of r)))
     (console w ++
      [MsgFoundData (length (json_column_of r)); MsgSaved output_path;
       if looks_like_json (json_column_of r)
       then match json_loads (test_sample (json_column_of r)) with
            | Normal _ => MsgStructureAppearsValid
            | Raised _ => MsgValidationFailed
            end
       else MsgMightNotBeJson])).
Proof.
  intros Hr Hjc Hw. unfold extract_target.
  destruct r as [|f tl]; [contradiction|].
  destruct (json_column_of (f :: tl)) as [|c v] eqn:E; [contradiction|].
  unfold bind at 1. rewrite print_run.
  unfold bind at 1. unfold write_text. simpl files.
  destruct (files w output_path) eqn:Ef; try contradiction;
    unfold bind; rewrite print_run, quick_validation_run;
    unfold ret, log; simpl; rewrite <- !app_assoc; reflexivity.
Qed.

Lemma extract_target_locked (output_path : path) (n : Z) (r : row) (w : world) :
  r <> [] -> json_column_of r <> [] -> files w output_path = Locked ->
  extract_target output_path n r w =
  (Raised (OSError output_path),
   log w [MsgFoundData (length (json_column_of r))]).
Proof.
  intros Hr Hjc Hw. unfold extract_target.
  destruct r as [|f tl]; [contradiction|].
  destruct (json_column_of (f :: tl)) as [|c v] eqn:E; [contradiction|].
  unfold bind at 1. rewrite print_run.
  unfold bind at 1. unfold write_text. simpl files. rewrite Hw. reflexivity.
Qed.

(** The loop reaches the target row when the reader yields it. *)
Lemma single_row_loop_reaches (output_path : path) (n : Z) (rd : reader) :
  forall (cur : option Z) (next : Z) (r : row) (w : world),
    (next <= n)%Z ->
    nth_error (rows_of rd) (Z.to_nat (n - next)) = Some r ->
    single_row_loop output_path n rd cur next w = extract_target output_path n r w.
Proof.
  induction rd as [|r0 rest IH|e]; intros cur next r w Hle Hnth; simpl in *.
  - now destruct (Z.to_nat (n - next)).
  - destruct (Z.eqb_spec next n) as [->|Hne].
    + rewrite Z.sub_diag in Hnth. simpl in Hnth. now inversion Hnth.
    + replace (Z.to_nat (n - next)) with (S (Z.to_nat (n - (next + 1))))
        in Hnth by lia.
      simpl in Hnth. apply IH; [lia | exact Hnth].
  - now destruct (Z.to_nat (n - next)).
Qed.

(** A reader that stops before the target row: the loop ends and the count
    the program reports is the number of the last record. *)
Lemma single_row_loop_short (output_path : path) (n : Z) (rd : reader) :
  forall (last next : Z) (w : world),
    failure rd = None ->
    (next + Z.of_nat (records rd) <= n)%Z ->
    single_row_loop output_path n rd (Some last) next w =
    (Normal false,
     log w [MsgFileOnlyHas
              (if records rd =? 0 then last
               else (next + Z.of_nat (records rd) - 1)%Z) n]).
Proof.
  induction rd as [|r0 rest IH|e]; intros last next w Hf Hle; simpl in *.
  - reflexivity.
  - destruct (Z.eqb_spec next n) as [->|Hne]; [lia|].
    rewrite IH by (assumption || lia).
    destruct (records rest) as [|k] eqn:Ek; simpl;
      match goal with
      | |- (_, log _ [MsgFileOnlyHas ?a _]) = (_, log _ [MsgFileOnlyHas ?b _]) =>
          replace b with a by lia; reflexivity
      end.
  - discriminate.
Qed.

Lemma extract_single_row_opened (file_path output_path : path) (n : Z)
    (w : world) (text : str) :
  files w file_path = Regular text ->
  extract_single_row file_path output_path n w =
  try_except
    (single_row_loop output_path n (csv_reader text) None 1)
    (fun e => print (MsgErrorExtractingRow e);; ret false)
    (log w [MsgExtractingRow n; MsgRule]).
Proof.
  intros Hf.
  unfold extract_single_row, bind at 1. rewrite print_run.
  unfold bind at 1. rewrite print_run, log_log. simpl app.
  unfold try_except, single_row_attempt, bind, read_text.
  simpl files. rewrite Hf. reflexivity.
Qed.

(** On a file that has the target row, [extract_single_row] does what the
    body of its loop does on that row, with the exception handler around. *)
Lemma extract_single_row_at_target (file_path output_path : path) (n : Z)
    (w : world) (text : str) (r : row) :
  files w file_path = Regular text ->
  (1 <= n)%Z ->
  nth_error (rows_of (csv_reader text)) (Z.to_nat (n - 1)) = Some r ->
  extract_single_row file_path output_path n w =
  try_except
    (extract_target output_path n r)
    (fun e => print (MsgErrorExtractingRow e);; ret false)
    (log w [MsgExtractingRow n; MsgRule]).
Proof.
  intros Hf Hn Hr. rewrite (extract_single_row_opened _ _ _ _ _ Hf).
  unfold try_except.
  now rewrite (single_row_loop_reaches _ _ _ None 1%Z r _ Hn Hr).
Qed.

(** A file with records, but fewer than asked for: the count is reported. *)
Lemma extract_single_row_short (file_path output_path : path) (n : Z)
    (w : world) (text : str) :
  files w file_path = Regular text ->
  failure (csv_reader text) = None ->
  0 < records (csv_reader text) ->
  (Z.of_nat (records (csv_reader text)) < n)%Z ->
  extract_single_row file_path output_path n w =
  (Normal false,
   log w [MsgExtractingRow n; MsgRule;
          MsgFileOnlyHas (Z.of_nat (records (csv_reader text))) n]).
Proof.
  intros Hf Hfail Hpos Hlt. rewrite (extract_single_row_opened _ _ _ _ _ Hf).
  unfold try_except.
  destruct (csv_reader text) as [|r0 rest|e];
    cbn [records failure single_row_loop] in *; try lia.
  destruct (Z.eqb_spec 1 n) as [<-|Hne]; [lia|].
  rewrite single_row_loop_short by (assumption || lia).
  rewrite log_log. cbn [app].
  destruct (Nat.eqb_spec (records rest) 0) as [E|E];
    match goal with
    | |- (_, log _ [_; _; MsgFileOnlyHas ?a _]) =
         (_, log _ [_; _; MsgFileOnlyHas ?b _]) =>
        replace b with a by lia; reflexivity
    end.
Qed.

(** A file with no record at all: the name the report reads was never
    assigned, and the handler reports that instead of a count. *)
Lemma extract_single_row_no_record (file_path output_path : path) (n : Z)
    (w : world) (text : str) :
  files w file_path = Regular text ->
  csv_reader text = Done ->
  extract_single_row file_path output_path n w =
  (Normal false,
   log w [MsgExtractingRow n; MsgRule;
          MsgErrorExtractingRow (UnboundLocalError "current_row_num")]).
Proof.
  intros Hf Hd. rewrite (extract_single_row_opened _ _ _ _ _ Hf).
  rewrite Hd. unfold try_except. cbn [single_row_loop]. unfold raise, bind.
  rewrite print_run, log_log. reflexivity.
Qed.

(** *** The loop of [extract_all_rows] *)

Lemma all_rows_body_skips (dir : path) (base : str) (n : Z) (r : row)
    (e s : Z) (w : world) :
  skipped r = true ->
  all_rows_body dir base n r (e, s) w =
  (Normal (e, (s + 1)%Z),
   log w [match r with
          | [] => MsgRowEmptySkipping n
          | _ :: _ => MsgNoSignificantData n
          end]).
Proof.
  intros Hs. unfold all_rows_body.
  destruct r as [|f tl]; [reflexivity|].
  cbn [skipped] in Hs. rewrite Hs. reflexivity.
Qed.

Lemma all_rows_body_extracts (dir : path) (base : str) (n : Z) (r : row)
    (e s : Z) (w : world) :
  skipped r = false ->
  files w (path_join dir (row_file_name base n)) <> Locked ->
  all_rows_body dir base n r (e, s) w =
  (Normal ((e + 1)%Z, s),
   World (update (files w) (path_join dir (row_file_name base n))
            (Regular (json_column_of r)))
     (console w ++
      [MsgRowWritten n (length (json_column_of r)) (row_file_name base n);
       if is_valid (json_column_of r) then MsgValidStructure
       else MsgMayNotBeValid])).
Proof.
  intros Hs Hw. unfold all_rows_body.
  destruct r as [|f tl]; [discriminate|].
  cbn [skipped] in Hs. rewrite Hs.
  unfold bind at 1. unfold write_text.
  destruct (files w (path_join dir (row_file_name base n))) eqn:Ef;
    try contradiction;
    unfold bind; rewrite !print_run;
    unfold ret, log; simpl; rewrite <- !app_assoc; reflexivity.
Qed.

Lemma all_rows_body_locked (dir : path) (base : str) (n : Z) (r : row)
    (e s : Z) (w : world) :
  skipped r = false ->
  files w (path_join dir (row_file_name base n)) = Locked ->
  all_rows_body dir base n r (e, s) w =
  (Raised (OSError (path_join dir (row_file_name base n))), w).
Proof.
  intros Hs Hw. unfold all_rows_body.
  destruct r as [|f tl]; [discriminate|].
  cbn [skipped] in Hs. rewrite Hs.
  unfold bind at 1. unfold write_text. rewrite Hw. reflexivity.
Qed.

(** Every record moves exactly one of the two counters, by one. *)
Lemma all_rows_body_counts (dir : path) (base : str) (n : Z) (r : row)
    (e s e' s' : Z) (w w' : world) :
  all_rows_body dir base n r (e, s) w = (Normal (e', s'), w') ->
  (skipped r = false /\ e' = (e + 1)%Z /\ s' = s)
  \/ (skipped r = true /\ e' = e /\ s' = (s + 1)%Z).
Proof.
  intros Hrun. destruct (skipped r) eqn:Hs.
  - rewrite all_rows_body_skips in Hrun by exact Hs.
    inversion Hrun; subst. right. auto.
  - destruct (files w (path_join dir (row_file_name base n))) eqn:Ef.
    + rewrite all_rows_body_extracts in Hrun by (congruence).
      inversion Hrun; subst. left. auto.
    + rewrite all_rows_body_extracts in Hrun by (congruence).
      inversion Hrun; subst. left. auto.
    + rewrite all_rows_body_locked in Hrun by assumption. discriminate.
Qed.

(** A loop that ends normally went through every record; its counters are
    the numbers of rows extracted and skipped. *)
Lemma all_rows_loop_counts (dir : path) (base : str) (rd : reader) :
  forall (n e0 s0 e s : Z) (w w' : world),
    all_rows_loop dir base rd n (e0, s0) w = (Normal (e, s), w') ->
    failure rd = None
    /\ e = (e0 + Z.of_nat (length (filter (fun r => negb (skipped r))
                                     (rows_of rd))))%Z
    /\ s = (s0 + Z.of_nat (length (filter skipped (rows_of rd))))%Z.
Proof.
  induction rd as [|r rest IH|ex]; intros n e0 s0 e s w w' Hrun;
    cbn [all_rows_loop] in Hrun.
  - inversion Hrun; subst. simpl. repeat split; lia.
  - unfold bind in Hrun.
    destruct (all_rows_body dir base n r (e0, s0) w) as [[[e1 s1]|ex] w1]
      eqn:Hbody; [|discriminate].
    apply IH in Hrun as (Hf & He & Hs).
    apply all_rows_body_counts in Hbody as [(Hk & -> & ->)|(Hk & -> & ->)];
      cbn [failure rows_of filter]; rewrite Hk; cbn [negb length];
      repeat split; try assumption; lia.
  - discriminate.
Qed.

(** While every row is skipped, no file is touched. *)
Lemma all_rows_loop_all_skipped (dir : path) (base : str) (rd : reader) :
  forall (n : Z) (c : Z * Z) (w : world),
    (forall r, In r (rows_of rd) -> skipped r = true) ->
    files (snd (all_rows_loop dir base rd n c w)) = files w
    /\ forall e s w', all_rows_loop dir base rd n c w = (Normal (e, s), w') ->
                      e = fst c.
Proof.
  induction rd as [|r rest IH|ex]; intros n [e0 s0] w Hall;
    cbn [all_rows_loop].
  - split; [reflexivity|]. intros e s w' H. now inversion H.
  - unfold bind.
    rewrite all_rows_body_skips by (apply Hall; left; reflexivity).
    destruct (IH (n + 1)%Z (e0, (s0 + 1)%Z)
                (log w [match r with
                        | [] => MsgRowEmptySkipping n
                        | _ :: _ => MsgNoSignificantData n
                        end])) as [Hfiles Hcount].
    { intros r' Hr'. apply Hall. right. exact Hr'. }
    split; [exact Hfiles | exact Hcount].
  - split; [reflexivity|]. intros e s w' H. discriminate.
Qed.

Lemma extract_all_rows_run (file_path output_prefix : path) (w : world) :
  extract_all_rows file_path output_prefix w =
  match all_rows_attempt file_path output_prefix
          (log w [MsgExtractingAll; MsgRule]) with
  | (Normal (e, s), w') =>
      (Normal (0 <? e)%Z,
       log w' ([MsgRule; MsgExtracted e]
               ++ if (0 <? s)%Z then [MsgSkipped s] else []))
  | (Raised ex, w') => (Normal false, log w' [MsgErrorExtractingRows ex])
  end.
Proof.
  unfold extract_all_rows, bind at 1. rewrite print_run.
  unfold bind at 1. rewrite print_run, log_log. cbn [app].
  unfold try_except, bind at 1.
  destruct (all_rows_attempt file_path output_prefix
              (log w [MsgExtractingAll; MsgRule])) as [[[e s]|ex] w'].
  - unfold bind, when. rewrite !print_run.
    destruct (0 <? s)%Z; [rewrite print_run|]; unfold ret;
      rewrite !log_log; reflexivity.
  - unfold bind. rewrite print_run. reflexivity.
Qed.

Lemma all_rows_attempt_opened (file_path output_prefix : path) (w : world)
    (text : str) :
  files w file_path = Regular text ->
  all_rows_attempt file_path output_prefix w =
  all_rows_loop (path_parent output_prefix) (path_stem output_prefix)
    (csv_reader text) 1 (0%Z, 0%Z) w.
Proof.
  intros Hf. unfold all_rows_attempt, bind, read_text. now rewrite Hf.
Qed.

Lemma all_rows_attempt_unreadable (file_path output_prefix : path) (w : world) :
  (forall text, files w file_path <> Regular text) ->
  all_rows_attempt file_path output_prefix w = (Raised (OSError file_path), w).
Proof.
  intros Hf. unfold all_rows_attempt, bind, read_text.
  destruct (files w file_path) eqn:E; try reflexivity.
  now destruct (Hf content).
Qed.

(** *** The validator *)

Lemma full_parse_valid (content : str) (w : world) :
  json_loads content = Normal tt ->
  full_parse content w = (Normal true, log w [MsgValidJson]).
Proof.
  intros H. unfold full_parse, try_except_decode, bind, lift.
  rewrite H. reflexivity.
Qed.

Lemma full_parse_decode_error (content : str) (d : json_error) (w : world) :
  json_loads content = Raised (JSONDecodeError d) ->
  full_parse content w =
  (Normal false,
   log w
     (MsgParseError d
      :: (if (count content (ch "{") - count content (ch "}") =? 0)%Z then []
          else [MsgUnmatchedBraces
                  (count content (ch "{") - count content (ch "}"))])
      ++ (if (count content (ch "[") - count content (ch "]") =? 0)%Z then []
          else [MsgUnmatchedBrackets
                  (count content (ch "[") - count content (ch "]"))]))).
Proof.
  intros H. unfold full_parse, try_except_decode, bind at 1. unfold lift.
  rewrite H. unfold bind at 1. rewrite print_run.
  unfold bind, when, ret.
  destruct (count content (ch "{") - count content (ch "}") =? 0)%Z;
    destruct (count content (ch "[") - count content (ch "]") =? 0)%Z;
    cbn [negb]; rewrite ?print_run, ?log_log; reflexivity.
Qed.

Lemma validate_json_file_bad_start (json_file : path) (w : world)
    (content : str) (first : char) (rest : str) :
  files w json_file = Regular content ->
  strip content = first :: rest ->
  char_in first (lit "[{") = false ->
  validate_json_file json_file w =
  (Normal false, log w [MsgValidating json_file; MsgBadStart first]).
Proof.
  intros Hf Hs Hc. unfold validate_json_file, bind at 1. rewrite print_run.
  unfold try_except, bind at 1. unfold read_text. cbn [files log].
  rewrite Hf, Hs, Hc. cbn [negb]. unfold bind. rewrite print_run, log_log.
  reflexivity.
Qed.

(** A good first character takes the validator to the parse, after the
    warning about the last character if there is one. *)
Lemma validate_json_file_parses (json_file : path) (w : world)
    (content : str) (first : char) (rest : str) :
  files w json_file = Regular content ->
  strip content = first :: rest ->
  char_in first (lit "[{") = true ->
  validate_json_file json_file w =
  try_except (full_parse content)
    (fun e => print (MsgErrorReadingFile e);; ret false)
    (log w (MsgValidating json_file
            :: if char_in (last (strip content) first) (lit "]}") then []
               else [MsgBadEnd (last (strip content) first)])).
Proof.
  intros Hf Hs Hc. unfold validate_json_file, bind at 1. rewrite print_run.
  unfold try_except, bind at 1. unfold read_text. cbn [files log].
  rewrite Hf, Hs, Hc. cbn [negb].
  unfold bind at 1, when.
  destruct (char_in (last (first :: rest) first) (lit "]}")); cbn [negb].
  - reflexivity.
  - rewrite print_run, log_log. reflexivity.
Qed.

End Runs.

(** ** The decoder: text appended after a document *)

Import JSON.

#[local] Arguments N.eqb : simpl never.
#[local] Arguments N.leb : simpl never.
#[local] Arguments N.ltb : simpl never.

Lemma closer_not_ws (c : char) : closer c -> is_ws c = false.
Proof. intros [-> | ->]; reflexivity. Qed.

Lemma closer_not_digit (c : char) : closer c -> is_digit c = false.
Proof. intros [-> | ->]; reflexivity. Qed.

Lemma closer_not_in (c : char) (k : str) :
  closer c -> In k (lit "-.eE+" :: constants) -> ~ In c k.
Proof.
  intros Hc Hk Hin.
  assert (forallb (fun k => negb (existsb (N.eqb (ch "]")) k)
                            && negb (existsb (N.eqb (ch "}")) k))
            (lit "-.eE+" :: constants) = true) as Hall by reflexivity.
  rewrite forallb_forall in Hall. specialize (Hall k Hk).
  apply andb_prop in Hall as [H1 H2].
  destruct Hc as [-> | ->].
  - apply negb_true_iff in H1.
    assert (existsb (N.eqb (ch "]")) k = true)
      by (apply existsb_exists; exists (ch "]"); split;
          [exact Hin | apply N.eqb_refl]).
    congruence.
  - apply negb_true_iff in H2.
    assert (existsb (N.eqb (ch "}")) k = true)
      by (apply existsb_exists; exists (ch "}"); split;
          [exact Hin | apply N.eqb_refl]).
    congruence.
Qed.

Lemma closer_neqb (c x : char) :
  closer c -> In x (lit "-.eE+") -> N.eqb c x = false.
Proof.
  intros Hc Hx. apply N.eqb_neq. intros ->.
  apply (closer_not_in x (lit "-.eE+") Hc); [left; reflexivity | exact Hx].
Qed.

Lemma skip_ws_app (c : char) (t r : str) :
  is_ws c = false -> skip_ws (r ++ c :: t) = skip_ws r ++ c :: t.
Proof.
  intros Hc. induction r as [|x r IH]; cbn [skip_ws app].
  - now rewrite Hc.
  - destruct (is_ws x); [exact IH | reflexivity].
Qed.

Lemma skip_digits_app (c : char) (t r : str) :
  is_digit c = false -> skip_digits (r ++ c :: t) = skip_digits r ++ c :: t.
Proof.
  intros Hc. induction r as [|x r IH]; cbn [skip_digits app].
  - now rewrite Hc.
  - destruct (is_digit x); [exact IH | reflexivity].
Qed.

Lemma strip_prefix_app (t : str) (k : str) :
  forall s r, strip_prefix k s = Some r ->
              strip_prefix k (s ++ t) = Some (r ++ t).
Proof.
  induction k as [|x k IH]; intros s r H; cbn [strip_prefix] in *.
  - destruct s; inversion H; reflexivity.
  - destruct s as [|y s]; [discriminate|]. cbn [app].
    destruct (N.eqb x y); [now apply IH | discriminate].
Qed.

Lemma strip_prefix_none_app (c : char) (t : str) (k : str) :
  ~ In c k ->
  forall s, strip_prefix k s = None -> strip_prefix k (s ++ c :: t) = None.
Proof.
  induction k as [|x k IH]; intros Hc s H; cbn [strip_prefix] in *.
  - destruct s; discriminate.
  - destruct s as [|y s]; cbn [app].
    + destruct (N.eqb_spec x c) as [->|Hne]; [|reflexivity].
      exfalso. apply Hc. left. reflexivity.
    + destruct (N.eqb x y); [|reflexivity].
      apply IH; [|exact H]. intros Hin. apply Hc. right. exact Hin.
Qed.

Lemma match_constant_app (c : char) (t : str) (cs : list str) :
  (forall k, In k cs -> ~ In c k) ->
  forall s, match_constant cs (s ++ c :: t) =
            option_map (fun r => r ++ c :: t) (match_constant cs s).
Proof.
  induction cs as [|k cs IH]; intros Hc s; cbn [match_constant].
  - reflexivity.
  - destruct (strip_prefix k s) as [r|] eqn:E.
    + now rewrite (strip_prefix_app _ _ _ _ E).
    + rewrite (strip_prefix_none_app c t k) by (auto; apply Hc; left; auto).
      apply IH. intros k' Hk'. apply Hc. right. exact Hk'.
Qed.

Lemma scanstring_app (t : str) :
  forall n s r, length s <= n -> scanstring s = Some r ->
                scanstring (s ++ t) = Some (r ++ t).
Proof.
  induction n as [|n IH]; intros s r Hlen H;
    destruct s as [|x s1]; cbn [scanstring app length] in *;
    try discriminate; try lia.
  destruct (N.eqb x DQUOTE); [now inversion H|].
  destruct (N.eqb x BACKSLASH).
  - destruct s1 as [|e s2]; [discriminate|]. cbn [app length] in *.
    destruct (N.eqb e (ch "u")).
    + destruct s2 as [|h1 [|h2 [|h3 [|h4 s3]]]]; try discriminate.
      cbn [app length] in *.
      destruct (is_hex h1 && is_hex h2 && is_hex h3 && is_hex h4);
        [|discriminate].
      apply IH; [lia | exact H].
    + destruct (is_escape e); [|discriminate].
      apply IH; [lia | exact H].
  - destruct (x <? 32)%N; [discriminate|].
    apply IH; [lia | exact H].
Qed.

Lemma integer_app (c : char) (t s : str) :
  closer c ->
  integer (s ++ c :: t) = option_map (fun r => r ++ c :: t) (integer s).
Proof.
  intros Hc. pose proof (closer_not_digit c Hc) as Hd.
  assert (Hstart : integer (c :: t) = None)
    by (destruct Hc as [-> | ->]; reflexivity).
  assert (Hdigits : forall y r,
    match y :: r ++ c :: t with
    | x :: r0 => if ((49 <=? x) && (x <=? 57))%N then Some (skip_digits r0)
                 else if N.eqb x 48%N then Some r0 else None
    | [] => None
    end = option_map (fun r => r ++ c :: t)
            (if ((49 <=? y) && (y <=? 57))%N then Some (skip_digits r)
             else if N.eqb y 48%N then Some r else None)).
  { intros y r. destruct ((49 <=? y) && (y <=? 57))%N; cbn [option_map].
    - now rewrite skip_digits_app.
    - destruct (N.eqb y 48%N); reflexivity. }
  destruct s as [|x r]; [exact Hstart|].
  unfold integer. cbn [app].
  destruct (N.eqb x (ch "-")).
  - destruct r as [|y r]; cbn [app].
    + destruct Hc as [-> | ->]; reflexivity.
    + apply Hdigits.
  - apply Hdigits.
Qed.

Lemma fraction_app (c : char) (t r : str) :
  closer c -> fraction (r ++ c :: t) = fraction r ++ c :: t.
Proof.
  intros Hc. pose proof (closer_not_digit c Hc) as Hd.
  destruct r as [|p [|d r]]; unfold fraction; cbn [app].
  - destruct t; [reflexivity|].
    rewrite (closer_neqb c (ch ".") Hc) by (cbn; tauto). reflexivity.
  - rewrite Hd, andb_false_r. reflexivity.
  - destruct (N.eqb p (ch ".") && is_digit d); [|reflexivity].
    now apply skip_digits_app.
Qed.

Lemma exponent_app (c : char) (t r : str) :
  closer c -> exponent (r ++ c :: t) = exponent r ++ c :: t.
Proof.
  intros Hc. pose proof (closer_not_digit c Hc) as Hd.
  assert (He : N.eqb c (ch "e") || N.eqb c (ch "E") = false)
    by (rewrite !(closer_neqb c _ Hc) by (cbn; tauto); reflexivity).
  assert (Hs : N.eqb c (ch "-") || N.eqb c (ch "+") = false)
    by (rewrite !(closer_neqb c _ Hc) by (cbn; tauto); reflexivity).
  destruct r as [|e r1]; unfold exponent; cbn [app].
  - now rewrite He.
  - destruct (N.eqb e (ch "e") || N.eqb e (ch "E")); [|reflexivity].
    destruct r1 as [|sg x]; cbn [app].
    + now rewrite Hs, Hd.
    + destruct (N.eqb sg (ch "-") || N.eqb sg (ch "+")).
      * destruct x as [|d r3]; cbn [app].
        -- now rewrite Hd.
        -- destruct (is_digit d); [|reflexivity]. now apply skip_digits_app.
      * cbn [app]. destruct (is_digit sg); [|reflexivity].
        now apply skip_digits_app.
Qed.

Lemma scan_atom_app (c : char) (t s : str) :
  closer c ->
  scan_atom (s ++ c :: t) = option_map (fun r => r ++ c :: t) (scan_atom s).
Proof.
  intros Hc. unfold scan_atom.
  rewrite match_constant_app
    by (intros k Hk; apply closer_not_in; [exact Hc | right; exact Hk]).
  destruct (match_constant constants s); [reflexivity|]. cbn [option_map].
  unfold match_number. rewrite integer_app by exact Hc.
  destruct (integer s) as [r|]; [|reflexivity]. cbn [option_map].
  now rewrite fraction_app, exponent_app.
Qed.

(** A document is read the same way when a closing character and more text
    follow it: the decoder stops where it stopped, with the new text left. *)
Lemma scan_app (c : char) (t : str) :
  closer c ->
  forall n,
    (forall s r, scan_once n s = Some r ->
                 scan_once n (s ++ c :: t) = Some (r ++ c :: t))
    /\ (forall s r, parse_object n s = Some r ->
                    parse_object n (s ++ c :: t) = Some (r ++ c :: t))
    /\ (forall s r, parse_array n s = Some r ->
                    parse_array n (s ++ c :: t) = Some (r ++ c :: t)).
Proof.
  intros Hc. pose proof (closer_not_ws c Hc) as Hw.
  induction n as [|n (IHs & IHo & IHa)].
  - repeat split; intros s r H; discriminate.
  - repeat split; intros s r H.
    + cbn [scan_once] in *. destruct s as [|x s1]; [discriminate|].
      cbn [app]. destruct (N.eqb x DQUOTE).
      { now apply (scanstring_app _ (length s1)). }
      destruct (N.eqb x (ch "{")).
      { rewrite skip_ws_app by exact Hw.
        destruct (skip_ws s1) as [|d r1]; [discriminate|]. cbn [app].
        destruct (N.eqb d (ch "}")); [now inversion H|].
        now apply (IHo (d :: r1)). }
      destruct (N.eqb x (ch "[")).
      { rewrite skip_ws_app by exact Hw.
        destruct (skip_ws s1) as [|d r1]; [discriminate|]. cbn [app].
        destruct (N.eqb d (ch "]")); [now inversion H|].
        now apply (IHa (d :: r1)). }
      change (x :: s1 ++ c :: t) with ((x :: s1) ++ c :: t).
      rewrite scan_atom_app by exact Hc. now rewrite H.
    + cbn [parse_object] in *. destruct s as [|q s1]; [discriminate|].
      cbn [app]. destruct (N.eqb q DQUOTE); [|discriminate].
      destruct (scanstring s1) as [r1|] eqn:E1; [|discriminate].
      rewrite (scanstring_app (c :: t) (length s1) s1 r1 (le_n _) E1).
      rewrite skip_ws_app by exact Hw.
      destruct (skip_ws r1) as [|col r2]; [discriminate|]. cbn [app].
      destruct (N.eqb col (ch ":")); [|discriminate].
      rewrite skip_ws_app by exact Hw.
      destruct (scan_once n (skip_ws r2)) as [r3|] eqn:E3; [|discriminate].
      rewrite (IHs _ _ E3). rewrite skip_ws_app by exact Hw.
      destruct (skip_ws r3) as [|d r4]; [discriminate|]. cbn [app].
      destruct (N.eqb d (ch "}")); [now inversion H|].
      destruct (N.eqb d (ch ",")); [|discriminate].
      rewrite skip_ws_app by exact Hw. now apply IHo.
    + cbn [parse_array] in *.
      destruct (scan_once n s) as [r1|] eqn:E1; [|discriminate].
      rewrite (IHs _ _ E1). rewrite skip_ws_app by exact Hw.
      destruct (skip_ws r1) as [|d r2]; [discriminate|]. cbn [app].
      destruct (N.eqb d (ch "]")); [now inversion H|].
      destruct (N.eqb d (ch ",")); [|discriminate].
      rewrite skip_ws_app by exact Hw. now apply IHa.
Qed.

(** More fuel does not change a result. *)
Lemma scan_fuel_mono :
  forall n,
    (forall s r m, scan_once n s = Some r -> n <= m -> scan_once m s = Some r)
    /\ (forall s r m, parse_object n s = Some r -> n <= m ->
                      parse_object m s = Some r)
    /\ (forall s r m, parse_array n s = Some r -> n <= m ->
                      parse_array m s = Some r).
Proof.
  induction n as [|n (IHs & IHo & IHa)].
  - repeat split; intros s r m H; discriminate.
  - repeat split; intros s r [|m] H Hle; try lia;
      assert (Hnm : n <= m) by lia.
    + cbn [scan_once] in *. destruct s as [|x s1]; [discriminate|].
      destruct (N.eqb x DQUOTE); [exact H|].
      destruct (N.eqb x (ch "{")).
      { destruct (skip_ws s1) as [|d r1]; [discriminate|].
        destruct (N.eqb d (ch "}")); [exact H | now apply IHo]. }
      destruct (N.eqb x (ch "[")); [|exact H].
      destruct (skip_ws s1) as [|d r1]; [discriminate|].
      destruct (N.eqb d (ch "]")); [exact H | now apply IHa].
    + cbn [parse_object] in *. destruct s as [|q s1]; [discriminate|].
      destruct (N.eqb q DQUOTE); [|discriminate].
      destruct (scanstring s1) as [r1|]; [|discriminate].
      destruct (skip_ws r1) as [|col r2]; [discriminate|].
      destruct (N.eqb col (ch ":")); [|discriminate].
      destruct (scan_once n (skip_ws r2)) as [r3|] eqn:E3; [|discriminate].
      rewrite (IHs _ _ m E3 Hnm).
      destruct (skip_ws r3) as [|d r4]; [discriminate|].
      destruct (N.eqb d (ch "}")); [exact H|].
      destruct (N.eqb d (ch ",")); [now apply IHo | discriminate].
    + cbn [parse_array] in *.
      destruct (scan_once n s) as [r1|] eqn:E1; [|discriminate].
      rewrite (IHs _ _ m E1 Hnm).
      destruct (skip_ws r1) as [|d r2]; [discriminate|].
      destruct (N.eqb d (ch "]")); [exact H|].
      destruct (N.eqb d (ch ",")); [now apply IHa | discriminate].
Qed.

(** A document that decodes no longer does once a closing character is
    put after it: the decoder finds the character after the value. *)
Lemma loads_closer_extra_data (v : str) (c : char) :
  closer c ->
  loads v = Normal tt ->
  loads (v ++ [c]) = Raised (JSONDecodeError ExtraData).
Proof.
  intros Hc H. pose proof (closer_not_ws c Hc) as Hw. unfold loads in *.
  destruct (scan_once (fuel_for v) (skip_ws v)) as [rest|] eqn:E;
    [|discriminate].
  destruct (skip_ws rest) as [|x rest'] eqn:Er; [|discriminate].
  rewrite skip_ws_app by exact Hw.
  apply (proj1 (scan_app c [] Hc _)) in E.
  apply (proj1 (scan_fuel_mono _)) with (m := fuel_for (v ++ [c])) in E.
  - rewrite E, skip_ws_app, Er by exact Hw. reflexivity.
  - unfold fuel_for. rewrite length_app. lia.
Qed.

(** ** The decoder: what it consumes *)

Lemma skip_ws_rest (s : str) :
  exists u, s = u ++ skip_ws s /\ forallb is_ws u = true.
Proof.
  induction s as [|x s (u & Hu & Hws)]; cbn [skip_ws].
  - exists []. split; reflexivity.
  - destruct (is_ws x) eqn:E.
    + exists (x :: u). cbn [app forallb]. rewrite E, Hws.
      split; [congruence | reflexivity].
    + exists []. split; reflexivity.
Qed.

Lemma skip_ws_length (s : str) : length (skip_ws s) <= length s.
Proof.
  destruct (skip_ws_rest s) as (u & Hu & _).
  rewrite Hu at 2. rewrite length_app. lens.
Qed.

Lemma skip_digits_length (s : str) : length (skip_digits s) <= length s.
Proof.
  induction s as [|x s IH]; cbn [skip_digits]; [lens|].
  destruct (is_digit x); cbn [length]; lens.
Qed.

Lemma strip_prefix_rest (k : str) :
  forall s r, strip_prefix k s = Some r -> s = k ++ r.
Proof.
  induction k as [|x k IH]; intros s r H; cbn [strip_prefix] in H.
  - destruct s; inversion H; reflexivity.
  - destruct s as [|y s]; [discriminate|].
    destruct (N.eqb_spec x y) as [->|]; [|discriminate].
    cbn [app]. f_equal. now apply IH.
Qed.

Lemma match_constant_rest (cs : list str) (s r : str) :
  match_constant cs s = Some r -> exists k, In k cs /\ s = k ++ r.
Proof.
  induction cs as [|k cs IH]; cbn [match_constant]; [discriminate|].
  destruct (strip_prefix k s) as [r'|] eqn:E.
  - intros H. inversion H; subst. exists k.
    split; [left; reflexivity | now apply strip_prefix_rest].
  - intros H. destruct (IH H) as (k' & Hk' & Hs). exists k'.
    split; [right; exact Hk' | exact Hs].
Qed.

Lemma integer_length (s r : str) :
  integer s = Some r -> length r < length s.
Proof.
  assert (Hdigits : forall s r,
    match s with
    | x :: r0 => if ((49 <=? x) && (x <=? 57))%N then Some (skip_digits r0)
                 else if N.eqb x 48%N then Some r0 else None
    | [] => None
    end = Some r -> length r < length s).
  { intros [|x r0] r'; [discriminate|].
    pose proof (skip_digits_length r0) as Hd.
    destruct ((49 <=? x) && (x <=? 57))%N; [|destruct (N.eqb x 48%N)];
      intros H; inversion H; subst; lens. }
  unfold integer. destruct s as [|x s1]; [discriminate|].
  destruct (N.eqb x (ch "-")).
  - intros H. apply Hdigits in H. lens.
  - apply (Hdigits (x :: s1)).
Qed.

Lemma fraction_length (r : str) : length (fraction r) <= length r.
Proof.
  unfold fraction. destruct r as [|p [|d r]]; try lens.
  pose proof (skip_digits_length r).
  destruct (N.eqb p (ch ".") && is_digit d); cbn [length]; lens.
Qed.

Lemma exponent_length (r : str) : length (exponent r) <= length r.
Proof.
  unfold exponent. destruct r as [|e r1]; [lens|].
  destruct (N.eqb e (ch "e") || N.eqb e (ch "E")); [|lens].
  destruct r1 as [|sg x]; [lens|].
  destruct (N.eqb sg (ch "-") || N.eqb sg (ch "+")).
  - destruct x as [|d r3]; [lens|].
    pose proof (skip_digits_length r3).
    destruct (is_digit d); cbn [length]; lens.
  - pose proof (skip_digits_length x).
    destruct (is_digit sg); cbn [length]; lens.
Qed.

Lemma scan_atom_length (s r : str) :
  scan_atom s = Some r -> length r < length s.
Proof.
  unfold scan_atom. destruct (match_constant constants s) as [r'|] eqn:E.
  - intros H. inversion H; subst.
    destruct (match_constant_rest _ _ _ E) as (k & Hk & ->).
    rewrite length_app.
    assert (0 < length k); [|lens].
    cbn [constants In] in Hk.
    destruct Hk as [<-|[<-|[<-|[<-|[<-|[<-|[]]]]]]]; cbn; lens.
  - unfold match_number. destruct (integer s) as [r1|] eqn:Ei; [|discriminate].
    intros H. inversion H; subst.
    apply integer_length in Ei.
    pose proof (fraction_length r1). pose proof (exponent_length (fraction r1)).
    lens.
Qed.

Lemma scanstring_length :
  forall n s r, length s <= n -> scanstring s = Some r -> length r < length s.
Proof.
  induction n as [|n IH]; intros s r Hlen H;
    destruct s as [|x s1]; cbn [scanstring length] in *;
    try discriminate; try lens.
  destruct (N.eqb x DQUOTE); [inversion H; subst; lens|].
  destruct (N.eqb x BACKSLASH).
  - destruct s1 as [|e s2]; [discriminate|]. cbn [length] in *.
    destruct (N.eqb e (ch "u")).
    + destruct s2 as [|h1 [|h2 [|h3 [|h4 s3]]]]; try discriminate.
      cbn [length] in *.
      destruct (is_hex h1 && is_hex h2 && is_hex h3 && is_hex h4);
        [|discriminate].
      apply IH in H; lens.
    + destruct (is_escape e); [|discriminate]. apply IH in H; lens.
  - destruct (x <? 32)%N; [discriminate|]. apply IH in H; lens.
Qed.

(** Every value, object and array takes at least one character. *)
Lemma scan_length :
  forall n,
    (forall s r, scan_once n s = Some r -> length r < length s)
    /\ (forall s r, parse_object n s = Some r -> length r < length s)
    /\ (forall s r, parse_array n s = Some r -> length r < length s).
Proof.
  induction n as [|n (IHs & IHo & IHa)].
  - repeat split; intros s r H; discriminate.
  - repeat split; intros s r H.
    + cbn [scan_once] in H. destruct s as [|x s1]; [discriminate|].
      cbn [length]. pose proof (skip_ws_length s1) as Hws.
      destruct (N.eqb x DQUOTE).
      { apply (scanstring_length (length s1)) in H; lens. }
      destruct (N.eqb x (ch "{")).
      { destruct (skip_ws s1) as [|d r1]; [discriminate|]. cbn [length] in Hws.
        destruct (N.eqb d (ch "}")); [inversion H; subst; lens|].
        apply IHo in H. cbn [length] in H. lens. }
      destruct (N.eqb x (ch "[")).
      { destruct (skip_ws s1) as [|d r1]; [discriminate|]. cbn [length] in Hws.
        destruct (N.eqb d (ch "]")); [inversion H; subst; lens|].
        apply IHa in H. cbn [length] in H. lens. }
      apply scan_atom_length in H. cbn [length] in H. lens.
    + cbn [parse_object] in H. destruct s as [|q s1]; [discriminate|].
      cbn [length]. destruct (N.eqb q DQUOTE); [|discriminate].
      destruct (scanstring s1) as [r1|] eqn:E1; [|discriminate].
      apply (scanstring_length (length s1)) in E1; [|lens].
      pose proof (skip_ws_length r1) as Hw1.
      destruct (skip_ws r1) as [|col r2]; [discriminate|]. cbn [length] in Hw1.
      destruct (N.eqb col (ch ":")); [|discriminate].
      pose proof (skip_ws_length r2) as Hw2.
      destruct (scan_once n (skip_ws r2)) as [r3|] eqn:E3; [|discriminate].
      apply IHs in E3. pose proof (skip_ws_length r3) as Hw3.
      destruct (skip_ws r3) as [|d r4]; [discriminate|]. cbn [length] in Hw3.
      destruct (N.eqb d (ch "}")); [inversion H; subst; lens|].
      destruct (N.eqb d (ch ",")); [|discriminate].
      apply IHo in H. pose proof (skip_ws_length r4). lens.
    + cbn [parse_array] in H.
      destruct (scan_once n s) as [r1|] eqn:E1; [|discriminate].
      apply IHs in E1. pose proof (skip_ws_length r1) as Hw1.
      destruct (skip_ws r1) as [|d r2]; [discriminate|]. cbn [length] in Hw1.
      destruct (N.eqb d (ch "]")); [inversion H; subst; lens|].
      destruct (N.eqb d (ch ",")); [|discriminate].
      apply IHa in H. pose proof (skip_ws_length r2). lens.
Qed.

(** Fuel in proportion to the length of the text is enough: what any
    amount of fuel decodes, that amount decodes. *)
Lemma scan_fuel_enough :
  forall n,
    (forall s r m, scan_once n s = Some r -> 2 * length s < m ->
                   scan_once m s = Some r)
    /\ (forall s r m, parse_object n s = Some r -> 2 * length s < m ->
                      parse_object m s = Some r)
    /\ (forall s r m, parse_array n s = Some r -> 2 * length s + 1 < m ->
                      parse_array m s = Some r).
Proof.
  induction n as [|n (IHs & IHo & IHa)].
  - repeat split; intros s r m H; discriminate.
  - repeat split; intros s r [|m] H Hm; try lens.
    + cbn [scan_once] in *. destruct s as [|x s1]; [discriminate|].
      cbn [length] in Hm. pose proof (skip_ws_length s1) as Hws.
      destruct (N.eqb x DQUOTE); [exact H|].
      destruct (N.eqb x (ch "{")).
      { destruct (skip_ws s1) as [|d r1]; [discriminate|]. cbn [length] in Hws.
        destruct (N.eqb d (ch "}")); [exact H|].
        apply IHo; [exact H | cbn [length]; lens]. }
      destruct (N.eqb x (ch "[")); [|exact H].
      destruct (skip_ws s1) as [|d r1]; [discriminate|]. cbn [length] in Hws.
      destruct (N.eqb d (ch "]")); [exact H|].
      apply IHa; [exact H | cbn [length]; lens].
    + cbn [parse_object] in *. destruct s as [|q s1]; [discriminate|].
      cbn [length] in Hm. destruct (N.eqb q DQUOTE); [|discriminate].
      destruct (scanstring s1) as [r1|] eqn:E1; [|discriminate].
      apply (scanstring_length (length s1)) in E1; [|lens].
      pose proof (skip_ws_length r1) as Hw1.
      destruct (skip_ws r1) as [|col r2]; [discriminate|]. cbn [length] in Hw1.
      destruct (N.eqb col (ch ":")); [|discriminate].
      pose proof (skip_ws_length r2) as Hw2.
      destruct (scan_once n (skip_ws r2)) as [r3|] eqn:E3; [|discriminate].
      rewrite (IHs _ _ m E3) by lens.
      apply (proj1 (scan_length n)) in E3.
      pose proof (skip_ws_length r3) as Hw3.
      destruct (skip_ws r3) as [|d r4]; [discriminate|]. cbn [length] in Hw3.
      destruct (N.eqb d (ch "}")); [exact H|].
      destruct (N.eqb d (ch ",")); [|discriminate].
      pose proof (skip_ws_length r4).
      apply IHo; [exact H | lens].
    + cbn [parse_array] in *.
      destruct (scan_once n s) as [r1|] eqn:E1; [|discriminate].
      rewrite (IHs _ _ m E1) by lens.
      apply (proj1 (scan_length n)) in E1.
      pose proof (skip_ws_length r1) as Hw1.
      destruct (skip_ws r1) as [|d r2]; [discriminate|]. cbn [length] in Hw1.
      destruct (N.eqb d (ch "]")); [exact H|].
      destruct (N.eqb d (ch ",")); [|discriminate].
      pose proof (skip_ws_length r2).
      apply IHa; [exact H | lens].
Qed.

(** [loads] does not depend on the fuel it gives to [scan_once]: any
    larger amount decodes the same, and what some amount decodes, the
    amount [loads] uses decodes too. *)
Lemma loads_fuel (s : str) (n : nat) :
  (forall r, scan_once n (skip_ws s) = Some r ->
             scan_once (fuel_for s) (skip_ws s) = Some r)
  /\ (fuel_for s <= n ->
      scan_once n (skip_ws s) = scan_once (fuel_for s) (skip_ws s)).
Proof.
  assert (Henough : forall r, scan_once n (skip_ws s) = Some r ->
                              scan_once (fuel_for s) (skip_ws s) = Some r).
  { intros r H. apply (proj1 (scan_fuel_enough n) _ _ _ H).
    pose proof (skip_ws_length s). unfold fuel_for. lens. }
  split; [exact Henough|].
  intros Hle. destruct (scan_once n (skip_ws s)) as [r|] eqn:E'.
  - symmetry. now apply Henough.
  - destruct (scan_once (fuel_for s) (skip_ws s)) as [r|] eqn:E;
      [|reflexivity].
    pose proof (proj1 (scan_fuel_mono _) _ _ _ E Hle). congruence.
Qed.

(** ** The decoder: a document that starts with a brace or a bracket ends
    with the closing one *)

Lemma skip_digits_rest (s : str) : exists u, s = u ++ skip_digits s.
Proof.
  induction s as [|x s (u & Hu)]; cbn [skip_digits].
  - now exists [].
  - destruct (is_digit x); [|now exists []].
    exists (x :: u). cbn [app]. texts.
Qed.

Lemma integer_rest (s r : str) : integer s = Some r -> exists u, s = u ++ r.
Proof.
  assert (Hdigits : forall s r,
    match s with
    | x :: r0 => if ((49 <=? x) && (x <=? 57))%N then Some (skip_digits r0)
                 else if N.eqb x 48%N then Some r0 else None
    | [] => None
    end = Some r -> exists u, s = u ++ r).
  { intros [|x r0] r'; [discriminate|].
    destruct (skip_digits_rest r0) as (u & Hu).
    destruct ((49 <=? x) && (x <=? 57))%N; [|destruct (N.eqb x 48%N)];
      intros H; inversion H; subst.
    - exists (x :: u). cbn [app]. texts.
    - now exists [x]. }
  unfold integer. destruct s as [|x s1]; [discriminate|].
  destruct (N.eqb x (ch "-")).
  - intros H. apply Hdigits in H as (u & ->). now exists (x :: u).
  - apply (Hdigits (x :: s1)).
Qed.

Lemma fraction_rest (r : str) : exists u, r = u ++ fraction r.
Proof.
  unfold fraction. destruct r as [|p [|d r]]; try now exists [].
  destruct (N.eqb p (ch ".") && is_digit d); [|now exists []].
  destruct (skip_digits_rest r) as (u & Hu).
  exists (p :: d :: u). cbn [app]. texts.
Qed.

Lemma exponent_rest (r : str) : exists u, r = u ++ exponent r.
Proof.
  unfold exponent. destruct r as [|e r1]; [now exists []|].
  destruct (N.eqb e (ch "e") || N.eqb e (ch "E")); [|now exists []].
  destruct r1 as [|sg x]; [now exists []|].
  destruct (N.eqb sg (ch "-") || N.eqb sg (ch "+")).
  - destruct x as [|d r3]; [now exists []|].
    destruct (is_digit d); [|now exists []].
    destruct (skip_digits_rest r3) as (u & Hu).
    exists (e :: sg :: d :: u). cbn [app]. texts.
  - destruct (is_digit sg); [|now exists []].
    destruct (skip_digits_rest x) as (u & Hu).
    exists (e :: sg :: u). cbn [app]. texts.
Qed.

Lemma scan_atom_rest (s r : str) :
  scan_atom s = Some r -> exists u, s = u ++ r.
Proof.
  unfold scan_atom. destruct (match_constant constants s) as [r'|] eqn:E.
  - intros H. inversion H; subst.
    destruct (match_constant_rest _ _ _ E) as (k & _ & ->). now exists k.
  - unfold match_number. destruct (integer s) as [r1|] eqn:Ei; [|discriminate].
    intros H. inversion H; subst.
    destruct (integer_rest _ _ Ei) as (u1 & ->).
    destruct (fraction_rest r1) as (u2 & H2).
    destruct (exponent_rest (fraction r1)) as (u3 & H3).
    exists (u1 ++ u2 ++ u3). rewrite <- !app_assoc. texts.
Qed.

Lemma scanstring_rest :
  forall n s r, length s <= n -> scanstring s = Some r -> exists u, s = u ++ r.
Proof.
  induction n as [|n IH]; intros s r Hlen H;
    destruct s as [|x s1]; cbn [scanstring length] in *;
    try discriminate; try lia.
  destruct (N.eqb x DQUOTE); [inversion H; subst; now exists [x]|].
  destruct (N.eqb x BACKSLASH).
  - destruct s1 as [|e s2]; [discriminate|]. cbn [length] in *.
    destruct (N.eqb e (ch "u")).
    + destruct s2 as [|h1 [|h2 [|h3 [|h4 s3]]]]; try discriminate.
      cbn [length] in *.
      destruct (is_hex h1 && is_hex h2 && is_hex h3 && is_hex h4);
        [|discriminate].
      apply IH in H as (u & ->); [|lia].
      now exists (x :: e :: h1 :: h2 :: h3 :: h4 :: u).
    + destruct (is_escape e); [|discriminate].
      apply IH in H as (u & ->); [|lia]. now exists (x :: e :: u).
  - destruct (x <? 32)%N; [discriminate|].
    apply IH in H as (u & ->); [|lia]. now exists (x :: u).
Qed.

(** What [parse_object] consumes ends with a closing brace, what
    [parse_array] consumes with a closing bracket; so does what [scan_once]
    consumes from a text that starts with the opening one. *)
Lemma scan_closes :
  forall n,
    (forall s r, scan_once n s = Some r ->
       exists u, s = u ++ r
         /\ forall x s', s = x :: s' -> char_in x (lit "[{") = true ->
                         exists u' c, u = u' ++ [c] /\ closer c)
    /\ (forall s r, parse_object n s = Some r ->
                    exists u, s = u ++ ch "}" :: r)
    /\ (forall s r, parse_array n s = Some r ->
                    exists u, s = u ++ ch "]" :: r).
Proof.
  induction n as [|n (IHs & IHo & IHa)].
  - repeat split; intros s r H; discriminate.
  - repeat split; intros s r H.
    + cbn [scan_once] in H. destruct s as [|x s1]; [discriminate|].
      destruct (N.eqb_spec x DQUOTE) as [->|].
      { apply (scanstring_rest (length s1)) in H as (u & ->); [|lia].
        exists (DQUOTE :: u). split; [reflexivity|].
        intros x s' Hx Hc. inversion Hx; subst. discriminate. }
      destruct (skip_ws_rest s1) as (w1 & Hs1 & _).
      destruct (N.eqb_spec x (ch "{")) as [->|Hbrace].
      { destruct (skip_ws s1) as [|d r1]; [discriminate|].
        destruct (N.eqb_spec d (ch "}")) as [->|].
        - inversion H; subst r1.
          exists (ch "{" :: w1 ++ [ch "}"]). split.
          + cbn [app]. rewrite <- app_assoc. cbn [app]. texts.
          + intros _ _ _ _. exists (ch "{" :: w1), (ch "}").
            split; [reflexivity | now right].
        - apply IHo in H as (u & Hu).
          exists (ch "{" :: w1 ++ u ++ [ch "}"]). split.
          + cbn [app]. rewrite <- !app_assoc. cbn [app]. texts.
          + intros _ _ _ _. exists (ch "{" :: w1 ++ u), (ch "}").
            split; [cbn [app]; now rewrite <- app_assoc | now right]. }
      destruct (N.eqb_spec x (ch "[")) as [->|Hbracket].
      { destruct (skip_ws s1) as [|d r1]; [discriminate|].
        destruct (N.eqb_spec d (ch "]")) as [->|].
        - inversion H; subst r1.
          exists (ch "[" :: w1 ++ [ch "]"]). split.
          + cbn [app]. rewrite <- app_assoc. cbn [app]. texts.
          + intros _ _ _ _. exists (ch "[" :: w1), (ch "]").
            split; [reflexivity | now left].
        - apply IHa in H as (u & Hu).
          exists (ch "[" :: w1 ++ u ++ [ch "]"]). split.
          + cbn [app]. rewrite <- !app_assoc. cbn [app]. texts.
          + intros _ _ _ _. exists (ch "[" :: w1 ++ u), (ch "]").
            split; [cbn [app]; now rewrite <- app_assoc | now left]. }
      apply scan_atom_rest in H as (u & Hu). exists u. split; [exact Hu|].
      intros y s' Hy Hc. inversion Hy; subst y.
      unfold char_in in Hc. cbn in Hc.
      rewrite orb_false_r in Hc. apply orb_prop in Hc as [Hc|Hc];
        apply N.eqb_eq in Hc; exfalso;
        [apply Hbracket | apply Hbrace]; exact Hc.
    + cbn [parse_object] in H. destruct s as [|q s1]; [discriminate|].
      destruct (N.eqb q DQUOTE); [|discriminate].
      destruct (scanstring s1) as [r1|] eqn:E1; [|discriminate].
      apply (scanstring_rest (length s1)) in E1 as (u1 & ->); [|lia].
      destruct (skip_ws_rest r1) as (w1 & Hr1 & _).
      destruct (skip_ws r1) as [|col r2]; [discriminate|].
      destruct (N.eqb col (ch ":")); [|discriminate].
      destruct (skip_ws_rest r2) as (w2 & Hr2 & _).
      destruct (scan_once n (skip_ws r2)) as [r3|] eqn:E3; [|discriminate].
      apply IHs in E3 as (u3 & Hu3 & _).
      destruct (skip_ws_rest r3) as (w3 & Hr3 & _).
      destruct (skip_ws r3) as [|d r4]; [discriminate|].
      assert (Hupto : exists u, q :: u1 ++ r1 = u ++ d :: r4).
      { exists (q :: u1 ++ w1 ++ col :: w2 ++ u3 ++ w3).
        cbn [app]. rewrite <- !app_assoc. cbn [app]. rewrite <- !app_assoc.
        texts. }
      destruct Hupto as (u & Hu).
      destruct (N.eqb_spec d (ch "}")) as [->|].
      { inversion H; subst r4. now exists u. }
      destruct (N.eqb d (ch ",")); [|discriminate].
      destruct (skip_ws_rest r4) as (w4 & Hr4 & _).
      apply IHo in H as (u' & Hu').
      exists (u ++ d :: w4 ++ u'). rewrite Hu.
      rewrite <- !app_assoc. cbn [app]. rewrite <- !app_assoc. texts.
    + cbn [parse_array] in H.
      destruct (scan_once n s) as [r1|] eqn:E1; [|discriminate].
      apply IHs in E1 as (u1 & -> & _).
      destruct (skip_ws_rest r1) as (w1 & Hr1 & _).
      destruct (skip_ws r1) as [|d r2]; [discriminate|].
      destruct (N.eqb_spec d (ch "]")) as [->|].
      { inversion H; subst r2. exists (u1 ++ w1).
        rewrite <- app_assoc. texts. }
      destruct (N.eqb d (ch ",")); [|discriminate].
      destruct (skip_ws_rest r2) as (w2 & Hr2 & _).
      apply IHa in H as (u' & Hu').
      exists (u1 ++ w1 ++ d :: w2 ++ u').
      rewrite <- !app_assoc. cbn [app]. rewrite <- !app_assoc. texts.
Qed.


(** ** The quick check *)

Lemma looks_like_json_closer (v : str) :
  looks_like_json v = true ->
  length v <= 1000 ->
  exists c, closer c /\ test_sample v = v ++ [c].
Proof.
  intros Hlook Hlen. unfold test_sample.
  rewrite firstn_all2 by exact Hlen.
  destruct (startswith (strip v) (ch "[")).
  - exists (ch "]"). split; [left|]; reflexivity.
  - exists (ch "}"). split; [right|]; reflexivity.
Qed.

Lemma looks_like_json_first (v : str) :
  looks_like_json v = true ->
  exists first rest, strip v = first :: rest
                     /\ char_in first (lit "[{") = true.
Proof.
  unfold looks_like_json. destruct (strip v) as [|x s]; [discriminate|].
  intros H. exists x, s. split; [reflexivity|].
  cbn [startswith] in H. unfold char_in. cbn [lit existsb map list_ascii_of_string].
  apply orb_prop in H as [H|H]; rewrite H; auto using orb_true_r.
Qed.

(** ** Trimming a decoded document *)

Lemma isspace_range (c : char) :
  isspace c = true -> (c <= 32 \/ 133 <= c)%N.
Proof.
  unfold isspace.
  rewrite !orb_true_iff, !andb_true_iff, !N.leb_le, !N.eqb_eq. lia.
Qed.

Lemma is_ws_isspace (c : char) : is_ws c = true -> isspace c = true.
Proof.
  unfold is_ws. rewrite !orb_true_iff, !N.eqb_eq.
  intros [[[-> | ->] | ->] | ->]; reflexivity.
Qed.

Lemma skip_ws_nil (r : str) : skip_ws r = [] -> forallb isspace r = true.
Proof.
  induction r as [|x r IH]; cbn [skip_ws forallb]; [reflexivity|].
  destruct (is_ws x) eqn:E; [|discriminate].
  intros H. now rewrite (is_ws_isspace x E), IH.
Qed.

Lemma lstrip_spaces (u s : str) :
  forallb isspace u = true -> lstrip (u ++ s) = lstrip s.
Proof.
  induction u as [|x u IH]; cbn [forallb app lstrip]; [reflexivity|].
  intros H. apply andb_prop in H as [Hx Hu]. now rewrite Hx, IH.
Qed.

Lemma rstrip_closed (a r : str) (c : char) :
  isspace c = false -> forallb isspace r = true ->
  rstrip (a ++ c :: r) = a ++ [c].
Proof.
  intros Hc Hr. unfold rstrip.
  rewrite rev_app_distr. cbn [rev]. rewrite <- app_assoc. cbn [app].
  rewrite lstrip_spaces
    by (apply forallb_forall; intros y Hy; apply in_rev in Hy;
        rewrite forallb_forall in Hr; now apply Hr).
  cbn [lstrip]. rewrite Hc. cbn [rev]. now rewrite rev_involutive.
Qed.

Lemma rstrip_head (x : char) (s : str) :
  isspace x = false -> exists t, rstrip (x :: s) = x :: t.
Proof.
  intros Hx. unfold rstrip. cbn [rev].
  assert (Hkeep : forall a, exists b, lstrip (a ++ [x]) = b ++ [x]).
  { induction a as [|y a (b & Hb)]; cbn [app lstrip].
    - rewrite Hx. now exists [].
    - destruct (isspace y); [now exists b | now exists (y :: a)]. }
  destruct (Hkeep (rev s)) as (b & ->).
  rewrite rev_app_distr. cbn [rev app]. now exists (rev b).
Qed.

(** The first character of a value is not one that [strip] removes. *)
Lemma scan_first_not_space (n : nat) (x : char) (s r : str) :
  scan_once n (x :: s) = Some r -> isspace x = false.
Proof.
  destruct n as [|n]; [discriminate|]. cbn [scan_once].
  destruct (N.eqb_spec x DQUOTE) as [->|_]; [reflexivity|].
  destruct (N.eqb_spec x (ch "{")) as [->|_]; [reflexivity|].
  destruct (N.eqb_spec x (ch "[")) as [->|_]; [reflexivity|].
  unfold scan_atom.
  destruct (match_constant constants (x :: s)) as [r'|] eqn:E.
  - intros _. destruct (match_constant_rest _ _ _ E) as (k & Hk & Hs).
    cbn [constants In] in Hk.
    destruct Hk as [<-|[<-|[<-|[<-|[<-|[<-|[]]]]]]];
      inversion Hs; reflexivity.
  - unfold match_number, integer.
    destruct (N.eqb_spec x (ch "-")) as [->|_]; [reflexivity|].
    intros H. destruct (isspace x) eqn:Hsp; [|reflexivity].
    apply isspace_range in Hsp.
    destruct ((49 <=? x) && (x <=? 57))%N eqn:Hd.
    + apply andb_prop in Hd as [H1 H2].
      apply N.leb_le in H1. apply N.leb_le in H2. lia.
    + destruct (N.eqb_spec x 48%N) as [->|]; [lia | discriminate].
Qed.

(** A document that decodes and starts, once trimmed, with a brace or a
    bracket, ends, once trimmed, with a closing one. *)
Lemma loads_first_and_last (v : str) :
  loads v = Normal tt ->
  looks_like_json v = true ->
  exists first rest,
    strip v = first :: rest
    /\ char_in first (lit "[{") = true
    /\ char_in (last (strip v) first) (lit "]}") = true.
Proof.
  intros Hv Hlook.
  destruct (looks_like_json_first v Hlook) as (first & rest & Hs & Hfirst).
  exists first, rest. split; [exact Hs|]. split; [exact Hfirst|].
  unfold loads in Hv.
  destruct (scan_once (fuel_for v) (skip_ws v)) as [r|] eqn:E; [|discriminate].
  destruct (skip_ws r) as [|y r'] eqn:Er; [|discriminate].
  apply skip_ws_nil in Er.
  destruct (skip_ws_rest v) as (u0 & Hu0 & Hws0).
  assert (Hsp0 : forallb isspace u0 = true).
  { apply forallb_forall. intros c Hin. apply is_ws_isspace.
    rewrite forallb_forall in Hws0. now apply Hws0. }
  destruct (skip_ws v) as [|x s] eqn:Esk.
  { destruct (fuel_for v); discriminate. }
  pose proof (scan_first_not_space _ _ _ _ E) as Hx.
  assert (Hstrip : strip v = rstrip (x :: s)).
  { unfold strip. rewrite Hu0, lstrip_spaces by exact Hsp0.
    cbn [lstrip]. now rewrite Hx. }
  destruct (rstrip_head x s Hx) as (t & Ht).
  assert (first = x) by (rewrite Hstrip, Ht in Hs; now inversion Hs).
  subst first.
  destruct (proj1 (scan_closes _) _ _ E) as (u & Hu & Hclose).
  destruct (Hclose x s eq_refl Hfirst) as (u' & c & -> & Hc).
  rewrite Hstrip, Hu, <- app_assoc. cbn [app].
  rewrite rstrip_closed.
  - rewrite last_last. destruct Hc as [-> | ->]; reflexivity.
  - destruct Hc as [-> | ->]; reflexivity.
  - exact Er.
Qed.

(** ** The claims *)

(** *** C1 *)

(** C1. For every parsed row with at least one field, the JSON column that
    both extractors use is the field of greatest length, the first one
    among those of that length, and no other field is: it is what
    [extract_single_row] writes to the output path when the row is its
    target, and what the loop of [extract_all_rows] writes to the file of
    the row. *)
Theorem json_column_is_first_longest {RT : Runtime} (r : row) :
  r <> [] ->
  exists i,
    first_longest r i (json_column_of r)
    /\ (forall j g, first_longest r j g -> j = i /\ g = json_column_of r)
    /\ (forall file_path output_path n w text,
          files w file_path = Regular text ->
          (1 <= n)%Z ->
          nth_error (rows_of (csv_reader text)) (Z.to_nat (n - 1)) = Some r ->
          json_column_of r <> [] ->
          files w output_path <> Locked ->
          files (snd (extract_single_row file_path output_path n w)) output_path
          = Regular (json_column_of r))
    /\ (forall dir base n counts w,
          skipped r = false ->
          files w (path_join dir (row_file_name base n)) <> Locked ->
          files (snd (all_rows_body dir base n r counts w))
            (path_join dir (row_file_name base n))
          = Regular (json_column_of r)).
Proof.
  intros Hr. destruct r as [|f tl]; [contradiction|].
  destruct (max_by_len_first_longest tl f) as [i Hi].
  exists i. split; [exact Hi|]. split; [|split].
  - intros j g Hg. destruct (first_longest_unique _ _ _ _ _ Hg Hi). auto.
  - intros file_path output_path n w text Hf Hn Hnth Hjc Hw.
    rewrite (extract_single_row_at_target _ _ _ _ _ _ Hf Hn Hnth).
    unfold try_except.
    rewrite extract_target_writes by (assumption || discriminate).
    cbn [snd files]. apply update_same.
  - intros dir base n [e s] w Hs Hw.
    rewrite all_rows_body_extracts by assumption.
    cbn [snd files]. apply update_same.
Qed.

Lemma json_column_is_first_longest_witness :
  tie_row <> []
  /\ exists i,
      first_longest tie_row i (lit "[1,2]")
      /\ files (snd (extract_single_row
                       (RT := cpython (fun _ => reader_of [tie_row]))
                       in_csv out_json 1 start)) out_json
         = Regular (lit "[1,2]").
Proof.
  split; [discriminate|].
  destruct (json_column_is_first_longest
              (RT := cpython (fun _ => reader_of [tie_row])) tie_row)
    as (i & Hi & _ & Hsingle & _); [discriminate|].
  exists i. split; [exact Hi|].
  apply (Hsingle in_csv out_json 1%Z start (lit "csv"));
    solve [reflexivity | discriminate | lia].
Defined.

(** *** C2 *)

Lemma filter_length_pos {A} (P : A -> bool) (l : list A) :
  (0 <? Z.of_nat (length (filter P l)))%Z = true
  <-> exists x, In x l /\ P x = true.
Proof.
  rewrite Z.ltb_lt. split.
  - intros H. destruct (filter P l) as [|x l'] eqn:E; [simpl in H; lia|].
    exists x. apply filter_In. rewrite E. left. reflexivity.
  - intros (x & Hx & HP).
    assert (In x (filter P l)) as Hin by (apply filter_In; auto).
    destruct (filter P l); [contradiction | simpl; lia].
Qed.

(** The claim fails on a run that an exception ends after a row was
    extracted: the extractor returns failure although a row was extracted,
    and the file of that row has been written. *)
Lemma all_rows_failure_after_extraction :
  fst (extract_all_rows (RT := cpython (fun _ => broken_reader))
         in_csv (lit "out/data") start) = Normal false
  /\ files start (lit "out/data_row_001.json") = Absent
  /\ files (snd (extract_all_rows (RT := cpython (fun _ => broken_reader))
                   in_csv (lit "out/data") start))
       (lit "out/data_row_001.json") = Regular (lit "[1,2]")
  /\ console (snd (extract_all_rows (RT := cpython (fun _ => broken_reader))
                     in_csv (lit "out/data") start))
     = [MsgExtractingAll; MsgRule;
        MsgRowWritten 1 5 (lit "data_row_001.json"); MsgMayNotBeValid;
        MsgErrorExtractingRows CsvError].
Proof. repeat split; vm_compute; reflexivity. Qed.

(** C2, amended.  [extract_all_rows] returns success exactly when its run
    raised no exception and at least one row was extracted.  It returns
    failure, with no file written, when every row is empty or too short.
    It returns failure when an exception ends the run; the files are then
    as the exception left them. *)
Theorem all_rows_success {RT : Runtime} (file_path output_prefix : path)
    (w : world) :
  (forall counts w',
      all_rows_attempt file_path output_prefix
        (log w [MsgExtractingAll; MsgRule]) = (Normal counts, w') ->
      exists text,
        files w file_path = Regular text
        /\ (fst (extract_all_rows file_path output_prefix w) = Normal true
            <-> exists r, In r (rows_of (csv_reader text))
                          /\ skipped r = false))
  /\ (forall e w',
         all_rows_attempt file_path output_prefix
           (log w [MsgExtractingAll; MsgRule]) = (Raised e, w') ->
         fst (extract_all_rows file_path output_prefix w) = Normal false
         /\ files (snd (extract_all_rows file_path output_prefix w)) = files w')
  /\ (forall text,
         files w file_path = Regular text ->
         (forall r, In r (rows_of (csv_reader text)) -> skipped r = true) ->
         fst (extract_all_rows file_path output_prefix w) = Normal false
         /\ files (snd (extract_all_rows file_path output_prefix w)) = files w).
Proof.
  split; [|split].
  - intros [e s] w' Hrun. rewrite extract_all_rows_run, Hrun. cbn [fst].
    destruct (files w file_path) as [|text|] eqn:Hf;
      try (rewrite all_rows_attempt_unreadable in Hrun
             by (cbn [files log]; congruence); discriminate).
    exists text. split; [reflexivity|].
    rewrite (all_rows_attempt_opened _ _ _ text) in Hrun by exact Hf.
    apply all_rows_loop_counts in Hrun as (_ & -> & _).
    rewrite Z.add_0_l. split.
    + intros H. inversion H as [H0]. apply filter_length_pos in H0.
      destruct H0 as (r & Hr & Hs). exists r.
      split; [exact Hr | now apply negb_true_iff].
    + intros (r & Hr & Hs). f_equal. apply filter_length_pos.
      exists r. split; [exact Hr | now rewrite Hs].
  - intros e w' Hrun. rewrite extract_all_rows_run, Hrun. split; reflexivity.
  - intros text Hf Hall. rewrite extract_all_rows_run.
    rewrite (all_rows_attempt_opened _ _ _ text) by exact Hf.
    destruct (all_rows_loop_all_skipped (path_parent output_prefix)
                (path_stem output_prefix) (csv_reader text) 1%Z (0%Z, 0%Z)
                (log w [MsgExtractingAll; MsgRule]) Hall) as [Hfiles Hcount].
    destruct (all_rows_loop _ _ _ _ _ _) as [[[e s]|ex] w'] eqn:Hrun.
    + rewrite (Hcount e s w' eq_refl). split; [reflexivity | exact Hfiles].
    + split; [reflexivity | exact Hfiles].
Qed.

Lemma all_rows_success_witness :
  fst (extract_all_rows (RT := cpython (fun _ => reader_of mixed_rows))
         in_csv (lit "out/data") start) = Normal true
  /\ fst (extract_all_rows (RT := cpython (fun _ => broken_reader))
            in_csv (lit "out/data") start) = Normal false
  /\ (fst (extract_all_rows
             (RT := cpython (fun _ => reader_of [[]; [lit " "]]))
             in_csv (lit "out/data") start) = Normal false
      /\ files (snd (extract_all_rows
                       (RT := cpython (fun _ => reader_of [[]; [lit " "]]))
                       in_csv (lit "out/data") start)) = files start).
Proof.
  split; [|split].
  - destruct (all_rows_success
                (RT := cpython (fun _ => reader_of mixed_rows))
                in_csv (lit "out/data") start) as (Hnormal & _ & _).
    destruct (all_rows_attempt
                (RT := cpython (fun _ => reader_of mixed_rows))
                in_csv (lit "out/data")
                (log start [MsgExtractingAll; MsgRule]))
      as [[counts|e] w'] eqn:Hrun.
    + destruct (Hnormal counts w' eq_refl) as (text & _ & Hiff).
      apply Hiff. exists tie_row. split; [left; reflexivity | reflexivity].
    + apply (f_equal fst) in Hrun. vm_compute in Hrun. discriminate.
  - destruct (all_rows_success
                (RT := cpython (fun _ => broken_reader))
                in_csv (lit "out/data") start) as (_ & Hraised & _).
    destruct (all_rows_attempt
                (RT := cpython (fun _ => broken_reader))
                in_csv (lit "out/data")
                (log start [MsgExtractingAll; MsgRule]))
      as [[counts|e] w'] eqn:Hrun.
    + apply (f_equal fst) in Hrun. vm_compute in Hrun. discriminate.
    + apply (Hraised e w' eq_refl).
  - destruct (all_rows_success
                (RT := cpython (fun _ => reader_of [[]; [lit " "]]))
                in_csv (lit "out/data") start) as (_ & _ & Hskipped).
    apply (Hskipped (lit "csv")); [reflexivity|].
    intros r [<-|[<-|[]]]; reflexivity.
Defined.

(** *** C3 *)

(** The claim fails on a target row whose longest field is blank: the
    field is empty once trimmed, and the extractor writes it and returns
    success. *)
Lemma single_row_blank_field_succeeds :
  strip (json_column_of blank_row) = []
  /\ fst (extract_single_row (RT := cpython (fun _ => reader_of [blank_row]))
            in_csv out_json 1 start) = Normal true
  /\ files (snd (extract_single_row
                   (RT := cpython (fun _ => reader_of [blank_row]))
                   in_csv out_json 1 start)) out_json
     = Regular (lit "  ").
Proof. repeat split; vm_compute; reflexivity. Qed.

(** C3, amended.  At its target row, [extract_single_row] reports and
    returns failure when the row has no field, and when the longest field
    is the empty string (the field is not trimmed for this test).
    Otherwise, the output path being one that can be opened for writing, it
    writes the field as it is to the output path, changes no other file,
    and returns success. *)
Theorem single_row_at_target {RT : Runtime} (file_path output_path : path)
    (n : Z) (w : world) (text : str) (r : row) :
  files w file_path = Regular text ->
  (1 <= n)%Z ->
  nth_error (rows_of (csv_reader text)) (Z.to_nat (n - 1)) = Some r ->
  (r = [] ->
   extract_single_row file_path output_path n w =
   (Normal false, log w [MsgExtractingRow n; MsgRule; MsgRowIsEmpty n]))
  /\ (r <> [] -> json_column_of r = [] ->
      extract_single_row file_path output_path n w =
      (Normal false, log w [MsgExtractingRow n; MsgRule; MsgNoDataFound n]))
  /\ (r <> [] -> json_column_of r <> [] -> files w output_path <> Locked ->
      fst (extract_single_row file_path output_path n w) = Normal true
      /\ files (snd (extract_single_row file_path output_path n w)) output_path
         = Regular (json_column_of r)
      /\ forall q, q <> output_path ->
                   files (snd (extract_single_row file_path output_path n w)) q
                   = files w q).
Proof.
  intros Hf Hn Hnth.
  rewrite (extract_single_row_at_target _ _ _ _ _ _ Hf Hn Hnth).
  unfold try_except. split; [|split].
  - intros ->. cbn [extract_target]. unfold bind. rewrite print_run, log_log.
    reflexivity.
  - intros Hr Hjc. rewrite extract_target_no_data by assumption.
    rewrite log_log. reflexivity.
  - intros Hr Hjc Hw. rewrite extract_target_writes by assumption.
    cbn [fst snd files log]. split; [reflexivity|]. split.
    + apply update_same.
    + intros q Hq. now apply update_other.
Qed.

Lemma single_row_at_target_witness :
  extract_single_row (RT := cpython (fun _ => reader_of [[]]))
    in_csv out_json 1 start
  = (Normal false, log start [MsgExtractingRow 1; MsgRule; MsgRowIsEmpty 1])
  /\ extract_single_row (RT := cpython (fun _ => reader_of [[[]; []]]))
       in_csv out_json 1 start
     = (Normal false, log start [MsgExtractingRow 1; MsgRule; MsgNoDataFound 1])
  /\ files (snd (extract_single_row
                   (RT := cpython (fun _ => reader_of [blank_row]))
                   in_csv out_json 1 start)) out_json
     = Regular (lit "  ").
Proof.
  split; [|split].
  - apply (single_row_at_target (RT := cpython (fun _ => reader_of [[]]))
             in_csv out_json 1%Z start (lit "csv") []);
      solve [reflexivity | lia].
  - apply (single_row_at_target (RT := cpython (fun _ => reader_of [[[]; []]]))
             in_csv out_json 1%Z start (lit "csv") [[]; []]);
      solve [reflexivity | lia | discriminate].
  - apply (single_row_at_target (RT := cpython (fun _ => reader_of [blank_row]))
             in_csv out_json 1%Z start (lit "csv") blank_row);
      solve [reflexivity | lia | discriminate].
Defined.

(** *** C4 *)

(** C4, on a file without any record.  The loop never assigns
    [current_row_num], the report that reads it raises, and the handler
    prints that error: the extractor returns failure, and no line says how
    many records the file has. *)
Theorem single_row_no_record_no_count {RT : Runtime}
    (file_path output_path : path) (n : Z) (w : world) (text : str) :
  files w file_path = Regular text ->
  csv_reader text = Done ->
  records (csv_reader text) = 0
  /\ extract_single_row file_path output_path n w =
     (Normal false,
      log w [MsgExtractingRow n; MsgRule;
             MsgErrorExtractingRow (UnboundLocalError "current_row_num")])
  /\ forall k, ~ In (MsgFileOnlyHas k n)
                 [MsgExtractingRow n; MsgRule;
                  MsgErrorExtractingRow (UnboundLocalError "current_row_num")].
Proof.
  intros Hf Hd. split; [now rewrite Hd|]. split.
  - now apply extract_single_row_no_record with (text := text).
  - intros k [H|[H|[H|[]]]]; discriminate.
Qed.

Lemma single_row_no_record_no_count_witness :
  extract_single_row (RT := cpython (fun _ => Done)) in_csv out_json 1 start =
  (Normal false,
   log start [MsgExtractingRow 1; MsgRule;
              MsgErrorExtractingRow (UnboundLocalError "current_row_num")]).
Proof.
  apply (single_row_no_record_no_count (RT := cpython (fun _ => Done))
           in_csv out_json 1%Z start (lit "csv")); reflexivity.
Defined.

(** *** C5 *)

Lemma full_parse_outcome {RT : Runtime} (content : str) (w : world) :
  fst (try_except (full_parse content)
         (fun e => print (MsgErrorReadingFile e);; ret false) w)
  = match json_loads content with
    | Normal _ => Normal true
    | Raised _ => Normal false
    end.
Proof.
  unfold try_except.
  destruct (json_loads content) as [[]|e] eqn:E.
  - now rewrite full_parse_valid.
  - destruct e as [d| | | |];
      try (now rewrite (full_parse_decode_error _ d));
      unfold full_parse, try_except_decode, bind, lift; rewrite E;
      reflexivity.
Qed.

(** C5. When the first character of the trimmed content is neither a brace
    nor a bracket, the validator reports it and returns failure.  When the
    first character is one of them and the last is not a closing one, the
    validator prints the warning and goes on to the parse: its result is the
    one the parse gives, success if [json.loads] returns. *)
Theorem validate_first_and_last_char {RT : Runtime} (json_file : path)
    (w : world) (content : str) (first : char) (rest : str) :
  files w json_file = Regular content ->
  strip content = first :: rest ->
  (char_in first (lit "[{") = false ->
   validate_json_file json_file w =
   (Normal false, log w [MsgValidating json_file; MsgBadStart first]))
  /\ (char_in first (lit "[{") = true ->
      char_in (last (strip content) first) (lit "]}") = false ->
      validate_json_file json_file w =
      try_except (full_parse content)
        (fun e => print (MsgErrorReadingFile e);; ret false)
        (log w [MsgValidating json_file;
                MsgBadEnd (last (strip content) first)])
      /\ fst (validate_json_file json_file w)
         = match json_loads content with
           | Normal _ => Normal true
           | Raised _ => Normal false
           end).
Proof.
  intros Hf Hs. split.
  - intros Hc. exact (validate_json_file_bad_start _ _ _ _ _ Hf Hs Hc).
  - intros Hc Hl.
    rewrite (validate_json_file_parses _ _ _ _ _ Hf Hs Hc), Hl.
    split; [reflexivity | apply full_parse_outcome].
Qed.

Lemma validate_first_and_last_char_witness :
  validate_json_file (RT := cpython (fun _ => Done)) out_json
    (written (lit " 12]"))
  = (Normal false,
     log (written (lit " 12]")) [MsgValidating out_json; MsgBadStart (ch "1")])
  /\ fst (validate_json_file (RT := cpython (fun _ => Done)) out_json
            (written unclosed_object))
     = Normal false.
Proof.
  split.
  - apply (validate_first_and_last_char (RT := cpython (fun _ => Done))
             out_json (written (lit " 12]")) (lit " 12]") (ch "1") (lit "2]"));
      reflexivity.
  - destruct (validate_first_and_last_char (RT := cpython (fun _ => Done))
                out_json (written unclosed_object) unclosed_object (ch "{")
                (quoted (lit "a") ++ lit ": 1") eq_refl eq_refl)
      as [_ Hlast].
    destruct (Hlast eq_refl eq_refl) as [_ Hfst].
    rewrite Hfst. reflexivity.
Defined.

(** *** C6 *)

Lemma strip_repeat (c : char) (n : nat) :
  isspace c = false -> strip (repeat c n) = repeat c n.
Proof.
  intros Hc.
  assert (Hl : lstrip (repeat c n) = repeat c n)
    by (destruct n; cbn [repeat lstrip]; [|rewrite Hc]; reflexivity).
  unfold strip, rstrip. now rewrite Hl, rev_repeat, Hl, rev_repeat.
Qed.

(** A parse that raises something else than a decode error is left to the
    handler of the whole function. *)
Lemma validate_json_file_not_decode {RT : Runtime} (json_file : path)
    (w : world) (content : str) (first : char) (rest : str) (e : exn) :
  files w json_file = Regular content ->
  strip content = first :: rest ->
  char_in first (lit "[{") = true ->
  json_loads content = Raised e ->
  (forall d, e <> JSONDecodeError d) ->
  validate_json_file json_file w =
  (Normal false,
   log w
     (MsgValidating json_file
      :: (if char_in (last (strip content) first) (lit "]}") then []
          else [MsgBadEnd (last (strip content) first)])
      ++ [MsgErrorReadingFile e])).
Proof.
  intros Hf Hs Hc He Hother.
  rewrite (validate_json_file_parses _ _ _ _ _ Hf Hs Hc).
  unfold try_except.
  assert (Hparse : forall w1, full_parse content w1 = (Raised e, w1)).
  { intros w1. unfold full_parse, try_except_decode, bind, lift.
    rewrite He. destruct e as [d| | | |]; try reflexivity.
    now destruct (Hother d). }
  rewrite Hparse. unfold bind. rewrite print_run, log_log. reflexivity.
Qed.

(** The claim fails on a parse that fails otherwise than by a decode
    error: on a text nested deeper than the interpreter allows,
    [json.loads] raises [RecursionError], which the handler of the parse
    does not catch.  The validator then reports an error of reading, with
    no parse error and no difference, although the brackets differ by a
    hundred thousand. *)
Lemma validate_parse_failure_not_decode :
  loads_limited deep_array = Raised RecursionError
  /\ (count deep_array (ch "[") - count deep_array (ch "]") = 100000)%Z
  /\ validate_json_file (RT := cpython_limited (fun _ => Done)) out_json
       (written deep_array)
     = (Normal false,
        log (written deep_array)
          [MsgValidating out_json; MsgBadEnd (ch "[");
           MsgErrorReadingFile RecursionError]).
Proof.
  assert (Hloads : loads_limited deep_array = Raised RecursionError)
    by (vm_compute; reflexivity).
  assert (Hstrip : strip deep_array = deep_array)
    by (apply strip_repeat; reflexivity).
  assert (Hhead : deep_array = ch "[" :: repeat (ch "[") (N.to_nat 99999)).
  { unfold deep_array.
    replace (N.to_nat 100000) with (S (N.to_nat 99999)) by lia.
    reflexivity. }
  assert (Hlast : last deep_array (ch "[") = ch "[")
    by (vm_compute; reflexivity).
  split; [exact Hloads|]. split; [vm_compute; reflexivity|].
  rewrite (validate_json_file_not_decode (RT := cpython_limited (fun _ => Done))
             out_json (written deep_array) deep_array (ch "[")
             (repeat (ch "[") (N.to_nat 99999)) RecursionError).
  - rewrite Hstrip, Hlast. reflexivity.
  - reflexivity.
  - rewrite Hstrip. exact Hhead.
  - reflexivity.
  - exact Hloads.
  - discriminate.
Qed.

(** C6, amended.  When [json.loads] raises a decode error, the validator
    reports it, then the difference between opening and closing braces if
    it is not zero, then the one between brackets if it is not zero, and
    returns failure in every case.  On the unclosed object the differences
    are 1 and 0, and the braces alone are reported.  When [json.loads]
    raises another exception, the validator reports that exception as an
    error of reading and returns failure; it reports no parse error and no
    difference. *)
Theorem validate_parse_failure :
  (forall (RT : Runtime) (json_file : path) (w : world) (content : str)
          (first : char) (rest : str) (d : json_error),
      files w json_file = Regular content ->
      strip content = first :: rest ->
      char_in first (lit "[{") = true ->
      json_loads content = Raised (JSONDecodeError d) ->
      let open_braces := (count content (ch "{") - count content (ch "}"))%Z in
      let open_brackets := (count content (ch "[") - count content (ch "]"))%Z in
      validate_json_file json_file w =
      (Normal false,
       log w
         (MsgValidating json_file
          :: (if char_in (last (strip content) first) (lit "]}") then []
              else [MsgBadEnd (last (strip content) first)])
          ++ MsgParseError d
          :: (if (open_braces =? 0)%Z then []
              else [MsgUnmatchedBraces open_braces])
          ++ (if (open_brackets =? 0)%Z then []
              else [MsgUnmatchedBrackets open_brackets]))))
  /\ (JSON.loads unclosed_object = Raised (JSONDecodeError Malformed)
      /\ (count unclosed_object (ch "{") - count unclosed_object (ch "}") = 1)%Z
      /\ (count unclosed_object (ch "[") - count unclosed_object (ch "]") = 0)%Z
      /\ validate_json_file (RT := cpython (fun _ => Done)) out_json
           (written unclosed_object)
         = (Normal false,
            log (written unclosed_object)
              [MsgValidating out_json; MsgBadEnd (ch "1");
               MsgParseError Malformed; MsgUnmatchedBraces 1]))
  /\ (forall (RT : Runtime) (json_file : path) (w : world) (content : str)
             (first : char) (rest : str) (e : exn),
         files w json_file = Regular content ->
         strip content = first :: rest ->
         char_in first (lit "[{") = true ->
         json_loads content = Raised e ->
         (forall d, e <> JSONDecodeError d) ->
         validate_json_file json_file w =
         (Normal false,
          log w
            (MsgValidating json_file
             :: (if char_in (last (strip content) first) (lit "]}") then []
                 else [MsgBadEnd (last (strip content) first)])
             ++ [MsgErrorReadingFile e]))).
Proof.
  assert (Hgeneral :
    forall (RT : Runtime) (json_file : path) (w : world) (content : str)
           (first : char) (rest : str) (d : json_error),
      files w json_file = Regular content ->
      strip content = first :: rest ->
      char_in first (lit "[{") = true ->
      json_loads content = Raised (JSONDecodeError d) ->
      validate_json_file json_file w =
      (Normal false,
       log w
         (MsgValidating json_file
          :: (if char_in (last (strip content) first) (lit "]}") then []
              else [MsgBadEnd (last (strip content) first)])
          ++ MsgParseError d
          :: (if (count content (ch "{") - count content (ch "}") =? 0)%Z
              then []
              else [MsgUnmatchedBraces
                      (count content (ch "{") - count content (ch "}"))])
          ++ (if (count content (ch "[") - count content (ch "]") =? 0)%Z
              then []
              else [MsgUnmatchedBrackets
                      (count content (ch "[") - count content (ch "]"))])))).
  { intros RT json_file w content first rest d Hf Hs Hc Hd.
    rewrite (validate_json_file_parses _ _ _ _ _ Hf Hs Hc).
    unfold try_except.
    rewrite (full_parse_decode_error _ d) by exact Hd.
    rewrite log_log. reflexivity. }
  split; [exact Hgeneral|]. split.
  - split; [reflexivity|]. split; [reflexivity|]. split; [reflexivity|].
    apply (Hgeneral (cpython (fun _ => Done)) out_json
             (written unclosed_object) unclosed_object (ch "{")
             (quoted (lit "a") ++ lit ": 1") Malformed);
      reflexivity.
  - intros RT json_file w content first rest e.
    apply validate_json_file_not_decode.
Qed.

Lemma validate_parse_failure_witness :
  validate_json_file (RT := cpython (fun _ => Done)) out_json
    (written (lit "[1,"))
  = (Normal false,
     log (written (lit "[1,"))
       [MsgValidating out_json; MsgBadEnd (ch ","); MsgParseError Malformed;
        MsgUnmatchedBrackets 1]).
Proof.
  apply (proj1 validate_parse_failure (cpython (fun _ => Done)) out_json
           (written (lit "[1,")) (lit "[1,") (ch "[") (lit "1,") Malformed);
    reflexivity.
Defined.

(** *** C7 *)

Lemma startswith_brace_not_bracket (s : str) :
  startswith s (ch "{") = true -> startswith s (ch "[") = false.
Proof.
  destruct s as [|x s]; [discriminate|]. cbn [startswith].
  intros H. apply N.eqb_eq in H. subst x. reflexivity.
Qed.

(** C7. For a value whose trimmed form starts with a bracket the probe is
    the first 1000 characters of the value and a closing bracket; with a
    brace, a closing brace.  The probe is given to [json.loads]: when it
    returns the value is reported as valid, when it raises, as possibly not
    valid.  Whatever [json.loads] does, the field is written and the row
    counts as extracted. *)
Theorem probe_is_advisory {RT : Runtime} (v : str) :
  looks_like_json v = true ->
  (startswith (strip v) (ch "[") = true ->
   test_sample v = firstn 1000 v ++ lit "]")
  /\ (startswith (strip v) (ch "{") = true ->
      test_sample v = firstn 1000 v ++ lit "}")
  /\ (forall w,
         quick_validation v w =
         (Normal tt,
          log w [match json_loads (test_sample v) with
                 | Normal _ => MsgStructureAppearsValid
                 | Raised _ => MsgValidationFailed
                 end]))
  /\ is_valid v = match json_loads (test_sample v) with
                  | Normal _ => true
                  | Raised _ => false
                  end
  /\ (forall file_path output_path n w text r,
         files w file_path = Regular text ->
         (1 <= n)%Z ->
         nth_error (rows_of (csv_reader text)) (Z.to_nat (n - 1)) = Some r ->
         json_column_of r = v ->
         files w output_path <> Locked ->
         extract_single_row file_path output_path n w =
         (Normal true,
          World (update (files w) output_path (Regular v))
            (console w ++
             [MsgExtractingRow n; MsgRule; MsgFoundData (length v);
              MsgSaved output_path;
              match json_loads (test_sample v) with
              | Normal _ => MsgStructureAppearsValid
              | Raised _ => MsgValidationFailed
              end])))
  /\ (forall dir base n e s w r,
         json_column_of r = v ->
         skipped r = false ->
         files w (path_join dir (row_file_name base n)) <> Locked ->
         all_rows_body dir base n r (e, s) w =
         (Normal ((e + 1)%Z, s),
          World (update (files w) (path_join dir (row_file_name base n))
                   (Regular v))
            (console w ++
             [MsgRowWritten n (length v) (row_file_name base n);
              match json_loads (test_sample v) with
              | Normal _ => MsgValidStructure
              | Raised _ => MsgMayNotBeValid
              end]))).
Proof.
  intros Hlook.
  assert (Hv : v <> []).
  { intros ->. discriminate. }
  split; [|split; [|split; [|split; [|split]]]].
  - intros H. unfold test_sample. now rewrite H.
  - intros H. unfold test_sample.
    now rewrite (startswith_brace_not_bracket _ H).
  - intros w. rewrite quick_validation_run, Hlook. reflexivity.
  - unfold is_valid. now rewrite Hlook.
  - intros file_path output_path n w text r Hf Hn Hnth Hjc Hw.
    rewrite (extract_single_row_at_target _ _ _ _ _ _ Hf Hn Hnth).
    unfold try_except.
    assert (Hr : r <> []) by (intros ->; apply Hv; now rewrite <- Hjc).
    rewrite extract_target_writes by (rewrite ?Hjc; assumption).
    rewrite Hjc, Hlook. cbn [log files console].
    rewrite <- app_assoc. reflexivity.
  - intros dir base n e s w r Hjc Hs Hw.
    rewrite all_rows_body_extracts by assumption.
    rewrite Hjc. unfold is_valid. rewrite Hlook.
    destruct (json_loads (test_sample v)); reflexivity.
Qed.

Lemma probe_is_advisory_witness :
  looks_like_json (lit "[1,2]") = true
  /\ test_sample (lit "[1,2]") = lit "[1,2]]"
  /\ fst (extract_single_row (RT := cpython (fun _ => reader_of [tie_row]))
            in_csv out_json 1 start) = Normal true.
Proof.
  destruct (probe_is_advisory (RT := cpython (fun _ => reader_of [tie_row]))
              (lit "[1,2]") eq_refl) as (Hbracket & _ & _ & _ & Hsingle & _).
  split; [reflexivity|]. split.
  - rewrite (Hbracket eq_refl). reflexivity.
  - rewrite (Hsingle in_csv out_json 1%Z start (lit "csv") tie_row eq_refl
               ltac:(lia) eq_refl eq_refl ltac:(discriminate)).
    reflexivity.
Defined.

(** *** C8 *)

(** C8. On a row without fields, [extract_single_row] aimed at that row
    reports the empty row and returns failure, and the loop of
    [extract_all_rows] prints the notice, adds one to the skipped counter,
    leaves the extracted counter and writes no file. *)
Theorem empty_row_is_rejected {RT : Runtime} :
  (forall file_path output_path n w text,
      files w file_path = Regular text ->
      (1 <= n)%Z ->
      nth_error (rows_of (csv_reader text)) (Z.to_nat (n - 1)) = Some [] ->
      extract_single_row file_path output_path n w =
      (Normal false, log w [MsgExtractingRow n; MsgRule; MsgRowIsEmpty n]))
  /\ (forall dir base n e s w,
         all_rows_body dir base n [] (e, s) w =
         (Normal (e, (s + 1)%Z), log w [MsgRowEmptySkipping n])
         /\ files (snd (all_rows_body dir base n [] (e, s) w)) = files w).
Proof.
  split.
  - intros file_path output_path n w text Hf Hn Hnth.
    rewrite (extract_single_row_at_target _ _ _ _ _ _ Hf Hn Hnth).
    unfold try_except. cbn [extract_target]. unfold bind.
    rewrite print_run, log_log. reflexivity.
  - intros dir base n e s w. split; reflexivity.
Qed.

Lemma empty_row_is_rejected_witness :
  extract_single_row (RT := cpython (fun _ => reader_of mixed_rows))
    in_csv out_json 2 start
  = (Normal false, log start [MsgExtractingRow 2; MsgRule; MsgRowIsEmpty 2]).
Proof.
  apply (proj1 (empty_row_is_rejected
                  (RT := cpython (fun _ => reader_of mixed_rows)))
           in_csv out_json 2%Z start (lit "csv"));
    solve [reflexivity | lia].
Defined.

(** *** C9 *)

(** C9. A field of at most 1000 characters that is a complete document,
    starting with a brace or a bracket once trimmed, does not pass the
    quick check: the probe is the document and a closing character, and the
    decoder finds that character after the value.  Both extractors report
    that the value may not be valid, and the validator, reading the same
    content, reports that it is valid, without any warning. *)
Theorem complete_document_fails_probe (rd : str -> reader) (v : str) :
  JSON.loads v = Normal tt ->
  length v <= 1000 ->
  looks_like_json v = true ->
  JSON.loads (test_sample v) = Raised (JSONDecodeError ExtraData)
  /\ (forall w, quick_validation (RT := cpython rd) v w
                = (Normal tt, log w [MsgValidationFailed]))
  /\ is_valid (RT := cpython rd) v = false
  /\ (forall json_file w,
         files w json_file = Regular v ->
         validate_json_file (RT := cpython rd) json_file w
         = (Normal true, log w [MsgValidating json_file; MsgValidJson])).
Proof.
  intros Hv Hlen Hlook.
  destruct (looks_like_json_closer v Hlook Hlen) as (c & Hc & Hprobe).
  assert (Hextra : JSON.loads (test_sample v)
                   = Raised (JSONDecodeError ExtraData))
    by (rewrite Hprobe; now apply loads_closer_extra_data).
  split; [exact Hextra|]. split; [|split].
  - intros w. rewrite quick_validation_run, Hlook.
    cbn [json_loads cpython]. now rewrite Hextra.
  - unfold is_valid. rewrite Hlook. cbn [json_loads cpython].
    now rewrite Hextra.
  - intros json_file w Hf.
    destruct (loads_first_and_last v Hv Hlook)
      as (first & rest & Hs & Hfirst & Hlast).
    rewrite (validate_json_file_parses _ _ _ _ _ Hf Hs Hfirst), Hlast.
    unfold try_except. rewrite full_parse_valid by exact Hv.
    now rewrite log_log.
Qed.

Lemma complete_document_fails_probe_witness :
  JSON.loads (lit "[1,2]") = Normal tt
  /\ JSON.loads (test_sample (lit "[1,2]")) = Raised (JSONDecodeError ExtraData)
  /\ is_valid (RT := cpython (fun _ => Done)) (lit "[1,2]") = false.
Proof.
  destruct (complete_document_fails_probe (fun _ => Done) (lit "[1,2]")
              eq_refl ltac:(cbn; lia) eq_refl) as (Hprobe & _ & Hvalid & _).
  split; [reflexivity|]. split; [exact Hprobe | exact Hvalid].
Defined.

(** *** C10 *)

Lemma rows_of_length (rd : reader) : length (rows_of rd) = records rd.
Proof. induction rd; simpl; congruence. Qed.

Lemma filter_partition_length {A} (P : A -> bool) (l : list A) :
  length (filter (fun x => negb (P x)) l) + length (filter P l) = length l.
Proof.
  induction l as [|x l IH]; simpl; [reflexivity|].
  destruct (P x); simpl; lia.
Qed.

(** C10. In a run of [extract_all_rows] that no exception ends, each record
    adds one to exactly one of the two counters, so that when the loop is
    over their sum is the number of records of the file; these are the
    counts the extractor then reports. *)
Theorem all_rows_counts_add_up {RT : Runtime} :
  (forall dir base n r e s e' s' w w',
      all_rows_body dir base n r (e, s) w = (Normal (e', s'), w') ->
      (e' = (e + 1)%Z /\ s' = s) \/ (e' = e /\ s' = (s + 1)%Z))
  /\ (forall file_path output_prefix w e s w',
         all_rows_attempt file_path output_prefix w = (Normal (e, s), w') ->
         exists text,
           files w file_path = Regular text
           /\ failure (csv_reader text) = None
           /\ (e + s = Z.of_nat (records (csv_reader text)))%Z)
  /\ (forall file_path output_prefix w e s w',
         all_rows_attempt file_path output_prefix
           (log w [MsgExtractingAll; MsgRule]) = (Normal (e, s), w') ->
         extract_all_rows file_path output_prefix w =
         (Normal (0 <? e)%Z,
          log w' ([MsgRule; MsgExtracted e]
                  ++ if (0 <? s)%Z then [MsgSkipped s] else []))).
Proof.
  split; [|split].
  - intros dir base n r e s e' s' w w' Hrun.
    apply all_rows_body_counts in Hrun. tauto.
  - intros file_path output_prefix w e s w' Hrun.
    destruct (files w file_path) as [|text|] eqn:Hf;
      try (rewrite all_rows_attempt_unreadable in Hrun by congruence;
           discriminate).
    exists text. split; [reflexivity|].
    rewrite (all_rows_attempt_opened _ _ _ text) in Hrun by exact Hf.
    apply all_rows_loop_counts in Hrun as (Hfail & -> & ->).
    split; [exact Hfail|].
    rewrite <- rows_of_length.
    rewrite <- (filter_partition_length skipped (rows_of (csv_reader text))).
    lia.
  - intros file_path output_prefix w e s w' Hrun.
    now rewrite extract_all_rows_run, Hrun.
Qed.

Lemma all_rows_counts_add_up_witness :
  exists e s w',
    all_rows_attempt (RT := cpython (fun _ => reader_of mixed_rows))
      in_csv (lit "out/data") start = (Normal (e, s), w')
    /\ (e + s = 3)%Z.
Proof.
  destruct (all_rows_attempt (RT := cpython (fun _ => reader_of mixed_rows))
              in_csv (lit "out/data") start) as [[[e s]|ex] w'] eqn:Hrun.
  - exists e, s, w'. split; [reflexivity|].
    destruct (proj1 (proj2 (all_rows_counts_add_up
                              (RT := cpython (fun _ => reader_of mixed_rows))))
                in_csv (lit "out/data") start e s w' Hrun)
      as (text & _ & _ & Hsum).
    exact Hsum.
  - apply (f_equal fst) in Hrun. vm_compute in Hrun. discriminate.
Defined.

(* ================================================================= *)
(** * Further properties *)

(** ** [extract_single_row]: what a call can do *)

Section SingleRow.

Context {RT : Runtime}.

Lemma quick_validation_files (v : str) (w : world) :
  files (snd (quick_validation v w)) = files w.
Proof. now rewrite quick_validation_run. Qed.

(** The body of the loop touches the output path only, and returns success
    only after it wrote a non-empty longest field there. *)
Lemma extract_target_effect (output_path : path) (n : Z) (r : row) (w : world) :
  (forall q, q <> output_path ->
             files (snd (extract_target output_path n r w)) q = files w q)
  /\ (fst (extract_target output_path n r w) = Normal true ->
      json_column_of r <> []
      /\ files (snd (extract_target output_path n r w)) output_path
         = Regular (json_column_of r)).
Proof.
  destruct r as [|f tl].
  - split; [reflexivity | discriminate].
  - destruct (json_column_of (f :: tl)) as [|c v] eqn:Hjc.
    + rewrite extract_target_no_data by (assumption || discriminate).
      split; [reflexivity | discriminate].
    + destruct (files w output_path) eqn:Hw.
      * rewrite extract_target_writes by (congruence || discriminate).
        cbn [fst snd files]. rewrite Hjc. split.
        -- intros q Hq. now apply update_other.
        -- intros _. split; [discriminate | apply update_same].
      * rewrite extract_target_writes by (congruence || discriminate).
        cbn [fst snd files]. rewrite Hjc. split.
        -- intros q Hq. now apply update_other.
        -- intros _. split; [discriminate | apply update_same].
      * rewrite extract_target_locked by (congruence || discriminate).
        split; [reflexivity | discriminate].
Qed.

Lemma single_row_loop_effect (output_path : path) (n : Z) (rd : reader) :
  forall (cur : option Z) (next : Z) (w : world),
    (forall q, q <> output_path ->
       files (snd (single_row_loop output_path n rd cur next w)) q = files w q)
    /\ (fst (single_row_loop output_path n rd cur next w) = Normal true ->
        exists r,
          (next <= n)%Z
          /\ nth_error (rows_of rd) (Z.to_nat (n - next)) = Some r
          /\ json_column_of r <> []
          /\ files (snd (single_row_loop output_path n rd cur next w))
               output_path = Regular (json_column_of r)).
Proof.
  induction rd as [|r0 rest IH|e]; intros cur next w; cbn [single_row_loop].
  - split.
    + destruct cur; reflexivity.
    + destruct cur; discriminate.
  - destruct (Z.eqb_spec next n) as [->|Hne].
    + destruct (extract_target_effect output_path n r0 w) as [Hframe Hok].
      split; [exact Hframe|]. intros H. exists r0.
      rewrite Z.sub_diag. cbn [Z.to_nat rows_of nth_error].
      destruct (Hok H). repeat split; try assumption; lia.
    + destruct (IH (Some next) (next + 1)%Z w) as [Hframe Hok].
      split; [exact Hframe|]. intros H.
      destruct (Hok H) as (r & Hle & Hnth & Hjc & Hout). exists r.
      replace (Z.to_nat (n - next)) with (S (Z.to_nat (n - (next + 1))))
        by lia.
      cbn [rows_of nth_error]. repeat split; try assumption; lia.
  - split; [reflexivity | discriminate].
Qed.

(** What a call of [extract_single_row] can do. *)
Lemma single_row_effect (file_path output_path : path) (n : Z)
    (w : world) :
  (exists b, fst (extract_single_row file_path output_path n w) = Normal b)
  /\ (forall q, q <> output_path ->
        files (snd (extract_single_row file_path output_path n w)) q
        = files w q)
  /\ (fst (extract_single_row file_path output_path n w) = Normal true ->
      exists text r,
        files w file_path = Regular text
        /\ (1 <= n)%Z
        /\ nth_error (rows_of (csv_reader text)) (Z.to_nat (n - 1)) = Some r
        /\ json_column_of r <> []
        /\ files (snd (extract_single_row file_path output_path n w))
             output_path = Regular (json_column_of r)).
Proof.
  destruct (files w file_path) as [|text|] eqn:Hf.
  1, 3: assert (Hrun : extract_single_row file_path output_path n w =
                       (Normal false,
                        log w [MsgExtractingRow n; MsgRule;
                               MsgErrorExtractingRow (OSError file_path)]))
    by (unfold extract_single_row, bind at 1; rewrite print_run;
        unfold bind at 1; rewrite print_run, log_log;
        unfold try_except, single_row_attempt, bind, read_text;
        cbn [files log]; rewrite Hf, print_run, log_log; reflexivity);
    rewrite Hrun; (split; [now exists false|]);
    (split; [reflexivity | discriminate]).
  rewrite (extract_single_row_opened _ _ _ _ _ Hf). unfold try_except.
  destruct (single_row_loop_effect output_path n (csv_reader text) None 1%Z
              (log w [MsgExtractingRow n; MsgRule])) as [Hframe Hok].
  destruct (single_row_loop output_path n (csv_reader text) None 1
              (log w [MsgExtractingRow n; MsgRule])) as [[b|e] w'] eqn:Hrun.
  - cbn [fst snd] in *. split; [now exists b|]. split; [exact Hframe|].
    intros H. destruct (Hok H) as (r & Hle & Hnth & Hjc & Hout).
    exists text, r. auto.
  - unfold bind. rewrite print_run. cbn [fst snd files log] in *.
    split; [now exists false|]. split; [exact Hframe | discriminate].
Qed.

(** X1. [extract_single_row] never raises, whatever the file, the reader
    and the row number are, and it changes no file but the output path.
    It returns success only when the input has a record of that number,
    and then the output path holds the longest field of that record, which
    is not empty. *)
Theorem extract_single_row_effect (file_path output_path : path) (n : Z)
    (w : world) :
  (exists b, fst (extract_single_row file_path output_path n w) = Normal b)
  /\ (forall q, q <> output_path ->
        files (snd (extract_single_row file_path output_path n w)) q
        = files w q)
  /\ (fst (extract_single_row file_path output_path n w) = Normal true ->
      exists text r,
        files w file_path = Regular text
        /\ (1 <= n)%Z
        /\ nth_error (rows_of (csv_reader text)) (Z.to_nat (n - 1)) = Some r
        /\ json_column_of r <> []
        /\ files (snd (extract_single_row file_path output_path n w))
             output_path = Regular (json_column_of r)).
Proof. exact (single_row_effect file_path output_path n w). Qed.

End SingleRow.

Lemma extract_single_row_effect_witness :
  files (snd (extract_single_row (RT := cpython (fun _ => reader_of [tie_row]))
                in_csv out_json 1 start)) in_csv = files start in_csv
  /\ exists text r,
      files start in_csv = Regular text
      /\ (1 <= 1)%Z
      /\ nth_error (rows_of (reader_of [tie_row])) (Z.to_nat (1 - 1)) = Some r
      /\ json_column_of r <> []
      /\ files (snd (extract_single_row
                       (RT := cpython (fun _ => reader_of [tie_row]))
                       in_csv out_json 1 start)) out_json
         = Regular (json_column_of r).
Proof.
  destruct (extract_single_row_effect
              (RT := cpython (fun _ => reader_of [tie_row]))
              in_csv out_json 1%Z start) as (_ & Hframe & Hok).
  split.
  - apply Hframe. discriminate.
  - apply Hok. reflexivity.
Defined.

Section ShortFile.

Context {RT : Runtime}.

(** A loop that cannot meet the row number, below the numbers to come or
    above them all, goes through the records and reports the number of the
    last one. *)
Lemma single_row_loop_misses (output_path : path) (n : Z) (rd : reader) :
  forall (last next : Z) (w : world),
    failure rd = None ->
    (n < next \/ next + Z.of_nat (records rd) <= n)%Z ->
    single_row_loop output_path n rd (Some last) next w =
    (Normal false,
     log w [MsgFileOnlyHas
              (if records rd =? 0 then last
               else (next + Z.of_nat (records rd) - 1)%Z) n]).
Proof.
  induction rd as [|r0 rest IH|e]; intros last next w Hf Hn;
    cbn [single_row_loop records failure] in *.
  - reflexivity.
  - destruct (Z.eqb_spec next n) as [->|Hne]; [lia|].
    rewrite IH by (assumption || lia).
    destruct (Nat.eqb_spec (records rest) 0) as [E|E]; cbn [Nat.eqb];
      match goal with
      | |- (_, log _ [MsgFileOnlyHas ?a _]) = (_, log _ [MsgFileOnlyHas ?b _]) =>
          replace b with a by lia; reflexivity
      end.
  - discriminate.
Qed.

(** X2. When the reader gives at least one record and stops without
    error, and the row number is less than one or more than the number of
    records, [extract_single_row] returns failure, reports the number of
    records and changes no file. *)
Theorem extract_single_row_reports_count (file_path output_path : path)
    (n : Z) (w : world) (text : str) :
  files w file_path = Regular text ->
  failure (csv_reader text) = None ->
  0 < records (csv_reader text) ->
  (n < 1 \/ Z.of_nat (records (csv_reader text)) < n)%Z ->
  extract_single_row file_path output_path n w =
  (Normal false,
   log w [MsgExtractingRow n; MsgRule;
          MsgFileOnlyHas (Z.of_nat (records (csv_reader text))) n])
  /\ files (snd (extract_single_row file_path output_path n w)) = files w.
Proof.
  intros Hf Hfail Hpos Hn.
  assert (Hrun : extract_single_row file_path output_path n w =
                 (Normal false,
                  log w [MsgExtractingRow n; MsgRule;
                         MsgFileOnlyHas
                           (Z.of_nat (records (csv_reader text))) n])).
  { rewrite (extract_single_row_opened _ _ _ _ _ Hf). unfold try_except.
    destruct (csv_reader text) as [|r0 rest|e];
      cbn [records failure single_row_loop] in *; try lia.
    destruct (Z.eqb_spec 1 n) as [<-|Hne]; [lia|].
    rewrite single_row_loop_misses by (assumption || lia).
    rewrite log_log. cbn [app].
    destruct (Nat.eqb_spec (records rest) 0) as [E|E];
      match goal with
      | |- (_, log _ [_; _; MsgFileOnlyHas ?a _]) =
           (_, log _ [_; _; MsgFileOnlyHas ?b _]) =>
          replace b with a by lia; reflexivity
      end. }
  rewrite Hrun. split; reflexivity.
Qed.

End ShortFile.

Lemma extract_single_row_reports_count_witness :
  extract_single_row (RT := cpython (fun _ => reader_of mixed_rows))
    in_csv out_json 5 start
  = (Normal false,
     log start [MsgExtractingRow 5; MsgRule; MsgFileOnlyHas 3 5])
  /\ extract_single_row (RT := cpython (fun _ => reader_of mixed_rows))
       in_csv out_json 0 start
     = (Normal false,
        log start [MsgExtractingRow 0; MsgRule; MsgFileOnlyHas 3 0]).
Proof.
  split.
  - apply (extract_single_row_reports_count
             (RT := cpython (fun _ => reader_of mixed_rows))
             in_csv out_json 5%Z start (lit "csv"));
      solve [reflexivity | cbn; lia].
  - apply (extract_single_row_reports_count
             (RT := cpython (fun _ => reader_of mixed_rows))
             in_csv out_json 0%Z start (lit "csv"));
      solve [reflexivity | cbn; lia].
Defined.

(** ** [validate_json_file]: the verdict *)

Section Validator.

Context {RT : Runtime}.

Lemma looks_like_json_char_in (content : str) (first : char) (rest : str) :
  strip content = first :: rest ->
  looks_like_json content = char_in first (lit "[{").
Proof.
  intros Hs. unfold looks_like_json. rewrite Hs. cbn [startswith].
  unfold char_in. cbn [lit map list_ascii_of_string existsb].
  now rewrite orb_false_r, !(N.eqb_sym first).
Qed.

(** What a call of [validate_json_file] can do. *)
Lemma validator_verdict (json_file : path) (w : world) :
  (exists b, fst (validate_json_file json_file w) = Normal b)
  /\ files (snd (validate_json_file json_file w)) = files w
  /\ (fst (validate_json_file json_file w) = Normal true
      <-> exists content,
            files w json_file = Regular content
            /\ looks_like_json content = true
            /\ json_loads content = Normal tt).
Proof.
  assert (Hunreadable :
    (forall content, files w json_file <> Regular content) ->
    validate_json_file json_file w =
    (Normal false,
     log w [MsgValidating json_file; MsgErrorReadingFile (OSError json_file)])).
  { intros Hf. unfold validate_json_file, bind at 1. rewrite print_run.
    unfold try_except, bind at 1. unfold read_text. cbn [files log].
    destruct (files w json_file) eqn:E; try (now destruct (Hf content));
      unfold bind; rewrite print_run, log_log; reflexivity. }
  destruct (files w json_file) as [|content|] eqn:Hf.
  1, 3: rewrite Hunreadable by congruence;
    (split; [now exists false|]); (split; [reflexivity|]);
    (split; [discriminate | intros (c & Hc & _); discriminate]).
  destruct (strip content) as [|first rest] eqn:Hs.
  { assert (Hrun : validate_json_file json_file w =
                   (Normal false, log w [MsgValidating json_file; MsgFileIsEmpty])).
    { unfold validate_json_file, bind at 1. rewrite print_run.
      unfold try_except, bind at 1. unfold read_text. cbn [files log].
      rewrite Hf, Hs. unfold bind. rewrite print_run, log_log. reflexivity. }
    rewrite Hrun. split; [now exists false|]. split; [reflexivity|].
    split; [discriminate|]. intros (c & Hc & Hlook & _).
    inversion Hc; subst c. unfold looks_like_json in Hlook.
    rewrite Hs in Hlook. discriminate. }
  pose proof (looks_like_json_char_in content first rest Hs) as Hlook.
  destruct (char_in first (lit "[{")) eqn:Hfirst.
  - rewrite (validate_json_file_parses _ _ _ _ _ Hf Hs Hfirst).
    set (w1 := log w _). unfold try_except.
    destruct (json_loads content) as [[]|e] eqn:Hl.
    + rewrite full_parse_valid by exact Hl. cbn [fst snd files log].
      split; [now exists true|]. split; [reflexivity|].
      split; [|reflexivity]. intros _. exists content. auto.
    + assert (Hfail : exists w2,
                (let (r, w') := full_parse content w1 in
                 match r with
                 | Normal a => (Normal a, w')
                 | Raised e0 => (print (MsgErrorReadingFile e0);; ret false) w'
                 end) = (Normal false, w2) /\ files w2 = files w).
      { destruct e as [d| | | |];
          try (rewrite (full_parse_decode_error _ d) by exact Hl;
               eexists; split; reflexivity);
          unfold full_parse, try_except_decode, bind, lift; rewrite Hl;
          rewrite print_run; eexists; split; reflexivity. }
      destruct Hfail as (w2 & Hrun & Hfiles). rewrite Hrun.
      cbn [fst snd]. split; [now exists false|]. split; [exact Hfiles|].
      split; [discriminate|]. intros (c & Hc & _ & Hok).
      inversion Hc; subst c. congruence.
  - rewrite (validate_json_file_bad_start _ _ _ _ _ Hf Hs Hfirst).
    split; [now exists false|]. split; [reflexivity|].
    split; [discriminate|]. intros (c & Hc & Hl & _).
    inversion Hc; subst c. congruence.
Qed.

(** X3. [validate_json_file] never raises and changes no file.  It
    returns success exactly when the file can be read, its content starts,
    once trimmed, with a brace or a bracket, and [json.loads] accepts the
    content. *)
Theorem validate_json_file_verdict (json_file : path) (w : world) :
  (exists b, fst (validate_json_file json_file w) = Normal b)
  /\ files (snd (validate_json_file json_file w)) = files w
  /\ (fst (validate_json_file json_file w) = Normal true
      <-> exists content,
            files w json_file = Regular content
            /\ looks_like_json content = true
            /\ json_loads content = Normal tt).
Proof. exact (validator_verdict json_file w). Qed.

(** X4. After a single-row extraction that returned success, the
    validator reads the field that was extracted: it returns success
    exactly when the longest field of the target record starts, once
    trimmed, with a brace or a bracket and [json.loads] accepts it. *)
Theorem validate_after_extraction (file_path output_path : path) (n : Z)
    (w : world) :
  fst (extract_single_row file_path output_path n w) = Normal true ->
  exists text r,
    files w file_path = Regular text
    /\ nth_error (rows_of (csv_reader text)) (Z.to_nat (n - 1)) = Some r
    /\ (fst (validate_json_file output_path
               (snd (extract_single_row file_path output_path n w)))
        = Normal true
        <-> looks_like_json (json_column_of r) = true
            /\ json_loads (json_column_of r) = Normal tt).
Proof.
  intros Hok.
  destruct (single_row_effect file_path output_path n w)
    as (_ & _ & Hsuccess).
  destruct (Hsuccess Hok) as (text & r & Hf & _ & Hnth & _ & Hout).
  exists text, r. split; [exact Hf|]. split; [exact Hnth|].
  rewrite (proj2 (proj2 (validator_verdict output_path _))).
  rewrite Hout. split.
  - intros (c & Hc & Hlook & Hl). inversion Hc; subst c. auto.
  - intros [Hlook Hl]. exists (json_column_of r). auto.
Qed.

End Validator.

Lemma validate_json_file_verdict_witness :
  fst (validate_json_file (RT := cpython (fun _ => Done)) out_json
         (written (lit " [1, 2] "))) = Normal true.
Proof.
  apply (validate_json_file_verdict (RT := cpython (fun _ => Done))
           out_json (written (lit " [1, 2] "))).
  exists (lit " [1, 2] "). repeat split; reflexivity.
Defined.

Lemma validate_after_extraction_witness :
  exists text r,
    files start in_csv = Regular text
    /\ nth_error (rows_of (reader_of [[unclosed_object]])) (Z.to_nat (1 - 1))
       = Some r
    /\ (fst (validate_json_file
               (RT := cpython (fun _ => reader_of [[unclosed_object]])) out_json
               (snd (extract_single_row
                       (RT := cpython (fun _ => reader_of [[unclosed_object]]))
                       in_csv out_json 1 start)))
        = Normal true
        <-> looks_like_json (json_column_of r) = true
            /\ JSON.loads (json_column_of r) = Normal tt).
Proof.
  apply (validate_after_extraction
           (RT := cpython (fun _ => reader_of [[unclosed_object]]))
           in_csv out_json 1%Z start).
  reflexivity.
Defined.

(** ** [extract_all_rows]: the files of a run *)

Section AllRows.

Context {RT : Runtime}.

Lemma path_in_dec (q : path) (l : list path) : {In q l} + {~ In q l}.
Proof. apply in_dec. apply list_eq_dec. apply N.eq_dec. Qed.

Lemma locked_dec (e : entry) : {e = Locked} + {e <> Locked}.
Proof. destruct e; (now left) || (right; discriminate). Qed.

(** Whatever way the loop ends, a path that is not the file of a record it
    extracts is as it was. *)
Lemma all_rows_loop_frame (dir : path) (base : str) (rd : reader) :
  forall (n : Z) (c : Z * Z) (w : world) (q : path),
    ~ In q (targets dir base rd n) ->
    files (snd (all_rows_loop dir base rd n c w)) q = files w q.
Proof.
  induction rd as [|r rest IH|ex]; intros n [e s] w q Hq;
    cbn [all_rows_loop targets] in *; try reflexivity.
  unfold bind. destruct (skipped r) eqn:Hs.
  - rewrite all_rows_body_skips by exact Hs. now rewrite IH.
  - destruct (locked_dec (files w (path_join dir (row_file_name base n))))
      as [Hl|Hnl].
    + rewrite all_rows_body_locked by assumption. reflexivity.
    + rewrite all_rows_body_extracts by assumption.
      rewrite IH by (intros H; apply Hq; right; exact H).
      cbn [files]. apply update_other. intros ->. apply Hq. left. reflexivity.
Qed.

(** When the loop ends normally, the file of every record it extracted is
    there. *)
Lemma all_rows_loop_written (dir : path) (base : str) (rd : reader) :
  forall (n : Z) (c c' : Z * Z) (w w' : world) (q : path),
    all_rows_loop dir base rd n c w = (Normal c', w') ->
    In q (targets dir base rd n) ->
    exists v, files w' q = Regular v.
Proof.
  induction rd as [|r rest IH|ex]; intros n [e s] c' w w' q Hrun Hq;
    cbn [all_rows_loop targets] in *; try contradiction.
  unfold bind in Hrun. destruct (skipped r) eqn:Hs.
  - rewrite all_rows_body_skips in Hrun by exact Hs. eauto.
  - destruct (locked_dec (files w (path_join dir (row_file_name base n))))
      as [Hl|Hnl].
    + rewrite all_rows_body_locked in Hrun by assumption. discriminate.
    + rewrite all_rows_body_extracts in Hrun by assumption.
      destruct (path_in_dec q (targets dir base rest (n + 1))) as [Hin|Hout];
        [eauto|].
      destruct Hq as [<-|Hq]; [|contradiction].
      exists (json_column_of r).
      match type of Hrun with
      | all_rows_loop _ _ _ _ ?c1 ?w1 = _ =>
          pose proof (all_rows_loop_frame dir base rest (n + 1)%Z c1 w1 _ Hout)
            as Hframe
      end.
      rewrite Hrun in Hframe. cbn [snd files] in Hframe.
      rewrite Hframe. apply update_same.
Qed.

(** A loop that ended normally ends the same way from any world in which
    the files it writes can be opened, and leaves the same content in
    them. *)
Lemma all_rows_loop_replay (dir : path) (base : str) (rd : reader) :
  forall (n : Z) (c c' : Z * Z) (w w' wa : world),
    all_rows_loop dir base rd n c w = (Normal c', w') ->
    (forall q, In q (targets dir base rd n) -> files wa q <> Locked) ->
    exists wa',
      all_rows_loop dir base rd n c wa = (Normal c', wa')
      /\ (forall q, In q (targets dir base rd n) -> files wa' q = files w' q)
      /\ (forall q, ~ In q (targets dir base rd n) -> files wa' q = files wa q).
Proof.
  induction rd as [|r rest IH|ex]; intros n [e s] c' w w' wa Hrun Hopen;
    cbn [all_rows_loop targets] in *.
  - inversion Hrun; subst. exists wa.
    split; [reflexivity|]. split; [intros q [] | reflexivity].
  - unfold bind in *. destruct (skipped r) eqn:Hs.
    + rewrite all_rows_body_skips in * by exact Hs.
      destruct (IH _ _ _ _ _ (log wa [match r with
                                     | [] => MsgRowEmptySkipping n
                                     | _ :: _ => MsgNoSignificantData n
                                     end]) Hrun Hopen)
        as (wa' & Hrun' & Hsame & Hframe).
      exists wa'. repeat split; assumption.
    + set (p := path_join dir (row_file_name base n)) in *.
      assert (Hwa : files wa p <> Locked) by (apply Hopen; left; reflexivity).
      destruct (locked_dec (files w p)) as [Hl|Hnl].
      { rewrite all_rows_body_locked in Hrun by assumption. discriminate. }
      rewrite all_rows_body_extracts in Hrun by assumption.
      rewrite all_rows_body_extracts by assumption.
      fold p in Hrun |- *.
      match type of Hrun with
      | all_rows_loop _ _ _ _ ?c1 ?w1 = _ => set (w1' := w1) in *
      end.
      match goal with
      | |- exists _, all_rows_loop _ _ _ _ _ ?wa1 = _ /\ _ =>
          set (wa1' := wa1) in *
      end.
      assert (Hopen1 : forall q, In q (targets dir base rest (n + 1)) ->
                                 files wa1' q <> Locked).
      { intros q Hq. subst wa1'. cbn [files].
        destruct (list_eq_dec N.eq_dec q p) as [->|Hne].
        - rewrite update_same. discriminate.
        - rewrite update_other by exact Hne. apply Hopen. now right. }
      destruct (IH _ _ _ _ _ wa1' Hrun Hopen1)
        as (wa' & Hrun' & Hsame & Hframe).
      exists wa'. split; [exact Hrun'|]. split.
      * intros q Hq.
        destruct (path_in_dec q (targets dir base rest (n + 1)))
          as [Hin|Hout]; [now apply Hsame|].
        destruct Hq as [<-|Hq]; [|contradiction].
        rewrite (Hframe _ Hout).
        pose proof (all_rows_loop_frame dir base rest (n + 1)%Z
                      ((e + 1)%Z, s) w1' _ Hout) as Hf1.
        rewrite Hrun in Hf1. cbn [snd] in Hf1. rewrite Hf1.
        subst w1' wa1'. cbn [files]. now rewrite !update_same.
      * intros q Hq. rewrite Hframe by (intros H; apply Hq; right; exact H).
        subst wa1'. cbn [files]. apply update_other.
        intros ->. apply Hq. left. reflexivity.
  - discriminate.
Qed.

Lemma targets_length (dir : path) (base : str) (rd : reader) :
  forall n, length (targets dir base rd n)
            = length (filter (fun r => negb (skipped r)) (rows_of rd)).
Proof.
  induction rd as [|r rest IH|ex]; intros n; cbn [targets rows_of filter];
    try reflexivity.
  destruct (skipped r); cbn [negb length]; now rewrite IH.
Qed.

(** What a call of [extract_all_rows] can do. *)
Lemma all_rows_effect (file_path output_prefix : path) (w : world) :
  (exists b, fst (extract_all_rows file_path output_prefix w) = Normal b)
  /\ (forall q,
        (forall text,
            files w file_path = Regular text ->
            ~ In q (targets (path_parent output_prefix)
                      (path_stem output_prefix) (csv_reader text) 1)) ->
        files (snd (extract_all_rows file_path output_prefix w)) q = files w q)
  /\ (fst (extract_all_rows file_path output_prefix w) = Normal true ->
      exists text,
        files w file_path = Regular text
        /\ targets (path_parent output_prefix) (path_stem output_prefix)
             (csv_reader text) 1 <> []
        /\ forall q,
            In q (targets (path_parent output_prefix)
                    (path_stem output_prefix) (csv_reader text) 1) ->
            exists v,
              files (snd (extract_all_rows file_path output_prefix w)) q
              = Regular v).
Proof.
  rewrite extract_all_rows_run.
  set (w1 := log w [MsgExtractingAll; MsgRule]).
  destruct (files w file_path) as [|text|] eqn:Hf.
  1, 3: rewrite all_rows_attempt_unreadable
      by (subst w1; cbn [files log]; congruence);
    (split; [now exists false|]); (split; [reflexivity | discriminate]).
  rewrite (all_rows_attempt_opened _ _ w1 text) by exact Hf.
  pose proof (all_rows_loop_frame (path_parent output_prefix)
                (path_stem output_prefix) (csv_reader text) 1%Z (0%Z, 0%Z) w1)
    as Hframe.
  destruct (all_rows_loop _ _ _ _ _ w1) as [[[e s]|ex] w'] eqn:Hrun;
    cbn [fst snd files log] in *.
  - split; [now eexists|]. split.
    + intros q Hq. apply Hframe. now apply Hq.
    + intros H. exists text. split; [reflexivity|].
      pose proof (all_rows_loop_counts _ _ _ _ _ _ _ _ _ _ Hrun)
        as (_ & He & _).
      split.
      * intros Hnil. apply (f_equal (@length path)) in Hnil.
        rewrite targets_length in Hnil. cbn [length] in Hnil.
        rewrite Hnil in He. subst e. discriminate.
      * intros q Hq. eapply all_rows_loop_written; eassumption.
  - split; [now eexists|]. split; [|discriminate].
    intros q Hq. apply Hframe. now apply Hq.
Qed.

(** X5. [extract_all_rows] never raises.  Whatever way the run ends, it
    changes no file but those of the records it does not skip.  When it
    returns success there is at least one such record, and the file of each
    of them is there. *)
Theorem extract_all_rows_effect (file_path output_prefix : path) (w : world) :
  (exists b, fst (extract_all_rows file_path output_prefix w) = Normal b)
  /\ (forall q,
        (forall text,
            files w file_path = Regular text ->
            ~ In q (targets (path_parent output_prefix)
                      (path_stem output_prefix) (csv_reader text) 1)) ->
        files (snd (extract_all_rows file_path output_prefix w)) q = files w q)
  /\ (fst (extract_all_rows file_path output_prefix w) = Normal true ->
      exists text,
        files w file_path = Regular text
        /\ targets (path_parent output_prefix) (path_stem output_prefix)
             (csv_reader text) 1 <> []
        /\ forall q,
            In q (targets (path_parent output_prefix)
                    (path_stem output_prefix) (csv_reader text) 1) ->
            exists v,
              files (snd (extract_all_rows file_path output_prefix w)) q
              = Regular v).
Proof. exact (all_rows_effect file_path output_prefix w). Qed.

(** X7. A second run of [extract_all_rows], on the files the first run
    left, gives the same result and leaves every file as the first run
    left it, when the first run raised no exception and the input is not
    one of the files it writes. *)
Theorem extract_all_rows_twice (file_path output_prefix : path)
    (w w' : world) (counts : Z * Z) :
  all_rows_attempt file_path output_prefix
    (log w [MsgExtractingAll; MsgRule]) = (Normal counts, w') ->
  (forall text,
      files w file_path = Regular text ->
      ~ In file_path (targets (path_parent output_prefix)
                        (path_stem output_prefix) (csv_reader text) 1)) ->
  fst (extract_all_rows file_path output_prefix
         (snd (extract_all_rows file_path output_prefix w)))
  = fst (extract_all_rows file_path output_prefix w)
  /\ forall q,
      files (snd (extract_all_rows file_path output_prefix
                    (snd (extract_all_rows file_path output_prefix w)))) q
      = files (snd (extract_all_rows file_path output_prefix w)) q.
Proof.
  intros Hrun Hinput. destruct counts as [e s].
  rewrite (extract_all_rows_run file_path output_prefix w), Hrun.
  cbn [fst snd].
  set (w2 := log w' _).
  destruct (files w file_path) as [|text|] eqn:Hf;
    try (rewrite all_rows_attempt_unreadable in Hrun
           by (cbn [files log]; congruence); discriminate).
  rewrite (all_rows_attempt_opened _ _ _ text) in Hrun by exact Hf.
  set (T := targets (path_parent output_prefix) (path_stem output_prefix)
              (csv_reader text) 1) in *.
  assert (Hkept : files w' file_path = Regular text).
  { pose proof (all_rows_loop_frame (path_parent output_prefix)
                  (path_stem output_prefix) (csv_reader text) 1%Z (0%Z, 0%Z)
                  (log w [MsgExtractingAll; MsgRule]) file_path
                  (Hinput text eq_refl)) as Hframe.
    rewrite Hrun in Hframe. cbn [snd files log] in Hframe. congruence. }
  rewrite extract_all_rows_run.
  rewrite (all_rows_attempt_opened _ _ _ text)
    by (subst w2; cbn [files log]; exact Hkept).
  destruct (all_rows_loop_replay _ _ _ _ _ _ _ _
              (log w2 [MsgExtractingAll; MsgRule]) Hrun)
    as (wa' & Hrun' & Hsame & Hframe).
  { intros q Hq. subst w2. cbn [files log].
    destruct (all_rows_loop_written _ _ _ _ _ _ _ _ q Hrun Hq) as (v & ->).
    discriminate. }
  rewrite Hrun'. cbn [fst snd files log]. split; [reflexivity|].
  intros q. destruct (path_in_dec q T) as [Hin|Hout].
  - now apply Hsame.
  - rewrite (Hframe q Hout). reflexivity.
Qed.

End AllRows.

Lemma extract_all_rows_effect_witness :
  files (snd (extract_all_rows (RT := cpython (fun _ => reader_of mixed_rows))
                in_csv (lit "out/data") start)) in_csv = files start in_csv
  /\ exists v,
      files (snd (extract_all_rows
                    (RT := cpython (fun _ => reader_of mixed_rows))
                    in_csv (lit "out/data") start))
        (lit "out/data_row_001.json") = Regular v.
Proof.
  destruct (extract_all_rows_effect
              (RT := cpython (fun _ => reader_of mixed_rows))
              in_csv (lit "out/data") start) as (_ & Hframe & Hok).
  split.
  - apply Hframe. intros text _ [H|[]]. vm_compute in H. discriminate.
  - destruct (Hok eq_refl) as (text & _ & _ & Hfiles).
    apply Hfiles. left. reflexivity.
Defined.

Lemma extract_all_rows_twice_witness :
  files (snd (extract_all_rows
                (RT := cpython (fun _ => reader_of mixed_rows))
                in_csv (lit "out/data")
                (snd (extract_all_rows
                        (RT := cpython (fun _ => reader_of mixed_rows))
                        in_csv (lit "out/data") start))))
    (lit "out/data_row_001.json")
  = files (snd (extract_all_rows
                  (RT := cpython (fun _ => reader_of mixed_rows))
                  in_csv (lit "out/data") start))
      (lit "out/data_row_001.json").
Proof.
  destruct (all_rows_attempt (RT := cpython (fun _ => reader_of mixed_rows))
              in_csv (lit "out/data")
              (log start [MsgExtractingAll; MsgRule]))
    as [[counts|ex] w'] eqn:Hrun.
  - apply (extract_all_rows_twice
             (RT := cpython (fun _ => reader_of mixed_rows))
             in_csv (lit "out/data") start w' counts Hrun).
    intros text _ [H|[]]. vm_compute in H. discriminate.
  - apply (f_equal fst) in Hrun. vm_compute in Hrun. discriminate.
Defined.

(** ** The names of the row files *)

Lemma digits_uint_digits (u : Decimal.uint) : digits_uint (uint_digits u) = u.
Proof.
  induction u; cbn [uint_digits digits_uint]; rewrite ?IHu; reflexivity.
Qed.

Lemma digits_uint_zeros (k : nat) (s : str) :
  N.of_uint (digits_uint (repeat 48%N k ++ s)) = N.of_uint (digits_uint s).
Proof.
  induction k as [|k IH]; [reflexivity|].
  cbn [repeat app digits_uint].
  change (N.eqb 48 48) with true. cbv iota. exact IH.
Qed.

Lemma read_decimal_format (n : Z) :
  (0 <= n)%Z -> read_decimal (format_03d n) = Z.to_N n.
Proof.
  intros Hn. unfold read_decimal, format_03d.
  destruct (Z.ltb_spec n 0) as [H|_]; [lia|].
  unfold zero_pad. rewrite digits_uint_zeros, digits_uint_digits.
  rewrite DecimalN.Unsigned.of_to. destruct n; [reflexivity | reflexivity | lia].
Qed.

(** X8. The number in the name of a row file is the row number, written
    with three digits at least and with all its digits: reading it back
    gives the row number, so that two records never share a file name. *)
Theorem row_file_name_injective (base : str) (n m : Z) :
  (0 <= n)%Z -> (0 <= m)%Z ->
  read_decimal (format_03d n) = Z.to_N n
  /\ 3 <= length (format_03d n)
  /\ (row_file_name base n = row_file_name base m -> n = m).
Proof.
  intros Hn Hm. split; [now apply read_decimal_format|]. split.
  - unfold format_03d. destruct (Z.ltb_spec n 0) as [H|_]; [lia|].
    unfold zero_pad. rewrite length_app, repeat_length. lens.
  - unfold row_file_name. intros H.
    apply app_inv_head in H. apply app_inv_head in H.
    apply app_inv_tail in H.
    apply (f_equal read_decimal) in H.
    rewrite !read_decimal_format in H by assumption. lia.
Qed.

Lemma row_file_name_injective_witness :
  read_decimal (format_03d 1000) = 1000%N
  /\ 3 <= length (format_03d 1000)
  /\ (row_file_name (lit "data") 1000 = row_file_name (lit "data") 7 ->
      1000%Z = 7%Z).
Proof.
  apply (row_file_name_injective (lit "data") 1000%Z 7%Z); lia.
Defined.

(** ** The content of the row files *)

Lemma row_file_name_distinct (base : str) (n m : Z) :
  (0 <= n)%Z -> (0 <= m)%Z ->
  row_file_name base n = row_file_name base m -> n = m.
Proof.
  unfold row_file_name. intros Hn Hm H.
  apply app_inv_head in H. apply app_inv_head in H.
  apply app_inv_tail in H.
  apply (f_equal read_decimal) in H.
  rewrite !read_decimal_format in H by assumption. lia.
Qed.

Section RowFiles.

Context {RT : Runtime}.

Lemma targets_numbers (dir : path) (base : str) (rd : reader) :
  forall (n : Z) (q : path),
    In q (targets dir base rd n) ->
    exists k, (n <= k)%Z /\ q = path_join dir (row_file_name base k).
Proof.
  induction rd as [|r rest IH|ex]; intros n q Hq; cbn [targets] in Hq;
    try contradiction.
  destruct (skipped r).
  - destruct (IH _ _ Hq) as (k & Hk & ->). exists k. split; [lia | reflexivity].
  - destruct Hq as [<-|Hq].
    + exists n. split; [lia | reflexivity].
    + destruct (IH _ _ Hq) as (k & Hk & ->). exists k.
      split; [lia | reflexivity].
Qed.

(** X16. When the loop of [extract_all_rows] ends without exception, the
    row file of every record that is not skipped holds the longest field
    of that record, the records being numbered from one with those that
    are skipped counted: no later record has overwritten it.  The
    directory is one in which different names are different files. *)
Theorem row_files_hold_fields (file_path output_prefix : path) (w w' : world)
    (counts : Z * Z) :
  all_rows_attempt file_path output_prefix w = (Normal counts, w') ->
  (forall a b,
      path_join (path_parent output_prefix) a
      = path_join (path_parent output_prefix) b -> a = b) ->
  exists text,
    files w file_path = Regular text
    /\ forall i r,
        nth_error (rows_of (csv_reader text)) i = Some r ->
        skipped r = false ->
        files w' (path_join (path_parent output_prefix)
                    (row_file_name (path_stem output_prefix)
                       (Z.of_nat i + 1)))
        = Regular (json_column_of r).
Proof.
  intros Hrun Hinj.
  destruct (files w file_path) as [|text|] eqn:Hf;
    try (rewrite all_rows_attempt_unreadable in Hrun by congruence;
         discriminate).
  exists text. split; [reflexivity|].
  rewrite (all_rows_attempt_opened _ _ _ text) in Hrun by exact Hf.
  set (dir := path_parent output_prefix) in *.
  set (base := path_stem output_prefix) in *.
  assert (Hloop : forall rd n c c1 w0 w1,
    (0 <= n)%Z ->
    all_rows_loop dir base rd n c w0 = (Normal c1, w1) ->
    forall i r,
      nth_error (rows_of rd) i = Some r ->
      skipped r = false ->
      files w1 (path_join dir (row_file_name base (n + Z.of_nat i)))
      = Regular (json_column_of r)).
  { induction rd as [|r0 rest IH|ex]; intros n [e s] c1 w0 w1 Hn Hl i r Hnth Hs;
      cbn [all_rows_loop rows_of] in *.
    - destruct i; discriminate.
    - unfold bind in Hl. destruct i as [|i]; cbn [nth_error] in Hnth.
      + inversion Hnth; subst r0. rewrite Z.add_0_r.
        destruct (locked_dec (files w0 (path_join dir (row_file_name base n))))
          as [Hl0|Hnl].
        { rewrite all_rows_body_locked in Hl by assumption. discriminate. }
        rewrite all_rows_body_extracts in Hl by assumption.
        match type of Hl with
        | all_rows_loop _ _ _ _ ?c2 ?w2 = _ =>
            pose proof (all_rows_loop_frame dir base rest (n + 1)%Z c2 w2
                          (path_join dir (row_file_name base n))) as Hframe
        end.
        rewrite Hl in Hframe. cbn [snd files] in Hframe.
        rewrite Hframe; [apply update_same|].
        intros Hin. apply targets_numbers in Hin as (k & Hk & Heq).
        apply Hinj in Heq.
        apply row_file_name_distinct in Heq; lia.
      + destruct (all_rows_body dir base n r0 (e, s) w0) as [[c2|ex] w2] eqn:Hb;
          [|discriminate].
        replace (n + Z.of_nat (S i))%Z with (n + 1 + Z.of_nat i)%Z by lia.
        apply (IH (n + 1)%Z c2 c1 w2 w1); try assumption. lia.
    - destruct i; discriminate. }
  intros i r Hnth Hs.
  replace (Z.of_nat i + 1)%Z with (1 + Z.of_nat i)%Z by lia.
  refine (Hloop _ 1%Z _ _ _ _ _ Hrun i r Hnth Hs). lia.
Qed.

Lemma skipped_short (r : row) :
  skipped r = (length (strip (json_column_of r)) <? 2).
Proof.
  destruct r as [|f tl]; [reflexivity|].
  unfold skipped, insignificant.
  destruct (json_column_of (f :: tl)); reflexivity.
Qed.

Lemma targets_NoDup (dir : path) (base : str) (rd : reader) :
  (forall a b, path_join dir a = path_join dir b -> a = b) ->
  forall n, (0 <= n)%Z -> NoDup (targets dir base rd n).
Proof.
  intros Hinj.
  induction rd as [|r rest IH|ex]; intros n Hn; cbn [targets];
    try constructor.
  destruct (skipped r); [apply IH; lia|].
  constructor; [|apply IH; lia].
  intros Hin. apply targets_numbers in Hin as (k & Hk & Heq).
  apply Hinj in Heq. apply row_file_name_distinct in Heq; lia.
Qed.

Lemma targets_records (dir : path) (base : str) (rd : reader) :
  forall (n : Z) (q : path),
    In q (targets dir base rd n)
    <-> exists i r,
          nth_error (rows_of rd) i = Some r
          /\ skipped r = false
          /\ q = path_join dir (row_file_name base (n + Z.of_nat i)).
Proof.
  induction rd as [|r0 rest IH|ex]; intros n q; cbn [targets rows_of].
  - split; [contradiction|]. intros ([|i] & r & H & _); discriminate.
  - assert (Hrest :
      In q (targets dir base rest (n + 1))
      <-> exists i r,
            nth_error (r0 :: rows_of rest) (S i) = Some r
            /\ skipped r = false
            /\ q = path_join dir (row_file_name base (n + Z.of_nat (S i)))).
    { rewrite IH. split; intros (i & r & Hnth & Hs & ->); exists i, r;
        (split; [exact Hnth|]); (split; [exact Hs|]); do 2 f_equal; lia. }
    destruct (skipped r0) eqn:Hs0.
    + rewrite Hrest. split.
      * intros (i & r & H). now exists (S i), r.
      * intros ([|i] & r & Hnth & Hs & Hq).
        -- cbn [nth_error] in Hnth. inversion Hnth; subst r. congruence.
        -- now exists i, r.
    + cbn [In]. rewrite Hrest. split.
      * intros [<-|(i & r & H)].
        -- exists 0, r0. cbn [nth_error]. rewrite Z.add_0_r. auto.
        -- now exists (S i), r.
      * intros ([|i] & r & Hnth & Hs & Hq).
        -- left. cbn [nth_error] in Hnth. inversion Hnth; subst r.
           now rewrite Z.add_0_r in Hq.
        -- right. now exists i, r.
  - split; [contradiction|]. intros ([|i] & r & H & _); discriminate.
Qed.

(** X6. When the loop of [extract_all_rows] ends without exception, in a
    directory in which different names are different files, the run has
    written one file for each record whose longest field has two
    characters or more once trimmed, the records being numbered from one,
    and no two records share a file.  Each of these files is there at the
    end, and every other file is as it was.  The extracted counter is the
    number of these files and of these records, and the skipped counter is
    the number of the other records. *)
Theorem all_rows_counts (file_path output_prefix : path) (w w' : world)
    (e s : Z) :
  all_rows_attempt file_path output_prefix w = (Normal (e, s), w') ->
  (forall a b,
      path_join (path_parent output_prefix) a
      = path_join (path_parent output_prefix) b -> a = b) ->
  exists text written,
    files w file_path = Regular text
    /\ (forall q,
          In q written
          <-> exists i r,
                nth_error (rows_of (csv_reader text)) i = Some r
                /\ 2 <= length (strip (json_column_of r))
                /\ q = path_join (path_parent output_prefix)
                         (row_file_name (path_stem output_prefix)
                            (Z.of_nat i + 1)))
    /\ NoDup written
    /\ (forall q, In q written -> exists v, files w' q = Regular v)
    /\ (forall q, ~ In q written -> files w' q = files w q)
    /\ e = Z.of_nat (length written)
    /\ e = Z.of_nat
             (length (filter (fun r => 2 <=? length (strip (json_column_of r)))
                        (rows_of (csv_reader text))))
    /\ s = Z.of_nat
             (length (filter (fun r => length (strip (json_column_of r)) <? 2)
                        (rows_of (csv_reader text)))).
Proof.
  intros Hrun Hinj.
  destruct (files w file_path) as [|text|] eqn:Hf;
    try (rewrite all_rows_attempt_unreadable in Hrun by congruence;
         discriminate).
  rewrite (all_rows_attempt_opened _ _ _ text) in Hrun by exact Hf.
  set (dir := path_parent output_prefix) in *.
  set (base := path_stem output_prefix) in *.
  exists text, (targets dir base (csv_reader text) 1).
  split; [reflexivity|].
  pose proof (all_rows_loop_counts _ _ _ _ _ _ _ _ _ _ Hrun) as (_ & He & Hs).
  pose proof (all_rows_loop_frame dir base (csv_reader text) 1%Z (0%Z, 0%Z) w)
    as Hframe.
  rewrite Hrun in Hframe. cbn [snd] in Hframe.
  assert (Hlong : forall r,
    negb (skipped r) = (2 <=? length (strip (json_column_of r)))).
  { intros r. rewrite skipped_short.
    destruct (Nat.ltb_spec (length (strip (json_column_of r))) 2);
      destruct (Nat.leb_spec 2 (length (strip (json_column_of r))));
      try reflexivity; lia. }
  split; [|split; [|split; [|split; [|split; [|split]]]]].
  - intros q. rewrite targets_records.
    split; intros (i & r & Hnth & Hr & ->); exists i, r;
      (split; [exact Hnth|]).
    + split; [|do 2 f_equal; lia].
      specialize (Hlong r). rewrite Hr in Hlong. cbn [negb] in Hlong.
      symmetry in Hlong. now apply Nat.leb_le in Hlong.
    + split; [|do 2 f_equal; lia].
      specialize (Hlong r). apply Nat.leb_le in Hr. rewrite Hr in Hlong.
      now destruct (skipped r).
  - apply targets_NoDup; [exact Hinj | lia].
  - intros q Hq. eapply all_rows_loop_written; eassumption.
  - exact Hframe.
  - rewrite targets_length. lia.
  - rewrite <- (filter_ext _ _ Hlong). lia.
  - rewrite <- (filter_ext _ _ skipped_short). lia.
Qed.

End RowFiles.

Lemma posix_join_injective (d : path) (a b : str) :
  posix_join d a = posix_join d b -> a = b.
Proof.
  unfold posix_join. destruct (str_eqb d (lit ".")); [auto|].
  intros H. apply app_inv_head in H. now apply app_inv_head in H.
Qed.

Lemma row_files_hold_fields_witness :
  exists w',
    snd (all_rows_attempt (RT := mixed_runtime) in_csv (lit "out/data") start)
    = w'
    /\ files w' (lit "out/data_row_001.json") = Regular (lit "[1,2]").
Proof.
  destruct (all_rows_attempt (RT := mixed_runtime) in_csv (lit "out/data")
              start) as [[counts|ex] w'] eqn:Hrun.
  - exists w'. split; [reflexivity|].
    destruct (row_files_hold_fields (RT := mixed_runtime) in_csv
                (lit "out/data") start w' counts Hrun)
      as (text & _ & Hfiles).
    + intros a b. apply posix_join_injective.
    + apply (Hfiles 0 tie_row); reflexivity.
  - apply (f_equal fst) in Hrun. vm_compute in Hrun. discriminate.
Defined.

Lemma all_rows_counts_witness :
  exists e s w',
    all_rows_attempt (RT := mixed_runtime) in_csv (lit "out/data") start
    = (Normal (e, s), w')
    /\ e = 1%Z /\ s = 2%Z.
Proof.
  destruct (all_rows_attempt (RT := mixed_runtime) in_csv (lit "out/data")
              start) as [[[e s]|ex] w'] eqn:Hrun.
  - exists e, s, w'. split; [reflexivity|].
    destruct (all_rows_counts (RT := mixed_runtime) in_csv (lit "out/data")
                start w' e s Hrun)
      as (text & written & _ & _ & _ & _ & _ & _ & He & Hs).
    + intros a b. apply posix_join_injective.
    + split; [exact He | exact Hs].
  - apply (f_equal fst) in Hrun. vm_compute in Hrun. discriminate.
Defined.

(** ** The two extractors on a short field *)

(** X9. The two extractors do not treat alike a record whose longest
    field is not empty and has fewer than two characters once trimmed: the
    loop of [extract_all_rows] skips the record and writes nothing, while
    [extract_single_row], aimed at it, writes the field and returns
    success. *)
Theorem short_field_extractors_differ {RT : Runtime} (r : row) :
  json_column_of r <> [] ->
  length (strip (json_column_of r)) < 2 ->
  (forall dir base n e s w,
      all_rows_body dir base n r (e, s) w =
      (Normal (e, (s + 1)%Z), log w [MsgNoSignificantData n]))
  /\ (forall file_path output_path n w text,
         files w file_path = Regular text ->
         (1 <= n)%Z ->
         nth_error (rows_of (csv_reader text)) (Z.to_nat (n - 1)) = Some r ->
         files w output_path <> Locked ->
         fst (extract_single_row file_path output_path n w) = Normal true
         /\ files (snd (extract_single_row file_path output_path n w))
              output_path = Regular (json_column_of r)).
Proof.
  intros Hjc Hlen.
  assert (Hr : r <> []) by (intros ->; now apply Hjc).
  assert (Hs : skipped r = true).
  { destruct r as [|f tl]; [reflexivity|]. cbn [skipped].
    unfold insignificant.
    destruct (json_column_of (f :: tl)); [reflexivity|].
    now apply Nat.ltb_lt. }
  split.
  - intros dir base n e s w. rewrite all_rows_body_skips by exact Hs.
    destruct r; [contradiction | reflexivity].
  - intros file_path output_path n w text Hf Hn Hnth Hw.
    rewrite (extract_single_row_at_target _ _ _ _ _ _ Hf Hn Hnth).
    unfold try_except. rewrite extract_target_writes by assumption.
    cbn [fst snd files]. split; [reflexivity | apply update_same].
Qed.

Lemma short_field_extractors_differ_witness :
  all_rows_body (RT := cpython (fun _ => reader_of [[lit "7"]]))
    (lit "out") (lit "data") 1 [lit "7"] (0%Z, 0%Z) start
  = (Normal (0%Z, 1%Z), log start [MsgNoSignificantData 1])
  /\ fst (extract_single_row (RT := cpython (fun _ => reader_of [[lit "7"]]))
            in_csv out_json 1 start) = Normal true.
Proof.
  destruct (short_field_extractors_differ
              (RT := cpython (fun _ => reader_of [[lit "7"]])) [lit "7"])
    as [Hall Hsingle]; [discriminate | vm_compute; lia |].
  split.
  - apply Hall.
  - apply (Hsingle in_csv out_json 1%Z start (lit "csv"));
      solve [reflexivity | lia | discriminate].
Defined.

(** ** The command *)

Lemma tell_tell (s : session) (a b : list line) :
  tell (tell s a) b = tell s (a ++ b).
Proof. unfold tell; cbn [disk terminal]. now rewrite app_assoc. Qed.

Lemma tell_nil (s : session) : tell s [] = s.
Proof. destruct s. unfold tell; cbn [disk terminal]. now rewrite app_nil_r. Qed.

Lemma say_run (l : line) (s : session) : say l s = (Returned tt, tell s [l]).
Proof. reflexivity. Qed.

Lemma readlines_nil (text : str) : readlines text = [] <-> text = [].
Proof.
  split; [|intros ->; reflexivity].
  destruct text as [|c t]; [reflexivity|]. cbn [readlines].
  destruct (N.eqb c 10); [discriminate|].
  destruct (readlines t); discriminate.
Qed.

(** The lines [readlines] gives make the text, none of them is empty, and
    a newline is the last character of a line or is not in the line. *)
Lemma readlines_concat (text : str) :
  concat (readlines text) = text
  /\ Forall (fun l => l <> []) (readlines text).
Proof.
  induction text as [|c t [IHc IHf]]; cbn [readlines concat].
  - split; [reflexivity | constructor].
  - destruct (N.eqb c 10).
    + cbn [concat app]. split; [now rewrite IHc|].
      constructor; [discriminate | exact IHf].
    + destruct (readlines t) as [|l ls].
      * cbn [concat app] in *. split; [now rewrite <- IHc|].
        constructor; [discriminate | constructor].
      * cbn [concat app] in *. split; [now rewrite <- IHc|].
        inversion IHf; subst. constructor; [discriminate | assumption].
Qed.

Section CommandRuns.

Context {RT : Runtime} {HT : Host}.

Lemma preview_run (k : Z) (lines : list str) :
  forall (i : Z) (s : session),
    preview k lines i s = (Returned tt, tell s (preview_output k lines i)).
Proof.
  induction lines as [|l rest IH]; intros i s; cbn [preview preview_output].
  - now rewrite tell_nil.
  - unfold and_then at 1. rewrite say_run. unfold and_then at 1.
    destruct (k <? Z.of_nat (length l))%Z; rewrite say_run, IH, !tell_tell;
      reflexivity.
Qed.

Lemma preview_output_length (k : Z) (lines : list str) :
  forall i, length (preview_output k lines i) = 2 * length lines.
Proof.
  induction lines as [|l rest IH]; intros i; cbn [preview_output length];
    [reflexivity|].
  rewrite IH. lia.
Qed.

Lemma analyze_csv_structure_run (file_path : path) (k : Z) (s : session)
    (text : str) :
  disk s file_path = Regular text ->
  analyze_csv_structure file_path k s =
  (Returned (Z.of_nat (length (readlines text))),
   tell s ([LineAnalyzing; LineDoubleRule;
            LineTotalLines (length (readlines text))]
           ++ preview_output k
                (firstn (Nat.min 10 (length (readlines text)))
                   (readlines text)) 1
           ++ if 10 <? length (readlines text)
              then [LineMoreLines (Z.of_nat (length (readlines text)) - 10)]
              else [])).
Proof.
  intros Hf. unfold analyze_csv_structure.
  unfold and_then at 1. rewrite say_run.
  unfold and_then at 1. rewrite say_run.
  unfold and_then at 1. unfold read_lines. cbn [disk tell]. rewrite Hf.
  unfold and_then at 1. rewrite say_run.
  unfold and_then at 1. rewrite preview_run.
  unfold and_then, done.
  destruct (10 <? length (readlines text)); rewrite ?say_run;
    rewrite !tell_tell; unfold tell; cbn [disk terminal];
    rewrite <- ?app_assoc; cbn [app]; rewrite ?app_nil_r; reflexivity.
Qed.

Lemma preview_output_not_said (k : Z) (lines : list str) :
  forall i, filter is_said (preview_output k lines i) = [].
Proof.
  induction lines as [|l rest IH]; intros i; cbn [preview_output filter];
    [reflexivity|].
  destruct (k <? Z.of_nat (length l))%Z; cbn [is_said]; apply IH.
Qed.

Lemma call_run {A} (m : M A) (s : session) :
  call m s =
  (match fst (m (World (disk s) [])) with
   | Normal a => Returned a
   | Raised e => Uncaught (Lib e)
   end,
   Session (files (snd (m (World (disk s) []))))
     (terminal s ++ map Said (console (snd (m (World (disk s) [])))))).
Proof. unfold call. now destruct (m (World (disk s) [])). Qed.

Lemma preview_output_nth (k : Z) (lines : list str) :
  forall (i0 : Z) (i : nat) (l : str),
    nth_error lines i = Some l ->
    nth_error (preview_output k lines i0) (2 * i)
    = Some (LineChars (i0 + Z.of_nat i) (length l))
    /\ nth_error (preview_output k lines i0) (2 * i + 1)
       = Some (if (k <? Z.of_nat (length l))%Z
               then LinePreviewCut (slice_to k l)
               else LinePreview (strip l)).
Proof.
  induction lines as [|l0 rest IH]; intros i0 [|i] l Hnth;
    cbn [nth_error] in Hnth; try discriminate.
  - inversion Hnth; subst l0. cbn [preview_output].
    rewrite Z.add_0_r. split; reflexivity.
  - replace (2 * S i) with (S (S (2 * i))) by lia.
    replace (S (S (2 * i)) + 1) with (S (S (2 * i + 1))) by lia.
    cbn [preview_output nth_error].
    replace (i0 + Z.of_nat (S i))%Z with (i0 + 1 + Z.of_nat i)%Z by lia.
    now apply IH.
Qed.

(** X10. On a file that can be read, [analyze_csv_structure] returns the
    number of lines of the text, which is zero for the empty text only,
    and changes no file.  After three lines of header it prints two lines
    for each of the first ten lines of the text, in their order: the
    number of the line, counted from one, with its length, and then the
    line, cut to [show_chars] characters when it is longer and trimmed
    otherwise.  One line more follows exactly when the text has more than
    ten lines, with their number less ten. *)
Theorem analyze_csv_structure_report (file_path : path) (k : Z) (s : session)
    (text : str) :
  disk s file_path = Regular text ->
  let lines := readlines text in
  let n := length lines in
  fst (analyze_csv_structure file_path k s) = Returned (Z.of_nat n)
  /\ (n = 0 <-> text = [])
  /\ disk (snd (analyze_csv_structure file_path k s)) = disk s
  /\ exists shown,
      terminal (snd (analyze_csv_structure file_path k s))
      = terminal s
        ++ [LineAnalyzing; LineDoubleRule; LineTotalLines n]
        ++ shown
        ++ (if 10 <? n then [LineMoreLines (Z.of_nat n - 10)] else [])
      /\ length shown = 2 * Nat.min 10 n
      /\ forall i l,
          i < 10 ->
          nth_error lines i = Some l ->
          nth_error shown (2 * i)
          = Some (LineChars (Z.of_nat i + 1) (length l))
          /\ nth_error shown (2 * i + 1)
             = Some (if (k <? Z.of_nat (length l))%Z
                     then LinePreviewCut (slice_to k l)
                     else LinePreview (strip l)).
Proof.
  intros Hf lines n. rewrite (analyze_csv_structure_run _ _ _ _ Hf).
  cbn [fst snd tell disk terminal]. split; [reflexivity|]. split.
  - subst n lines. rewrite length_zero_iff_nil. apply readlines_nil.
  - split; [reflexivity|].
    exists (preview_output k (firstn (Nat.min 10 n) lines) 1).
    split; [reflexivity|]. split.
    + rewrite preview_output_length, length_firstn. subst n. lia.
    + intros i l Hi Hnth.
      replace (Z.of_nat i + 1)%Z with (1 + Z.of_nat i)%Z by lia.
      apply preview_output_nth. rewrite nth_error_firstn.
      assert (Hin : i < n)
        by (subst n; apply nth_error_Some; congruence).
      destruct (Nat.ltb_spec i (Nat.min 10 n)) as [_|H]; [exact Hnth | lia].
Qed.

(** [main] up to the end of the analysis, when there are arguments enough
    and the input can be read. *)
Lemma main_analyzed (argv : list str) (s : session) (text : str) :
  3 <= length argv ->
  disk s (nth 1 argv []) = Regular text ->
  exists shown,
    filter is_said shown = []
    /\ main argv s =
       (if 3 <? length argv
        then row_mode (nth 1 argv []) (nth 2 argv []) (nth 3 argv [])
               (Z.of_nat (length (readlines text)))
        else all_mode (nth 1 argv []) (nth 2 argv []))
         (tell s shown).
Proof.
  intros Hlen Hf.
  exists ([LineAnalyzing; LineDoubleRule;
           LineTotalLines (length (readlines text))]
          ++ preview_output 500
               (firstn (Nat.min 10 (length (readlines text))) (readlines text))
               1
          ++ (if 10 <? length (readlines text)
              then [LineMoreLines (Z.of_nat (length (readlines text)) - 10)]
              else [])
          ++ [LineDoubleRule]).
  split.
  - cbn [app filter is_said]. rewrite !filter_app, preview_output_not_said.
    destruct (10 <? length (readlines text)); reflexivity.
  - unfold main. destruct (Nat.ltb_spec (length argv) 3) as [H|_]; [lia|].
    unfold and_then at 1. unfold path_exists. rewrite Hf. cbn [negb].
    unfold and_then at 1.
    rewrite (analyze_csv_structure_run _ _ _ _ Hf).
    unfold and_then at 1. rewrite say_run, tell_tell.
    rewrite <- !app_assoc. reflexivity.
Qed.

(** [main] on an input that cannot be opened. *)
Lemma main_on_unreadable (argv : list str) (s : session) :
  3 <= length argv ->
  disk s (nth 1 argv []) = Locked ->
  main argv s =
  (Uncaught (Lib (OSError (nth 1 argv []))),
   tell s [LineAnalyzing; LineDoubleRule]).
Proof.
  intros Hlen Hf. unfold main.
  destruct (Nat.ltb_spec (length argv) 3) as [H|_]; [lia|].
  unfold and_then at 1. unfold path_exists. rewrite Hf. cbn [negb].
  unfold and_then at 1. unfold analyze_csv_structure.
  unfold and_then at 1. rewrite say_run.
  unfold and_then at 1. rewrite say_run.
  unfold and_then, read_lines. cbn [disk tell]. rewrite Hf.
  unfold tell; cbn [disk terminal]. now rewrite <- app_assoc.
Qed.

(** X11. [main] does not catch what the analysis raises: when the input
    path exists and cannot be opened, the command ends on that exception,
    after the two lines of header, and no file is changed. *)
Theorem main_unreadable_input (argv : list str) (s : session) :
  3 <= length argv ->
  disk s (nth 1 argv []) = Locked ->
  main argv s =
  (Uncaught (Lib (OSError (nth 1 argv []))),
   tell s [LineAnalyzing; LineDoubleRule]).
Proof. exact (main_on_unreadable argv s). Qed.

Lemma exit_without_call (r : ending unit * session) (s : session)
    (added : list line) :
  r = (Exited 1, tell s added) ->
  filter is_said added = [] ->
  fst r = Exited 1
  /\ disk (snd r) = disk s
  /\ exists added, terminal (snd r) = terminal s ++ added
                   /\ filter is_said added = [].
Proof.
  intros -> Hadded. cbn [fst snd tell disk terminal].
  split; [reflexivity|]. split; [reflexivity|]. now exists added.
Qed.

(** The branch for a row number, case by case. *)
Lemma row_mode_run (input_file output_path : path) (argument : str)
    (total_lines : Z) (s : session) :
  row_mode input_file output_path argument total_lines s =
  match int_of argument with
  | None => (Exited 1, tell s [LineNotANumber argument])
  | Some n =>
      if (n <? 1)%Z then (Exited 1, tell s [LineMustBePositive])
      else if (total_lines <? n)%Z
      then (Exited 1, tell s [LineOutOfRange n total_lines])
      else try_except_value_error
             (and_then (call (extract_single_row input_file output_path n))
                (single_row_done output_path))
             (and_then (say (LineNotANumber argument)) (fun _ => sys_exit 1))
             s
  end.
Proof.
  unfold row_mode, try_except_value_error. unfold and_then at 1. unfold int.
  destruct (int_of argument) as [n|].
  - destruct (n <? 1)%Z; [reflexivity|].
    destruct (total_lines <? n)%Z; reflexivity.
  - reflexivity.
Qed.

(** What follows a call of an extractor that returns. *)
Lemma single_row_done_run (output_path : path) (b : bool) (s : session) :
  exists t,
    single_row_done output_path b s =
    (if b then Returned tt else Exited 1, Session (disk s) t).
Proof.
  unfold single_row_done.
  destruct b; [|exists (terminal s); destruct s; reflexivity].
  unfold and_then at 1. rewrite say_run.
  unfold and_then at 1. rewrite say_run.
  unfold and_then at 1. rewrite call_run. cbn [disk tell].
  destruct (validator_verdict output_path (World (disk s) []))
    as ((b' & Hb') & Hfiles & _).
  rewrite Hb', Hfiles. unfold and_then, say. cbn [disk terminal files].
  eexists. reflexivity.
Qed.

Lemma all_rows_done_run (output_path : path) (b : bool) (s : session) :
  exists t,
    all_rows_done output_path b s =
    (if b then Returned tt else Exited 1, Session (disk s) t).
Proof.
  unfold all_rows_done.
  destruct b; [|exists (terminal s); destruct s; reflexivity].
  unfold and_then, say. cbn [disk terminal]. eexists. reflexivity.
Qed.

(** [main] on arguments it rejects. *)
Lemma main_on_rejected (argv : list str) (s : session) :
  rejected argv s ->
  fst (main argv s) = Exited 1
  /\ disk (snd (main argv s)) = disk s
  /\ exists added,
      terminal (snd (main argv s)) = terminal s ++ added
      /\ filter is_said added = [].
Proof.
  intros Hrej.
  destruct (Nat.ltb_spec (length argv) 3) as [Hshort|Hlen].
  { apply (exit_without_call _ s
             [LineUsage; LineUsageRow; LineUsageAll; LineBlank; LineExamples;
              LineExampleRow; LineExampleAll; LineBlank; LineNote]);
      [|reflexivity].
    unfold main. destruct (Nat.ltb_spec (length argv) 3) as [_|H]; [|lia].
    unfold and_then, say, sys_exit, tell. cbn [fst snd disk terminal].
    rewrite <- !app_assoc. reflexivity. }
  destruct Hrej as [H|[Habsent|(Hfour & text & Hf & Hint)]]; [lia| |].
  - apply (exit_without_call _ s [LineNotFound (nth 1 argv [])]);
      [|reflexivity].
    unfold main. destruct (Nat.ltb_spec (length argv) 3) as [H|_]; [lia|].
    unfold and_then at 1. unfold path_exists. rewrite Habsent. cbn [negb].
    reflexivity.
  - destruct (main_analyzed argv s text Hlen Hf) as (shown & Hshown & ->).
    destruct (Nat.ltb_spec 3 (length argv)) as [_|H]; [|lia].
    rewrite row_mode_run.
    destruct (int_of (nth 3 argv [])) as [n|].
    + destruct (Z.ltb_spec n 1) as [Hlow|Hge].
      * apply (exit_without_call _ s (shown ++ [LineMustBePositive]));
          [|now rewrite filter_app, Hshown].
        now rewrite tell_tell.
      * destruct (Z.ltb_spec (Z.of_nat (length (readlines text))) n)
          as [_|H]; [|lia].
        apply (exit_without_call _ s
                 (shown ++ [LineOutOfRange n
                              (Z.of_nat (length (readlines text)))]));
          [|now rewrite filter_app, Hshown].
        now rewrite tell_tell.
    + apply (exit_without_call _ s (shown ++ [LineNotANumber (nth 3 argv [])]));
        [|now rewrite filter_app, Hshown].
      now rewrite tell_tell.
Qed.

(** X12. On rejected arguments [main] exits with status 1, changes no
    file and calls none of the extractors or the validator: none of their
    lines is printed. *)
Theorem main_rejects (argv : list str) (s : session) :
  rejected argv s ->
  fst (main argv s) = Exited 1
  /\ disk (snd (main argv s)) = disk s
  /\ exists added,
      terminal (snd (main argv s)) = terminal s ++ added
      /\ filter is_said added = [].
Proof. exact (main_on_rejected argv s). Qed.

(** [main] with a row number that is accepted. *)
Lemma main_row_mode (argv : list str) (s : session) (text : str) (n : Z) :
  3 < length argv ->
  disk s (nth 1 argv []) = Regular text ->
  int_of (nth 3 argv []) = Some n ->
  (1 <= n <= Z.of_nat (length (readlines text)))%Z ->
  fst (main argv s)
  = match fst (extract_single_row (nth 1 argv []) (nth 2 argv []) n
                 (World (disk s) [])) with
    | Normal true => Returned tt
    | _ => Exited 1
    end
  /\ disk (snd (main argv s))
     = files (snd (extract_single_row (nth 1 argv []) (nth 2 argv []) n
                     (World (disk s) []))).
Proof.
  intros Hfour Hf Hint Hn.
  set (run := extract_single_row (nth 1 argv []) (nth 2 argv []) n
                (World (disk s) [])).
  assert (Hmain : exists t,
    main argv s = (match fst run with
                   | Normal true => Returned tt
                   | _ => Exited 1
                   end, Session (files (snd run)) t)).
  { destruct (main_analyzed argv s text ltac:(lia) Hf) as (shown & _ & ->).
    destruct (Nat.ltb_spec 3 (length argv)) as [_|H]; [|lia].
    rewrite row_mode_run, Hint.
    destruct (Z.ltb_spec n 1) as [H|_]; [lia|].
    destruct (Z.ltb_spec (Z.of_nat (length (readlines text))) n) as [H|_];
      [lia|].
    unfold try_except_value_error, and_then at 1. rewrite call_run.
    cbn [disk tell]. fold run.
    destruct (single_row_effect (nth 1 argv []) (nth 2 argv []) n
                (World (disk s) [])) as ((b & Hb) & _ & _).
    fold run in Hb. rewrite Hb.
    match goal with
    | |- context [single_row_done ?o b ?s1] =>
        destruct (single_row_done_run o b s1) as (t & ->)
    end.
    exists t. destruct b; reflexivity. }
  destruct Hmain as (t & ->). split; reflexivity.
Qed.

(** X13. With a row number that is accepted, the status of [main] is that
    of [extract_single_row]: 0 when it returns success and 1 when it
    returns failure, whatever the validator then finds; the files are left
    as [extract_single_row] leaves them. *)
Theorem main_row_status (argv : list str) (s : session) (text : str) (n : Z) :
  3 < length argv ->
  disk s (nth 1 argv []) = Regular text ->
  int_of (nth 3 argv []) = Some n ->
  (1 <= n <= Z.of_nat (length (readlines text)))%Z ->
  fst (main argv s)
  = match fst (extract_single_row (nth 1 argv []) (nth 2 argv []) n
                 (World (disk s) [])) with
    | Normal true => Returned tt
    | _ => Exited 1
    end
  /\ disk (snd (main argv s))
     = files (snd (extract_single_row (nth 1 argv []) (nth 2 argv []) n
                     (World (disk s) []))).
Proof. exact (main_row_mode argv s text n). Qed.

Lemma mkdir_run (d : path) (s : session) :
  mkdir d s =
  (match fst (mkdir_parents (disk s) d) with
   | Normal _ => Returned tt
   | Raised e => Uncaught (Lib e)
   end,
   Session (snd (mkdir_parents (disk s) d)) (terminal s)).
Proof.
  unfold mkdir. destruct (mkdir_parents (disk s) d) as [[u|e] fs]; reflexivity.
Qed.

(** The branch without row number, case by case. *)
Lemma main_all_mode (argv : list str) (s : session) (text : str) :
  length argv = 3 ->
  disk s (nth 1 argv []) = Regular text ->
  (forall fs,
      (disk s (path_parent (nth 2 argv [])) <> Absent /\ fs = disk s)
      \/ (disk s (path_parent (nth 2 argv [])) = Absent
          /\ mkdir_parents (disk s) (path_parent (nth 2 argv []))
             = (Normal tt, fs)) ->
      fst (main argv s)
      = match fst (extract_all_rows (nth 1 argv []) (nth 2 argv [])
                     (World fs [])) with
        | Normal true => Returned tt
        | _ => Exited 1
        end
      /\ disk (snd (main argv s))
         = files (snd (extract_all_rows (nth 1 argv []) (nth 2 argv [])
                         (World fs []))))
  /\ (forall e fs,
         disk s (path_parent (nth 2 argv [])) = Absent ->
         mkdir_parents (disk s) (path_parent (nth 2 argv [])) = (Raised e, fs) ->
         fst (main argv s) = Uncaught (Lib e)
         /\ disk (snd (main argv s)) = fs
         /\ exists added,
             terminal (snd (main argv s)) = terminal s ++ added
             /\ filter is_said added = []).
Proof.
  intros Hthree Hf.
  destruct (main_analyzed argv s text ltac:(lia) Hf) as (shown & Hshown & ->).
  destruct (Nat.ltb_spec 3 (length argv)) as [H|_]; [lia|].
  assert (Hcall : forall s1,
    exists t,
      and_then (call (extract_all_rows (nth 1 argv []) (nth 2 argv [])))
        (fun success => all_rows_done (nth 2 argv []) success) s1
      = (match fst (extract_all_rows (nth 1 argv []) (nth 2 argv [])
                      (World (disk s1) [])) with
         | Normal true => Returned tt
         | _ => Exited 1
         end,
         Session (files (snd (extract_all_rows (nth 1 argv [])
                                (nth 2 argv []) (World (disk s1) [])))) t)).
  { intros s1. unfold and_then at 1. rewrite call_run.
    destruct (all_rows_effect (nth 1 argv []) (nth 2 argv [])
                (World (disk s1) [])) as ((b & Hb) & _ & _).
    rewrite Hb.
    match goal with
    | |- context [all_rows_done ?o b ?s2] =>
        destruct (all_rows_done_run o b s2) as (t & ->)
    end.
    exists t. destruct b; reflexivity. }
  split.
  - intros fs Hdir.
    assert (Hrun : exists t,
      all_mode (nth 1 argv []) (nth 2 argv []) (tell s shown)
      = (match fst (extract_all_rows (nth 1 argv []) (nth 2 argv [])
                      (World fs [])) with
         | Normal true => Returned tt
         | _ => Exited 1
         end,
         Session (files (snd (extract_all_rows (nth 1 argv [])
                                (nth 2 argv []) (World fs [])))) t)).
    { unfold all_mode. unfold and_then at 1. rewrite say_run, tell_tell.
      unfold and_then at 1. unfold path_exists. cbn [disk tell].
      destruct Hdir as [[Hthere ->]|[Hmissing Hmk]].
      - assert (Hfound : negb match disk s (path_parent (nth 2 argv [])) with
                              | Absent => false
                              | _ => true
                              end = false)
          by (destruct (disk s (path_parent (nth 2 argv [])));
              [contradiction | reflexivity | reflexivity]).
        rewrite Hfound. unfold and_then at 1. unfold done.
        match goal with
        | |- context [and_then (call _) _ ?s1] =>
            destruct (Hcall s1) as (t & ->)
        end.
        now exists t.
      - rewrite Hmissing. cbn [negb].
        unfold and_then at 1. unfold and_then at 1.
        rewrite mkdir_run. cbn [disk tell]. rewrite Hmk. cbn [fst snd].
        rewrite say_run.
        match goal with
        | |- context [and_then (call _) _ ?s1] =>
            destruct (Hcall s1) as (t & ->)
        end.
        now exists t. }
    destruct Hrun as (t & ->). split; reflexivity.
  - intros e fs Hmissing Hmk.
    assert (Hrun :
      all_mode (nth 1 argv []) (nth 2 argv []) (tell s shown)
      = (Uncaught (Lib e),
         Session fs (terminal s ++ shown ++ [LineNoRowNumber]))).
    { unfold all_mode. unfold and_then at 1. rewrite say_run, tell_tell.
      unfold and_then at 1. unfold path_exists. cbn [disk tell].
      rewrite Hmissing. cbn [negb].
      unfold and_then at 1. unfold and_then at 1.
      rewrite mkdir_run. cbn [disk terminal tell]. rewrite Hmk.
      reflexivity. }
    rewrite Hrun. cbn [fst snd disk terminal].
    split; [reflexivity|]. split; [reflexivity|].
    exists (shown ++ [LineNoRowNumber]). split; [reflexivity|].
    now rewrite filter_app, Hshown.
Qed.

(** X14. Without row number, once the directory of the output is there,
    the status of [main] is that of [extract_all_rows], 0 for success and 1
    for failure, and the files are left as [extract_all_rows] leaves them.
    When the directory is missing and [mkdir] raises, the command ends on
    that exception before any extraction: none of the lines of the
    extractor is printed, and the files are as [mkdir] left them, with the
    parents it may have made. *)
Theorem main_all_status (argv : list str) (s : session) (text : str) :
  length argv = 3 ->
  disk s (nth 1 argv []) = Regular text ->
  (forall fs,
      (disk s (path_parent (nth 2 argv [])) <> Absent /\ fs = disk s)
      \/ (disk s (path_parent (nth 2 argv [])) = Absent
          /\ mkdir_parents (disk s) (path_parent (nth 2 argv []))
             = (Normal tt, fs)) ->
      fst (main argv s)
      = match fst (extract_all_rows (nth 1 argv []) (nth 2 argv [])
                     (World fs [])) with
        | Normal true => Returned tt
        | _ => Exited 1
        end
      /\ disk (snd (main argv s))
         = files (snd (extract_all_rows (nth 1 argv []) (nth 2 argv [])
                         (World fs []))))
  /\ (forall e fs,
         disk s (path_parent (nth 2 argv [])) = Absent ->
         mkdir_parents (disk s) (path_parent (nth 2 argv [])) = (Raised e, fs) ->
         fst (main argv s) = Uncaught (Lib e)
         /\ disk (snd (main argv s)) = fs
         /\ exists added,
             terminal (snd (main argv s)) = terminal s ++ added
             /\ filter is_said added = []).
Proof. exact (main_all_mode argv s text). Qed.

(** X15. [main] ends with status 0 only after an extractor returned
    success: there were arguments enough, the input could be read, and
    either the row number was an integer between one and the number of
    lines and [extract_single_row] returned success, or there was no row
    number, the directory of the output was there or was made, and
    [extract_all_rows] returned success. *)
Theorem main_success (argv : list str) (s : session) :
  fst (main argv s) = Returned tt ->
  exists text,
    disk s (nth 1 argv []) = Regular text
    /\ ((3 < length argv
         /\ exists n,
             int_of (nth 3 argv []) = Some n
             /\ (1 <= n <= Z.of_nat (length (readlines text)))%Z
             /\ fst (extract_single_row (nth 1 argv []) (nth 2 argv []) n
                       (World (disk s) [])) = Normal true)
        \/ (length argv = 3
            /\ exists fs,
                ((disk s (path_parent (nth 2 argv [])) <> Absent
                  /\ fs = disk s)
                 \/ (disk s (path_parent (nth 2 argv [])) = Absent
                     /\ mkdir_parents (disk s) (path_parent (nth 2 argv []))
                        = (Normal tt, fs)))
                /\ fst (extract_all_rows (nth 1 argv []) (nth 2 argv [])
                          (World fs [])) = Normal true)).
Proof.
  intros Hok.
  assert (Hnot : ~ rejected argv s).
  { intros Hrej. apply main_on_rejected in Hrej as (Hexit & _). congruence. }
  assert (Hlen : 3 <= length argv).
  { destruct (Nat.ltb_spec (length argv) 3) as [H|H]; [|exact H].
    exfalso. apply Hnot. left. exact H. }
  destruct (disk s (nth 1 argv [])) as [|text|] eqn:Hf.
  - exfalso. apply Hnot. right. left. exact Hf.
  - exists text. split; [reflexivity|].
    destruct (Nat.ltb_spec 3 (length argv)) as [Hfour|Hthree].
    + left. split; [exact Hfour|].
      destruct (int_of (nth 3 argv [])) as [n|] eqn:Hint.
      * exists n. split; [reflexivity|].
        assert (Hn : (1 <= n <= Z.of_nat (length (readlines text)))%Z).
        { destruct (Z.ltb_spec n 1) as [Hlow|Hge];
            [|destruct (Z.ltb_spec (Z.of_nat (length (readlines text))) n)
                as [Hhigh|Hle]; [|lia]];
            exfalso; apply Hnot; right; right; (split; [exact Hfour|]);
            exists text; (split; [exact Hf|]); rewrite Hint; auto. }
        split; [exact Hn|].
        destruct (main_row_mode argv s text n Hfour Hf Hint Hn)
          as [Hstatus _].
        rewrite Hstatus in Hok.
        destruct (fst (extract_single_row _ _ _ _)) as [[|]|e];
          [reflexivity | discriminate | discriminate].
      * exfalso. apply Hnot. right. right. split; [exact Hfour|].
        exists text. split; [exact Hf|]. now rewrite Hint.
    + right. assert (Hthree' : length argv = 3) by lia.
      split; [exact Hthree'|].
      destruct (main_all_mode argv s text Hthree' Hf) as [Hnormal Hraised].
      assert (Hfs : forall fs,
        (disk s (path_parent (nth 2 argv [])) <> Absent /\ fs = disk s)
        \/ (disk s (path_parent (nth 2 argv [])) = Absent
            /\ mkdir_parents (disk s) (path_parent (nth 2 argv []))
               = (Normal tt, fs)) ->
        fst (extract_all_rows (nth 1 argv []) (nth 2 argv []) (World fs []))
        = Normal true).
      { intros fs Hdir. destruct (Hnormal fs Hdir) as [Hstatus _].
        rewrite Hstatus in Hok.
        destruct (fst (extract_all_rows _ _ _)) as [[|]|e];
          [reflexivity | discriminate | discriminate]. }
      destruct (disk s (path_parent (nth 2 argv []))) eqn:Hdir.
      * destruct (mkdir_parents (disk s) (path_parent (nth 2 argv [])))
          as [[[]|e] fs] eqn:Hmk.
        -- exists fs. split; [right; split; reflexivity|].
           apply Hfs. right. split; reflexivity.
        -- destruct (Hraised e fs eq_refl eq_refl) as [Hcrash _]. congruence.
      * exists (disk s). split; [left; split; [discriminate | reflexivity]|].
        apply Hfs. left. split; [discriminate | reflexivity].
      * exists (disk s). split; [left; split; [discriminate | reflexivity]|].
        apply Hfs. left. split; [discriminate | reflexivity].
  - rewrite (main_on_unreadable argv s Hlen Hf) in Hok. discriminate.
Qed.

End CommandRuns.

Lemma analyze_csv_structure_report_witness :
  fst (analyze_csv_structure in_csv 500 (boot two_lines)) = Returned 2%Z
  /\ exists shown,
      terminal (snd (analyze_csv_structure in_csv 500 (boot two_lines)))
      = [LineAnalyzing; LineDoubleRule; LineTotalLines 2] ++ shown ++ []
      /\ nth_error shown 2 = Some (LineChars 2 4)
      /\ nth_error shown 3 = Some (LinePreview (lit "c,d")).
Proof.
  destruct (analyze_csv_structure_report in_csv 500 (boot two_lines) two_lines
              eq_refl) as (Hn & _ & _ & shown & Hshown & _ & Hlines).
  split; [exact Hn|]. exists shown. split; [exact Hshown|].
  apply (Hlines 1 (lit "c,d" ++ [10%N])); [lia | reflexivity].
Defined.

Lemma main_unreadable_input_witness :
  main (RT := mixed_runtime) (HT := plain_host) (argv_row "1") boot_locked
  = (Uncaught (Lib (OSError in_csv)),
     tell boot_locked [LineAnalyzing; LineDoubleRule]).
Proof.
  apply (main_unreadable_input (RT := mixed_runtime) (HT := plain_host)
           (argv_row "1") boot_locked); [cbn; lia | reflexivity].
Defined.

Lemma main_rejects_witness :
  fst (main (RT := mixed_runtime) (HT := plain_host) (argv_row "3")
         (boot two_lines)) = Exited 1
  /\ fst (main (RT := mixed_runtime) (HT := plain_host) (argv_row "1")
            (boot [])) = Exited 1
  /\ fst (main (RT := mixed_runtime) (HT := plain_host) (argv_row "two")
            (boot two_lines)) = Exited 1.
Proof.
  split; [|split].
  - apply (main_rejects (RT := mixed_runtime) (HT := plain_host)
             (argv_row "3") (boot two_lines)).
    right. right. split; [cbn; lia|]. exists two_lines.
    split; [reflexivity|]. vm_compute. right. reflexivity.
  - apply (main_rejects (RT := mixed_runtime) (HT := plain_host)
             (argv_row "1") (boot [])).
    right. right. split; [cbn; lia|]. exists [].
    split; [reflexivity|]. vm_compute. right. reflexivity.
  - apply (main_rejects (RT := mixed_runtime) (HT := plain_host)
             (argv_row "two") (boot two_lines)).
    right. right. split; [cbn; lia|]. exists two_lines.
    split; [reflexivity|]. exact I.
Defined.

Lemma main_row_status_witness :
  fst (main (RT := mixed_runtime) (HT := plain_host) (argv_row "1")
         (boot two_lines)) = Returned tt
  /\ fst (main (RT := mixed_runtime) (HT := plain_host) (argv_row "2")
            (boot two_lines)) = Exited 1.
Proof.
  split.
  - rewrite (proj1 (main_row_status (RT := mixed_runtime) (HT := plain_host)
                      (argv_row "1") (boot two_lines) two_lines 1%Z
                      ltac:(cbn; lia) eq_refl eq_refl ltac:(vm_compute; split; discriminate))).
    reflexivity.
  - rewrite (proj1 (main_row_status (RT := mixed_runtime) (HT := plain_host)
                      (argv_row "2") (boot two_lines) two_lines 2%Z
                      ltac:(cbn; lia) eq_refl eq_refl ltac:(vm_compute; split; discriminate))).
    reflexivity.
Defined.

Lemma main_all_status_witness :
  fst (main (RT := mixed_runtime) (HT := plain_host) argv_all (boot two_lines))
  = Returned tt
  /\ fst (main (RT := mixed_runtime) (HT := limited_host) argv_long
            (boot two_lines))
     = Uncaught (Lib (OSError (lit "out/" ++ long_name)))
  /\ disk (snd (main (RT := mixed_runtime) (HT := limited_host) argv_long
                  (boot two_lines))) (lit "out") = Locked.
Proof.
  split.
  - destruct (main_all_status (RT := mixed_runtime) (HT := plain_host)
                argv_all (boot two_lines) two_lines eq_refl eq_refl)
      as [Hstatus _].
    rewrite (proj1 (Hstatus (update (disk (boot two_lines)) (lit "out") Locked)
                      (or_intror (conj eq_refl eq_refl)))).
    reflexivity.
  - destruct (main_all_status (RT := mixed_runtime) (HT := limited_host)
                argv_long (boot two_lines) two_lines eq_refl eq_refl)
      as [_ Hraised].
    destruct (Hraised (OSError (lit "out/" ++ long_name))
                (update (disk (boot two_lines)) (lit "out") Locked)
                eq_refl eq_refl) as (Hend & Hdisk & _).
    split; [exact Hend|]. rewrite Hdisk. reflexivity.
Defined.

Lemma main_success_witness :
  exists text,
    disk (boot two_lines) in_csv = Regular text
    /\ fst (extract_single_row (RT := mixed_runtime) in_csv out_json 1
              (World (disk (boot two_lines)) [])) = Normal true.
Proof.
  destruct (main_success (RT := mixed_runtime) (HT := plain_host)
              (argv_row "1") (boot two_lines) eq_refl)
    as (text & Hf & [(_ & n & Hint & _ & Hok)|(Hthree & _)]).
  - exists text. split; [exact Hf|].
    inversion Hint; subst n. exact Hok.
  - discriminate.
Defined.
